(** * Velocity storage and workflow engine: a shallow embedding

    The development follows the package [internal/storage]: the shared
    types of [storage.go] and the S3-compatible implementation [S3Storage].
    Go strings are byte strings and are modelled by [string]; [[]byte]
    payloads are [list byte]; Go's [int] and [int64] values are [Z] (the
    code only compares them); a [map[string]string] is a
    [gmap string string], [nil] being [None].  A method that talks to the
    object store is a state transformer over a [World] made of the bucket,
    the queue of goroutines started with [go], and the log; like its Go
    original it returns a [(value, error)] pair, here a sum, and every
    [if err != nil] is a [match] on it. *)

From stdpp Require Import gmap strings list fin_maps sorting pretty.
From Stdlib Require Import ZArith.
From Stdlib.Strings Require Import Ascii Byte.

Local Open Scope string_scope.
Local Open Scope Z_scope.

(** ** Go's [strings] package (the functions the storage code calls) *)

Module GoStrings.

(** [len(s)] *)
Definition len (s : string) : Z := Z.of_nat (String.length s).

(** [strings.HasPrefix(s, prefix)] *)
Definition HasPrefix (s prefix : string) : bool := String.prefix prefix s.

(** [strings.HasSuffix(s, suffix)]:
    [len(s) >= len(suffix) && s[len(s)-len(suffix):] == suffix] *)
Definition HasSuffix (s suffix : string) : bool :=
  (String.length suffix <=? String.length s)%nat &&
  String.eqb
    (String.substring (String.length s - String.length suffix)
                      (String.length suffix) s)
    suffix.

(** [strings.Contains(s, substr)] *)
Fixpoint Contains (s substr : string) : bool :=
  String.prefix substr s ||
  match s with
  | EmptyString => false
  | String _ s' => Contains s' substr
  end.

(** [strings.LastIndex(s, substr)]: index of the last occurrence, or [-1]. *)
Fixpoint LastIndex (s substr : string) : Z :=
  match s with
  | EmptyString => if String.eqb substr "" then 0 else -1
  | String _ s' =>
      let r := LastIndex s' substr in
      if 0 <=? r then r + 1
      else if String.prefix substr s then 0 else -1
  end.

(** [s[:i]] and [s[i:]] for an index within bounds. *)
Definition slice_to (s : string) (i : Z) : string :=
  String.substring 0 (Z.to_nat i) s.
Definition slice_from (s : string) (i : Z) : string :=
  String.substring (Z.to_nat i) (String.length s - Z.to_nat i) s.

Fixpoint TrimLeft_byte (s : string) (c : ascii) : string :=
  match s with
  | String a s' => if Ascii.eqb a c then TrimLeft_byte s' c else s
  | EmptyString => EmptyString
  end.

Definition TrimRight_byte (s : string) (c : ascii) : string :=
  String.rev (TrimLeft_byte (String.rev s) c).

(** [strings.Trim(s, "/")] with a one-byte cutset. *)
Definition Trim_byte (s : string) (c : ascii) : string :=
  TrimRight_byte (TrimLeft_byte s c) c.

(** [strings.TrimPrefix(s, prefix)] and [strings.TrimSuffix(s, suffix)] *)
Definition TrimPrefix (s prefix : string) : string :=
  if HasPrefix s prefix
  then String.substring (String.length prefix)
                        (String.length s - String.length prefix) s
  else s.

Definition TrimSuffix (s suffix : string) : string :=
  if HasSuffix s suffix
  then String.substring 0 (String.length s - String.length suffix) s
  else s.

(** [strings.Index(s, substr)]: index of the first occurrence, or [-1]. *)
Fixpoint Index (s substr : string) : Z :=
  if String.prefix substr s then 0
  else match s with
       | EmptyString => -1
       | String _ s' =>
           let r := Index s' substr in
           if r =? -1 then -1 else r + 1
       end.

End GoStrings.

(** ** Go's [path] package: [path.Join] and the [path.Clean] it ends with *)

Module GoPath.

(** The elements of a path between slashes, empty elements included. *)
Fixpoint split_slash_aux (cur : string) (s : string) : list string :=
  match s with
  | EmptyString => [String.rev cur]
  | String c s' =>
      if Ascii.eqb c "/"%char then String.rev cur :: split_slash_aux "" s'
      else split_slash_aux (String c cur) s'
  end.
Definition split_slash (s : string) : list string := split_slash_aux "" s.

(** One pass of [Clean]'s loop over an element; [out] is the cleaned path
    so far, innermost element first. *)
Definition clean_step (rooted : bool) (out : list string) (e : string)
  : list string :=
  if String.eqb e "" then out
  else if String.eqb e "." then out
  else if String.eqb e ".." then
    match out with
    | top :: rest =>
        if String.eqb top ".." then (if rooted then out else e :: out)
        else rest
    | [] => if rooted then out else [e]
    end
  else e :: out.

(** [path.Clean] *)
Definition Clean (p : string) : string :=
  match p with
  | EmptyString => "."
  | String c _ =>
      let rooted := Ascii.eqb c "/"%char in
      let out := rev (foldl (clean_step rooted) [] (split_slash p)) in
      let body := String.concat "/" out in
      let r := if rooted then "/" +:+ body else body in
      if String.eqb r "" then "." else r
  end.

(** [path.Join]: empty elements are ignored, the rest joined by slashes
    and cleaned; all-empty input gives the empty string. *)
Definition Join (elem : list string) : string :=
  match filter (λ e, e ≠ "") elem with
  | [] => ""
  | es => Clean (String.concat "/" es)
  end.

(** [path.Base] (and [filepath.Base] on slash-separated paths): the last
    element, trailing slashes dropped; [.] for the empty path and [/] for
    a path of slashes only. *)
Definition Base (p : string) : string :=
  if String.eqb p "" then "."
  else match last (filter (λ e, e ≠ "") (split_slash p)) with
       | Some e => e
       | None => "/"
       end.

End GoPath.

(** ** [storage.go]: states *)

(** [type State string] *)
Definition State : Type := string.

Definition StateDraft : State := "draft".
Definition StatePending : State := "pending".
Definition StateLive : State := "live".

(** [ValidState] *)
Definition ValidState (s : string) : bool :=
  if decide (s = StateDraft ∨ s = StatePending ∨ s = StateLive) then true
  else false.

(** ** [s3.go]: the storage handle and the key namer *)

(** [S3Config]; endpoint, region and credentials only reach the SDK. *)
Module S3Config.
Record t := {
  Endpoint : string;
  Region : string;
  Bucket : string;
  AccessKeyID : string;
  SecretAccessKey : string;
  Root : string;
  MaxVersions : Z;
}.
End S3Config.

(** [S3Storage]; the [s3Client] field is the bucket held in the [World]. *)
Record S3Storage := {
  bucket : string;
  root : string;
  maxVersions : Z;
}.

(** [NewS3Storage], after the SDK client has been built. *)
Definition NewS3Storage (cfg : S3Config.t) : S3Storage :=
  let root := GoStrings.Trim_byte (S3Config.Root cfg) "/"%char in
  let maxVersions := S3Config.MaxVersions cfg in
  let maxVersions := if maxVersions =? 0 then 10 else maxVersions in
  {| bucket := S3Config.Bucket cfg;
     root := root;
     maxVersions := maxVersions |}.

Definition contentKey (s : S3Storage) (tenant contentType id ext : string)
    (state : State) : string :=
  if decide (state = StateLive ∨ state = "") then
    GoPath.Join [root s; "tenants"; tenant; "content"; contentType;
                 id +:+ "." +:+ ext]
  else
    GoPath.Join [root s; "tenants"; tenant; "content"; contentType;
                 "_" +:+ state; id +:+ "." +:+ ext].

Definition contentPrefix (s : S3Storage) (tenant contentType : string)
    (state : State) : string :=
  if decide (state = StateLive ∨ state = "") then
    GoPath.Join [root s; "tenants"; tenant; "content"; contentType] +:+ "/"
  else
    GoPath.Join [root s; "tenants"; tenant; "content"; contentType;
                 "_" +:+ state] +:+ "/".

Definition historyKey (s : S3Storage) (tenant contentType id version : string)
  : string :=
  GoPath.Join [root s; "tenants"; tenant; "content"; contentType; "_history";
               id; version +:+ ".json"].

Definition historyPrefix (s : S3Storage) (tenant contentType id : string)
  : string :=
  GoPath.Join [root s; "tenants"; tenant; "content"; contentType; "_history";
               id] +:+ "/".

Definition commentKey (s : S3Storage) (tenant contentType contentID : string)
    (state : State) (id : string) : string :=
  GoPath.Join [root s; "tenants"; tenant; "content"; contentType;
               "_" +:+ state; "_comments"; contentID; id +:+ ".json"].

Definition commentPrefix (s : S3Storage) (tenant contentType contentID : string)
    (state : State) : string :=
  GoPath.Join [root s; "tenants"; tenant; "content"; contentType;
               "_" +:+ state; "_comments"; contentID] +:+ "/".

Definition globalSchemaKey (s : S3Storage) (schemaName : string) : string :=
  GoPath.Join [root s; "schemas"; schemaName +:+ ".json"].

Definition tenantSchemaKey (s : S3Storage) (tenant schemaName : string)
  : string :=
  GoPath.Join [root s; "tenants"; tenant; "schemas"; schemaName +:+ ".json"].

(** ** The object store behind the SDK client

    An in-memory S3 bucket: every key holds its versions, newest first.  On a
    versioning bucket a write stacks a new version and a plain delete stacks
    a delete marker; otherwise the key is overwritten or removed.  [faults]
    lets requests on a given key or prefix fail the way a network, auth or
    server problem would: all of them, the deletes only, or the listings
    from some moment on, so that a request can fail on a key that an
    earlier request was served on. *)

Module S3.

Inductive Error :=
| NoSuchKey
| NotFound
| NoSuchVersion
| MethodNotAllowed
| AccessDenied
| RequestTimeout
| InternalError.

(** What can go wrong on a key or prefix: every request on it fails; the
    body of a served object breaks off while it is read; writes and reads
    are served but a delete is refused; or listings under it fail from a
    given tick of the bucket's clock on. *)
Inductive Fault :=
| FailRequest (e : Error)
| FailBodyRead (e : Error)
| FailDelete (e : Error)
| FailList (since : Z) (e : Error).

Record ObjectVersion := {
  ov_VersionId : option string;
  ov_IsDeleteMarker : bool;
  ov_Body : list byte;
  ov_ContentType : option string;
  ov_Metadata : option (gmap string string);
  ov_LastModified : Z;
  ov_ETag : string;
}.

Record Bucket := {
  versioning : bool;
  objects : gmap string (list ObjectVersion);
  clock : Z;
  faults : gmap string Fault;
}.

(** [io.ReadCloser] over an object body. *)
Record ReadCloser := {
  rc_data : list byte;
  rc_err : option Error;
}.

Record PutObjectInput := {
  put_Key : string;
  put_Body : list byte;
  put_ContentLength : option Z;
  put_ContentType : option string;
  put_Metadata : option (gmap string string);
}.

Record PutObjectOutput := {
  put_VersionId : option string;
  put_ETag : option string;
}.

Record GetObjectOutput := {
  get_Body : ReadCloser;
  get_ContentType : option string;
  get_VersionId : option string;
  get_LastModified : option Z;
  get_ContentLength : option Z;
  get_ETag : option string;
  get_Metadata : option (gmap string string);
}.

(** [types.Object] of a listing. *)
Record Object := {
  obj_Key : option string;
  obj_Size : option Z;
  obj_LastModified : option Z;
  obj_ETag : option string;
}.

(** [types.ObjectVersion] of a version listing. *)
Record VersionEntry := {
  ver_Key : option string;
  ver_VersionId : option string;
  ver_IsLatest : option bool;
  ver_LastModified : option Z;
  ver_Size : option Z;
}.

(** The error some request on [resource] is set up to meet, now or later;
    [None] when every request on it is served. *)
Definition request_fault (b : Bucket) (resource : string) : option Error :=
  match faults b !! resource with
  | Some (FailRequest e) | Some (FailDelete e) | Some (FailList _ e) => Some e
  | _ => None
  end.

(** The error a PUT, GET, HEAD or COPY of [key] meets; a key that serves
    one of them serves them all. *)
Definition object_fault (b : Bucket) (key : string) : option Error :=
  match faults b !! key with
  | Some (FailRequest e) => Some e
  | _ => None
  end.

(** The error a DELETE of [key] meets. *)
Definition delete_fault (b : Bucket) (key : string) : option Error :=
  match faults b !! key with
  | Some (FailRequest e) | Some (FailDelete e) => Some e
  | _ => None
  end.

(** The error a listing under [prefix] meets at the bucket's present
    clock. *)
Definition list_fault (b : Bucket) (prefix : string) : option Error :=
  match faults b !! prefix with
  | Some (FailRequest e) => Some e
  | Some (FailList since e) => if since <=? clock b then Some e else None
  | _ => None
  end.

Definition body_fault (b : Bucket) (resource : string) : option Error :=
  match faults b !! resource with
  | Some (FailBodyRead e) => Some e
  | _ => None
  end.

Definition versions_of (b : Bucket) (key : string) : list ObjectVersion :=
  default [] (objects b !! key).

Definition set_versions (b : Bucket) (key : string)
    (vs : list ObjectVersion) (now : Z) : Bucket :=
  {| versioning := versioning b;
     objects := match vs with
                | [] => delete key (objects b)
                | _ => <[key := vs]> (objects b)
                end;
     clock := now;
     faults := faults b |}.

Definition fresh_version (b : Bucket) (now : Z) : option string :=
  if versioning b then Some ("v" +:+ pretty now) else None.

Definition PutObject (i : PutObjectInput) (b : Bucket)
  : (Error + PutObjectOutput) * Bucket :=
  match object_fault b (put_Key i) with
  | Some e => (inl e, b)
  | None =>
      let now := clock b + 1 in
      let ov := {| ov_VersionId := fresh_version b now;
                   ov_IsDeleteMarker := false;
                   ov_Body := put_Body i;
                   ov_ContentType := put_ContentType i;
                   ov_Metadata := put_Metadata i;
                   ov_LastModified := now;
                   ov_ETag := "etag-" +:+ pretty now |} in
      let vs := if versioning b then ov :: versions_of b (put_Key i)
                else [ov] in
      (inr {| put_VersionId := ov_VersionId ov;
              put_ETag := Some (ov_ETag ov) |},
       set_versions b (put_Key i) vs now)
  end.

(** The id a version goes by in requests and listings; the object of a
    bucket without versioning has the id [null]. *)
Definition shown_id (ov : ObjectVersion) : string :=
  default "null" (ov_VersionId ov).

(** The version a read addresses: the current one, or the pinned one. *)
Definition select_version (vs : list ObjectVersion)
    (versionId : option string) : option ObjectVersion :=
  match versionId with
  | None => head vs
  | Some v => head (filter (λ ov, shown_id ov = v) vs)
  end.

Definition output_of (b : Bucket) (key : string) (ov : ObjectVersion)
  : GetObjectOutput :=
  {| get_Body := {| rc_data := ov_Body ov; rc_err := body_fault b key |};
     get_ContentType := ov_ContentType ov;
     get_VersionId := ov_VersionId ov;
     get_LastModified := Some (ov_LastModified ov);
     get_ContentLength := Some (Z.of_nat (length (ov_Body ov)));
     get_ETag := Some (ov_ETag ov);
     get_Metadata := ov_Metadata ov |}.

Definition GetObject (key : string) (versionId : option string)
    (b : Bucket) : Error + GetObjectOutput :=
  match object_fault b key with
  | Some e => inl e
  | None =>
      match select_version (versions_of b key) versionId with
      | None =>
          inl (match versionId with
               | Some _ => NoSuchVersion
               | None => NoSuchKey
               end)
      | Some ov =>
          if ov_IsDeleteMarker ov
          then inl (match versionId with
                    | Some _ => MethodNotAllowed
                    | None => NoSuchKey
                    end)
          else inr (output_of b key ov)
      end
  end.

(** HEAD answers like GET without a body; absence is a bare 404. *)
Definition HeadObject (key : string) (b : Bucket)
  : Error + GetObjectOutput :=
  match object_fault b key with
  | Some e => inl e
  | None =>
      match select_version (versions_of b key) None with
      | None => inl NotFound
      | Some ov =>
          if ov_IsDeleteMarker ov then inl NotFound
          else inr (output_of b key ov)
      end
  end.

Definition delete_marker (b : Bucket) (now : Z) : ObjectVersion :=
  {| ov_VersionId := fresh_version b now;
     ov_IsDeleteMarker := true;
     ov_Body := [];
     ov_ContentType := None;
     ov_Metadata := None;
     ov_LastModified := now;
     ov_ETag := "" |}.

Definition DeleteObject (key : string) (versionId : option string)
    (b : Bucket) : (Error + unit) * Bucket :=
  match delete_fault b key with
  | Some e => (inl e, b)
  | None =>
      let now := clock b + 1 in
      let vs := versions_of b key in
      let vs' :=
        match versionId with
        | Some v => filter (λ ov, shown_id ov ≠ v) vs
        | None => if versioning b then delete_marker b now :: vs else []
        end in
      (inr (), set_versions b key vs' now)
  end.

Definition key_le (x y : string) : Prop := String.leb x y = true.
Definition entry_le {A} (x y : string * A) : Prop := key_le x.1 y.1.

#[global] Instance key_le_dec : RelDecision key_le :=
  λ x y, decide (String.leb x y = true).
#[global] Instance entry_le_dec {A} : RelDecision (@entry_le A) :=
  λ x y, decide (String.leb x.1 y.1 = true).

(** The keys under a prefix with their versions, in ascending key order. *)
Definition entries_under (prefix : string) (b : Bucket)
  : list (string * list ObjectVersion) :=
  merge_sort entry_le
    (filter (λ kv, String.prefix prefix kv.1 = true)
            (map_to_list (objects b))).

Definition is_current (kv : string * list ObjectVersion) : bool :=
  match kv.2 with
  | ov :: _ => negb (ov_IsDeleteMarker ov)
  | [] => false
  end.

Definition object_of (kv : string * list ObjectVersion) : Object :=
  match kv.2 with
  | ov :: _ =>
      {| obj_Key := Some kv.1;
         obj_Size := Some (Z.of_nat (length (ov_Body ov)));
         obj_LastModified := Some (ov_LastModified ov);
         obj_ETag := Some (ov_ETag ov) |}
  | [] => {| obj_Key := Some kv.1; obj_Size := None;
             obj_LastModified := None; obj_ETag := None |}
  end.

(** [ListObjectsV2]: the current objects under [prefix], at most
    [maxKeys] of them when a cap is given. *)
Definition ListObjectsV2 (prefix : string) (maxKeys : option Z)
    (b : Bucket) : Error + list Object :=
  match list_fault b prefix with
  | Some e => inl e
  | None =>
      let all := object_of <$> filter (λ kv, is_current kv = true)
                                      (entries_under prefix b) in
      inr (match maxKeys with
           | Some n => take (Z.to_nat n) all
           | None => all
           end)
  end.

Fixpoint version_entries (key : string) (latest : bool)
    (vs : list ObjectVersion) : list VersionEntry :=
  match vs with
  | [] => []
  | ov :: rest =>
      let tl := version_entries key false rest in
      if ov_IsDeleteMarker ov then tl
      else {| ver_Key := Some key;
              ver_VersionId := Some (shown_id ov);
              ver_IsLatest := Some latest;
              ver_LastModified := Some (ov_LastModified ov);
              ver_Size := Some (Z.of_nat (length (ov_Body ov))) |} :: tl
  end.

(** [ListObjectVersions].Versions: keys ascending, each key newest first;
    delete markers are reported separately and left out here. *)
Definition ListObjectVersions (prefix : string) (b : Bucket)
  : Error + list VersionEntry :=
  match list_fault b prefix with
  | Some e => inl e
  | None =>
      inr (concat ((λ kv, version_entries kv.1 true kv.2)
                     <$> entries_under prefix b))
  end.

(** *** Server-side copy *)

Inductive MetadataDirective :=
| COPY
| REPLACE.

Record CopyObjectInput := {
  copy_CopySource : string;
  copy_Key : string;
  copy_Metadata : option (gmap string string);
  copy_MetadataDirective : MetadataDirective;
}.

Record CopyObjectOutput := {
  copy_VersionId : option string;
}.

(** The part of [s] before the first [c] and the part after it. *)
Fixpoint split_first (c : ascii) (s : string) : option (string * string) :=
  match s with
  | EmptyString => None
  | String a s' =>
      if Ascii.eqb a c then Some (EmptyString, s')
      else match split_first c s' with
           | Some (before, after) => Some (String a before, after)
           | None => None
           end
  end.

(** A copy source [key?versionId=v] cut at the first [?versionId=]. *)
Fixpoint split_version (s : string) : string * option string :=
  if String.prefix "?versionId=" s
  then (EmptyString, Some (String.substring 11 (String.length s - 11) s))
  else match s with
       | EmptyString => (EmptyString, None)
       | String a s' =>
           let (key, v) := split_version s' in (String a key, v)
       end.

(** The copy source [bucket/key] or [bucket/key?versionId=v] as the
    service reads it: bucket, key and pinned version. *)
Definition parse_CopySource (src : string)
  : option (string * string * option string) :=
  match split_first "/"%char src with
  | None => None
  | Some (bkt, rest) =>
      let (key, v) := split_version rest in Some (bkt, key, v)
  end.

(** [CopyObject]: the addressed version of the source becomes a new
    current version of the target key.  Under [COPY] the content type and
    the metadata travel with the object; under [REPLACE] both come from
    the request. *)
Definition CopyObject (i : CopyObjectInput) (b : Bucket)
  : (Error + CopyObjectOutput) * Bucket :=
  match object_fault b (copy_Key i) with
  | Some e => (inl e, b)
  | None =>
      match parse_CopySource (copy_CopySource i) with
      | None => (inl NoSuchKey, b)
      | Some (_, srcKey, v) =>
          match select_version (versions_of b srcKey) v with
          | None =>
              (inl (match v with
                    | Some _ => NoSuchVersion
                    | None => NoSuchKey
                    end), b)
          | Some src =>
              if ov_IsDeleteMarker src then (inl MethodNotAllowed, b)
              else
                let now := clock b + 1 in
                let ov :=
                  {| ov_VersionId := fresh_version b now;
                     ov_IsDeleteMarker := false;
                     ov_Body := ov_Body src;
                     ov_ContentType :=
                       match copy_MetadataDirective i with
                       | COPY => ov_ContentType src
                       | REPLACE => None
                       end;
                     ov_Metadata :=
                       match copy_MetadataDirective i with
                       | COPY => ov_Metadata src
                       | REPLACE => copy_Metadata i
                       end;
                     ov_LastModified := now;
                     ov_ETag := ov_ETag src |} in
                let vs := if versioning b
                          then ov :: versions_of b (copy_Key i)
                          else [ov] in
                (inr {| copy_VersionId := ov_VersionId ov |},
                 set_versions b (copy_Key i) vs now)
          end
      end
  end.

(** The current object of a key: its newest version unless that is a
    delete marker. *)
Definition current (b : Bucket) (key : string) : option ObjectVersion :=
  match versions_of b key with
  | ov :: _ => if ov_IsDeleteMarker ov then None else Some ov
  | [] => None
  end.

(** The versions of a key that hold an object, newest first. *)
Definition object_versions (b : Bucket) (key : string)
  : list ObjectVersion :=
  filter (λ ov, ov_IsDeleteMarker ov = false) (versions_of b key).

End S3.

(** ** [storage.go]: shared types *)

Module ContentItem.
Record t := {
  Key : string;
  Content : list byte;
  ContentType : string;
  VersionID : string;
  LastModified : Z;
  Size : Z;
  ETag : string;
  Metadata : option (gmap string string);
}.
End ContentItem.

Module ContentStream.
Record t := {
  Key : string;
  Body : S3.ReadCloser;
  ContentType : string;
  VersionID : string;
  LastModified : Z;
  Size : Z;
  ETag : string;
  Metadata : option (gmap string string);
}.
End ContentStream.

Module ContentVersion.
Record t := {
  VersionID : string;
  LastModified : Z;
  Size : Z;
  IsLatest : bool;
}.
End ContentVersion.

Module Schema.
Record t := {
  Name : string;
  Content : list byte;
  IsGlobal : bool;
}.
End Schema.

Module Comment.
Record t := {
  ID : string;
  Author : string;
  Message : string;
  CreatedAt : Z;
  Resolved : bool;
  ResolvedBy : string;
  ResolvedAt : Z;
}.
End Comment.

(** ** Errors, the log and the world the methods run in *)

(** A Go [error]: an SDK error, or the result of [fmt.Errorf] with or
    without a wrapped cause ([%w]). *)
Inductive Error :=
| SDK (e : S3.Error)
| Errorf (msg : string)
| Wrapf (msg : string) (cause : Error).

(** The [(value, error)] pair a method returns. *)
Definition Result (A : Type) : Type := Error + A.

Inductive LogLine :=
| LogError (msg : string) (err : Error)
| LogDebug (msg : string).

(** A goroutine started with [go]. *)
Inductive Goroutine :=
| go_pruneVersions (s : S3Storage) (key : string).

Record World := {
  s3Client : S3.Bucket;
  goroutines : list Goroutine;
  logs : list LogLine;
}.

Definition M (A : Type) : Type := World → A * World.

Definition ret {A} (a : A) : M A := λ w, (a, w).

Definition bind {A B} (m : M A) (k : A → M B) : M B :=
  λ w, let (a, w') := m w in k a w'.

Notation "'let*' x ':=' m 'in' k" := (bind m (λ x, k))
  (at level 10, x name, m at level 100, k at level 200, only parsing).

Definition log_Error (msg : string) (err : Error) : M unit :=
  λ w, ((), {| s3Client := s3Client w; goroutines := goroutines w;
               logs := logs w ++ [LogError msg err] |}).

Definition log_Debug (msg : string) : M unit :=
  λ w, ((), {| s3Client := s3Client w; goroutines := goroutines w;
               logs := logs w ++ [LogDebug msg] |}).

(** [go f(...)]: the call is queued and the caller goes on. *)
Definition spawn (g : Goroutine) : M unit :=
  λ w, ((), {| s3Client := s3Client w; goroutines := goroutines w ++ [g];
               logs := logs w |}).

Definition with_bucket (w : World) (b : S3.Bucket) : World :=
  {| s3Client := b; goroutines := goroutines w; logs := logs w |}.

(** The SDK calls, as the client of the world performs them. *)
Definition s3_PutObject (i : S3.PutObjectInput)
  : M (S3.Error + S3.PutObjectOutput) :=
  λ w, let (r, b) := S3.PutObject i (s3Client w) in (r, with_bucket w b).

Definition s3_GetObject (key : string) (versionId : option string)
  : M (S3.Error + S3.GetObjectOutput) :=
  λ w, (S3.GetObject key versionId (s3Client w), w).

Definition s3_HeadObject (key : string)
  : M (S3.Error + S3.GetObjectOutput) :=
  λ w, (S3.HeadObject key (s3Client w), w).

Definition s3_DeleteObject (key : string) (versionId : option string)
  : M (S3.Error + unit) :=
  λ w, let (r, b) := S3.DeleteObject key versionId (s3Client w) in
       (r, with_bucket w b).

Definition s3_ListObjectsV2 (prefix : string) (maxKeys : option Z)
  : M (S3.Error + list S3.Object) :=
  λ w, (S3.ListObjectsV2 prefix maxKeys (s3Client w), w).

Definition s3_ListObjectVersions (prefix : string)
  : M (S3.Error + list S3.VersionEntry) :=
  λ w, (S3.ListObjectVersions prefix (s3Client w), w).

(** [io.ReadAll] *)
Definition io_ReadAll (r : S3.ReadCloser) : S3.Error + list byte :=
  match S3.rc_err r with
  | Some e => inl e
  | None => inr (S3.rc_data r)
  end.

(** [aws.String(v)] for an optional request field that the code sets only
    when the string is not empty. *)
Definition nonempty (v : string) : option string :=
  if decide (v = "") then None else Some v.

(** [state = StateLive] when the caller passed the empty state. *)
Definition default_state (state : State) : State :=
  if decide (state = "") then StateLive else state.

(** ** [s3.go]: content operations *)

Definition Put (s : S3Storage) (tenant contentType id ext : string)
    (content : list byte) (mimeType : string) (state : State)
  : M (Result ContentItem.t) :=
  let state := default_state state in
  let key := contentKey s tenant contentType id ext state in
  let input := {| S3.put_Key := key;
                  S3.put_Body := content;
                  S3.put_ContentLength := None;
                  S3.put_ContentType := Some mimeType;
                  S3.put_Metadata := None |} in
  let* r := s3_PutObject input in
  match r with
  | inl err => ret (inl (Wrapf "failed to put object" (SDK err)))
  | inr result =>
      let versionID := default "" (S3.put_VersionId result) in
      ret (inr {| ContentItem.Key := key;
                  ContentItem.Content := content;
                  ContentItem.ContentType := mimeType;
                  ContentItem.VersionID := versionID;
                  ContentItem.LastModified := 0;
                  ContentItem.Size := 0;
                  ContentItem.ETag := "";
                  ContentItem.Metadata := None |})
  end.

Definition metadata_len (metadata : option (gmap string string)) : Z :=
  match metadata with
  | Some m => Z.of_nat (size m)
  | None => 0
  end.

Definition PutStream (s : S3Storage) (tenant contentType id ext : string)
    (body : list byte) (contentLength : Z) (mimeType : string)
    (state : State) (metadata : option (gmap string string))
  : M (Result ContentItem.t) :=
  let state := default_state state in
  let key := contentKey s tenant contentType id ext state in
  let input := {| S3.put_Key := key;
                  S3.put_Body := body;
                  S3.put_ContentLength := Some contentLength;
                  S3.put_ContentType := Some mimeType;
                  S3.put_Metadata :=
                    if 0 <? metadata_len metadata then metadata else None |} in
  let* r := s3_PutObject input in
  match r with
  | inl err => ret (inl (Wrapf "failed to put object" (SDK err)))
  | inr result =>
      let versionID := default "" (S3.put_VersionId result) in
      let* _ := (if bool_decide (state = StateLive) && (0 <? maxVersions s)
            then spawn (go_pruneVersions s key)
            else ret ()) in
      ret (inr {| ContentItem.Key := key;
                  ContentItem.Content := [];
                  ContentItem.ContentType := mimeType;
                  ContentItem.VersionID := versionID;
                  ContentItem.LastModified := 0;
                  ContentItem.Size := contentLength;
                  ContentItem.ETag := "";
                  ContentItem.Metadata := metadata |})
  end.

(** How a goroutine ends. *)
Inductive Outcome :=
| Returned
| Panicked (msg : string).

(** The deletion loop of [pruneVersions]. *)
Fixpoint prune_delete (key : string) (toDelete : list S3.VersionEntry)
  : M unit :=
  match toDelete with
  | [] => ret ()
  | v :: rest =>
      let* r := s3_DeleteObject key (S3.ver_VersionId v) in
      let* _ := match r with
           | inl err =>
               log_Error ("Failed to delete old version "
                            +:+ default "" (S3.ver_VersionId v)) (SDK err)
           | inr _ =>
               log_Debug ("Pruned old version "
                            +:+ default "" (S3.ver_VersionId v)
                            +:+ " of " +:+ key)
           end in
      prune_delete key rest
  end.

Definition pruneVersions (s : S3Storage) (key : string) : M Outcome :=
  let* r := s3_ListObjectVersions key in
  match r with
  | inl err =>
      let* _ := log_Error "Failed to list versions for pruning" (SDK err) in
      ret Returned
  | inr versions =>
      let objectVersions :=
        filter (λ v, default "" (S3.ver_Key v) = key) versions in
      if maxVersions s <? Z.of_nat (length objectVersions) then
        if maxVersions s <? 0 then
          ret (Panicked "slice bounds out of range")
        else
          let toDelete := drop (Z.to_nat (maxVersions s)) objectVersions in
          let* _ := prune_delete key toDelete in
          ret Returned
      else ret Returned
  end.

Definition run_goroutine (g : Goroutine) : M Outcome :=
  match g with
  | go_pruneVersions s key => pruneVersions s key
  end.

(** Let every queued goroutine run to its end, oldest first. *)
Definition quiesce (w : World) : World :=
  foldl (λ w g, (run_goroutine g w).2)
        {| s3Client := s3Client w; goroutines := []; logs := logs w |}
        (goroutines w).

Definition item_of_output (key : string) (content : list byte)
    (result : S3.GetObjectOutput) : ContentItem.t :=
  {| ContentItem.Key := key;
     ContentItem.Content := content;
     ContentItem.ContentType :=
       default "application/octet-stream" (S3.get_ContentType result);
     ContentItem.VersionID := default "" (S3.get_VersionId result);
     ContentItem.LastModified := default 0 (S3.get_LastModified result);
     ContentItem.Size := default 0 (S3.get_ContentLength result);
     ContentItem.ETag := default "" (S3.get_ETag result);
     ContentItem.Metadata := None |}.

Definition getByKey (s : S3Storage) (key : string) (versionID : string)
  : M (Result ContentItem.t) :=
  let* r := s3_GetObject key (nonempty versionID) in
  match r with
  | inl err => ret (inl (Wrapf "failed to get object" (SDK err)))
  | inr result =>
      match io_ReadAll (S3.get_Body result) with
      | inl err => ret (inl (Wrapf "failed to read object body" (SDK err)))
      | inr content => ret (inr (item_of_output key content result))
      end
  end.

Definition getStreamByKey (s : S3Storage) (key : string) (versionID : string)
  : M (Result ContentStream.t) :=
  let* r := s3_GetObject key (nonempty versionID) in
  match r with
  | inl err => ret (inl (Wrapf "failed to get object" (SDK err)))
  | inr result =>
      ret (inr {| ContentStream.Key := key;
                  ContentStream.Body := S3.get_Body result;
                  ContentStream.ContentType :=
                    default "application/octet-stream"
                            (S3.get_ContentType result);
                  ContentStream.VersionID :=
                    default "" (S3.get_VersionId result);
                  ContentStream.LastModified :=
                    default 0 (S3.get_LastModified result);
                  ContentStream.Size :=
                    default 0 (S3.get_ContentLength result);
                  ContentStream.ETag := default "" (S3.get_ETag result);
                  ContentStream.Metadata := S3.get_Metadata result |})
  end.

Definition Get (s : S3Storage) (tenant contentType id ext : string)
    (state : State) : M (Result ContentItem.t) :=
  let state := default_state state in
  let key := contentKey s tenant contentType id ext state in
  getByKey s key "".

Definition GetStream (s : S3Storage) (tenant contentType id ext : string)
    (state : State) : M (Result ContentStream.t) :=
  let state := default_state state in
  let key := contentKey s tenant contentType id ext state in
  getStreamByKey s key "".

(** The loop of [FindContentStream] that picks a key among the listed
    candidates: the first key is kept unless a key not ending in [.json]
    comes up, at which point the loop breaks. *)
Fixpoint pick_bestKey (bestKey : string) (contents : list S3.Object)
  : string :=
  match contents with
  | [] => bestKey
  | obj :: rest =>
      let key := default "" (S3.obj_Key obj) in
      let bestKey := if decide (bestKey = "") then key else bestKey in
      if negb (GoStrings.HasSuffix key ".json") then key
      else pick_bestKey bestKey rest
  end.

(** The tail of [FindContentStream], from the prefix listing on. *)
Definition find_by_listing (s : S3Storage) (tenant contentType id : string)
    (state : State) : M (Result ContentStream.t) :=
  let prefix := contentPrefix s tenant contentType state +:+ id +:+ "." in
  let* r := s3_ListObjectsV2 prefix (Some 10) in
  match r with
  | inl err => ret (inl (Wrapf "failed to list objects" (SDK err)))
  | inr contents =>
      if 0 <? Z.of_nat (length contents) then
        getStreamByKey s (pick_bestKey "" contents) ""
      else ret (inl (Errorf ("content '" +:+ id +:+ "' not found")))
  end.

Definition FindContentStream (s : S3Storage)
    (tenant contentType id extHint : string) (state : State)
  : M (Result ContentStream.t) :=
  let state := default_state state in
  let idx := GoStrings.LastIndex id "." in
  if negb (idx =? -1) && (idx <? GoStrings.len id - 1) then
    let ext := GoStrings.slice_from id (idx + 1) in
    let baseID := GoStrings.slice_to id idx in
    let key := contentKey s tenant contentType baseID ext state in
    getStreamByKey s key ""
  else if negb (String.eqb extHint "") then
    let key := contentKey s tenant contentType id extHint state in
    let* r := getStreamByKey s key "" in
    match r with
    | inr stream => ret (inr stream)
    | inl _ => find_by_listing s tenant contentType id state
    end
  else find_by_listing s tenant contentType id state.

Definition Delete (s : S3Storage) (tenant contentType id ext : string)
    (state : State) : M (Result unit) :=
  let state := default_state state in
  let key := contentKey s tenant contentType id ext state in
  let* r := s3_DeleteObject key None in
  match r with
  | inl err => ret (inl (Wrapf "failed to delete object" (SDK err)))
  | inr _ => ret (inr ())
  end.

(** The body of the loop of [List] over one listed object: [None] when the
    object is skipped. *)
Definition list_item (state : State) (obj : S3.Object)
  : option ContentItem.t :=
  let key := default "" (S3.obj_Key obj) in
  if bool_decide (state = StateLive)
     && (GoStrings.Contains key "/_draft/"
         || GoStrings.Contains key "/_pending/")
  then None
  else Some {| ContentItem.Key := key;
               ContentItem.Content := [];
               ContentItem.ContentType := "";
               ContentItem.VersionID := "";
               ContentItem.LastModified :=
                 default 0 (S3.obj_LastModified obj);
               ContentItem.Size := default 0 (S3.obj_Size obj);
               ContentItem.ETag := default "" (S3.obj_ETag obj);
               ContentItem.Metadata := None |}.

(** [List]; the paginator's pages arrive as one listing. *)
Definition List (s : S3Storage) (tenant contentType : string) (state : State)
  : M (Result (list ContentItem.t)) :=
  let state := default_state state in
  let prefix := contentPrefix s tenant contentType state in
  let* r := s3_ListObjectsV2 prefix None in
  match r with
  | inl err => ret (inl (Wrapf "failed to list objects" (SDK err)))
  | inr contents => ret (inr (omap (list_item state) contents))
  end.

Definition version_of_entry (v : S3.VersionEntry) : ContentVersion.t :=
  {| ContentVersion.VersionID := default "" (S3.ver_VersionId v);
     ContentVersion.LastModified := default 0 (S3.ver_LastModified v);
     ContentVersion.Size := default 0 (S3.ver_Size v);
     ContentVersion.IsLatest := default false (S3.ver_IsLatest v) |}.

Definition ListVersions (s : S3Storage) (tenant contentType id ext : string)
  : M (Result (list ContentVersion.t)) :=
  let key := contentKey s tenant contentType id ext StateLive in
  let* r := s3_ListObjectVersions key in
  match r with
  | inl err => ret (inl (Wrapf "failed to list versions" (SDK err)))
  | inr versions =>
      ret (inr (version_of_entry
                  <$> filter (λ v, S3.ver_Key v = Some key) versions))
  end.

Definition Exists (s : S3Storage) (tenant contentType id ext : string)
    (state : State) : M (Result bool) :=
  let state := default_state state in
  let key := contentKey s tenant contentType id ext state in
  let* r := s3_HeadObject key in
  match r with
  | inl _ => ret (inr false)
  | inr _ => ret (inr true)
  end.

(** ** [s3.go]: schema operations *)

Definition GetSchema (s : S3Storage) (tenant schemaName : string)
  : M (Result Schema.t) :=
  let tenantKey := tenantSchemaKey s tenant schemaName in
  let* r := getByKey s tenantKey "" in
  match r with
  | inr item =>
      ret (inr {| Schema.Name := schemaName;
                  Schema.Content := ContentItem.Content item;
                  Schema.IsGlobal := false |})
  | inl _ =>
      let globalKey := globalSchemaKey s schemaName in
      let* r := getByKey s globalKey "" in
      match r with
      | inl _ => ret (inl (Errorf ("schema not found: " +:+ schemaName)))
      | inr item =>
          ret (inr {| Schema.Name := schemaName;
                      Schema.Content := ContentItem.Content item;
                      Schema.IsGlobal := true |})
      end
  end.

Definition put_json (key : string) (data : list byte)
  : M (S3.Error + S3.PutObjectOutput) :=
  s3_PutObject {| S3.put_Key := key;
                  S3.put_Body := data;
                  S3.put_ContentLength := None;
                  S3.put_ContentType := Some "application/json";
                  S3.put_Metadata := None |}.

Definition PutGlobalSchema (s : S3Storage) (schemaName : string)
    (content : list byte) : M (Result unit) :=
  let key := globalSchemaKey s schemaName in
  let* r := put_json key content in
  match r with
  | inl err => ret (inl (Wrapf "failed to put global schema" (SDK err)))
  | inr _ => ret (inr ())
  end.

Definition PutTenantSchema (s : S3Storage) (tenant schemaName : string)
    (content : list byte) : M (Result unit) :=
  let key := tenantSchemaKey s tenant schemaName in
  let* r := put_json key content in
  match r with
  | inl err => ret (inl (Wrapf "failed to put tenant schema" (SDK err)))
  | inr _ => ret (inr ())
  end.

Definition SchemaExists (s : S3Storage) (tenant schemaName : string)
  : M (Result bool) :=
  let* r := GetSchema s tenant schemaName in
  match r with
  | inl _ => ret (inr false)
  | inr _ => ret (inr true)
  end.

(** ** [s3.go]: comment operations and the workflow transition

    [encoding/json] is outside the repository: the methods below take the
    codec of [Comment] as the class [CommentJSON]. *)

Class CommentJSON := {
  json_Marshal : Comment.t → Error + list byte;
  json_Unmarshal : list byte → option Comment.t;
}.

Section Workflow.
Context `{CommentJSON}.

Definition PutComment (s : S3Storage) (tenant contentType contentID : string)
    (state : State) (comment : Comment.t) : M (Result unit) :=
  if decide (state = StateLive) then
    ret (inl (Errorf "comments are only allowed on draft or pending content"))
  else
    let key := commentKey s tenant contentType contentID state
                          (Comment.ID comment) in
    match json_Marshal comment with
    | inl err => ret (inl (Wrapf "failed to marshal comment" err))
    | inr data =>
        let* r := put_json key data in
        match r with
        | inl err => ret (inl (Wrapf "failed to put comment" (SDK err)))
        | inr _ => ret (inr ())
        end
    end.

(** The loop of [ListComments] over the listed objects; an object that
    cannot be read or decoded is skipped. *)
Fixpoint list_comments_loop (s : S3Storage) (contents : list S3.Object)
  : M (list Comment.t) :=
  match contents with
  | [] => ret []
  | obj :: rest =>
      match S3.obj_Key obj with
      | None => list_comments_loop s rest
      | Some key =>
          let* r := getByKey s key "" in
          match r with
          | inl _ => list_comments_loop s rest
          | inr item =>
              match json_Unmarshal (ContentItem.Content item) with
              | None => list_comments_loop s rest
              | Some comment =>
                  let* comments := list_comments_loop s rest in
                  ret (comment :: comments)
              end
          end
      end
  end.

Definition ListComments (s : S3Storage)
    (tenant contentType contentID : string) (state : State)
  : M (Result (list Comment.t)) :=
  let prefix := commentPrefix s tenant contentType contentID state in
  let* r := s3_ListObjectsV2 prefix None in
  match r with
  | inl err => ret (inl (Wrapf "failed to list comments" (SDK err)))
  | inr contents =>
      let* comments := list_comments_loop s contents in
      ret (inr comments)
  end.

Definition DeleteComment (s : S3Storage)
    (tenant contentType contentID : string) (state : State) (id : string)
  : M (Result unit) :=
  let key := commentKey s tenant contentType contentID state id in
  let* r := s3_DeleteObject key None in
  match r with
  | inl err => ret (inl (Wrapf "failed to delete comment" (SDK err)))
  | inr _ => ret (inr ())
  end.

Fixpoint delete_comments_loop (s : S3Storage)
    (tenant contentType contentID : string) (state : State)
    (comments : list Comment.t) : M unit :=
  match comments with
  | [] => ret ()
  | comment :: rest =>
      let* r := DeleteComment s tenant contentType contentID state
                              (Comment.ID comment) in
      let* _ := match r with
                | inl err =>
                    log_Error ("Failed to delete comment "
                                 +:+ Comment.ID comment) err
                | inr _ => ret ()
                end in
      delete_comments_loop s tenant contentType contentID state rest
  end.

Definition DeleteAllComments (s : S3Storage)
    (tenant contentType contentID : string) (state : State)
  : M (Result unit) :=
  let* r := ListComments s tenant contentType contentID state in
  match r with
  | inl err => ret (inl err)
  | inr comments =>
      let* _ := delete_comments_loop s tenant contentType contentID state
                                     comments in
      ret (inr ())
  end.

(** The loop of [HasUnresolvedComments]. *)
Fixpoint any_unresolved (comments : list Comment.t) : bool :=
  match comments with
  | [] => false
  | comment :: rest =>
      if negb (Comment.Resolved comment) then true else any_unresolved rest
  end.

Definition HasUnresolvedComments (s : S3Storage)
    (tenant contentType contentID : string) (state : State)
  : M (Result bool) :=
  let* r := ListComments s tenant contentType contentID state in
  match r with
  | inl err => ret (inl err)
  | inr comments => ret (inr (any_unresolved comments))
  end.

(** The part of [Transition] after the comment gate. *)
Definition transition_move (s : S3Storage)
    (tenant contentType id ext : string) (fromState toState : State)
  : M (Result ContentItem.t) :=
  let* r := Get s tenant contentType id ext fromState in
  match r with
  | inl err =>
      ret (inl (Wrapf ("failed to get content from " +:+ fromState
                         +:+ " state") err))
  | inr sourceItem =>
      let* r := Put s tenant contentType id ext
                    (ContentItem.Content sourceItem)
                    (ContentItem.ContentType sourceItem) toState in
      match r with
      | inl err =>
          ret (inl (Wrapf ("failed to put content to " +:+ toState
                             +:+ " state") err))
      | inr targetItem =>
          let* r := Delete s tenant contentType id ext fromState in
          let* _ := match r with
                    | inl err =>
                        log_Error ("Failed to delete content from "
                                     +:+ fromState +:+ " state") err
                    | inr _ => ret ()
                    end in
          let* _ :=
            if negb (bool_decide (fromState = StateLive)) then
              let* r := DeleteAllComments s tenant contentType id
                                          fromState in
              match r with
              | inl err =>
                  log_Error ("Failed to delete comments from "
                               +:+ fromState +:+ " state") err
              | inr _ => ret ()
              end
            else ret () in
          ret (inr targetItem)
      end
  end.

Definition Transition (s : S3Storage) (tenant contentType id ext : string)
    (fromState toState : State) : M (Result ContentItem.t) :=
  if decide (fromState = toState) then
    ret (inl (Errorf "source and target states are the same"))
  else if negb (bool_decide (fromState = StateLive)) then
    let* r := HasUnresolvedComments s tenant contentType id fromState in
    match r with
    | inl err => ret (inl (Wrapf "failed to check comments" err))
    | inr hasUnresolved =>
        if hasUnresolved then
          ret (inl (Errorf ("cannot transition: unresolved comments on "
                              +:+ fromState +:+ " content")))
        else transition_move s tenant contentType id ext fromState toState
    end
  else transition_move s tenant contentType id ext fromState toState.

End Workflow.

(** ** Error kinds of the workflow, as the messages the code builds *)

Definition InvalidTransition : Error :=
  Errorf "source and target states are the same".

Definition Gated (fromState : State) : Error :=
  Errorf ("cannot transition: unresolved comments on "
            +:+ fromState +:+ " content").

Definition ContentNotFound (id : string) : Error :=
  Errorf ("content '" +:+ id +:+ "' not found").

Definition SchemaNotFound (schemaName : string) : Error :=
  Errorf ("schema not found: " +:+ schemaName).

(** The four edges the workflow documents. *)
Definition permitted_edge (fromState toState : State) : Prop :=
  (fromState = StateDraft ∧ toState = StatePending)
  ∨ (fromState = StateDraft ∧ toState = StateLive)
  ∨ (fromState = StatePending ∧ toState = StateLive)
  ∨ (fromState = StatePending ∧ toState = StateDraft).

(** ** Comments as the bucket holds them *)

(** [stored_comment s tenant contentType contentID state b c]: some
    current object of [b] under the comment prefix of the item in [state]
    decodes to the comment [c]. *)
Definition stored_comment `{CommentJSON} (s : S3Storage)
    (tenant contentType contentID : string) (state : State)
    (b : S3.Bucket) (c : Comment.t) : Prop :=
  ∃ key ov older,
    String.prefix (commentPrefix s tenant contentType contentID state) key
      = true
    ∧ S3.objects b !! key = Some (ov :: older)
    ∧ S3.ov_IsDeleteMarker ov = false
    ∧ json_Unmarshal (S3.ov_Body ov) = Some c.

(** ** Sequences of live writes *)

(** One write of live content through either entry point. *)
Inductive LiveWrite :=
| ViaPut (tenant contentType id ext : string) (content : list byte)
         (mimeType : string)
| ViaPutStream (tenant contentType id ext : string) (body : list byte)
               (contentLength : Z) (mimeType : string)
               (metadata : option (gmap string string)).

Definition live_write (s : S3Storage) (wr : LiveWrite)
  : M (Result ContentItem.t) :=
  match wr with
  | ViaPut tenant contentType id ext content mimeType =>
      Put s tenant contentType id ext content mimeType StateLive
  | ViaPutStream tenant contentType id ext body contentLength mimeType
                 metadata =>
      PutStream s tenant contentType id ext body contentLength mimeType
                StateLive metadata
  end.

Fixpoint live_writes (s : S3Storage) (wrs : list LiveWrite) : M unit :=
  match wrs with
  | [] => ret ()
  | wr :: rest =>
      let* _ := live_write s wr in
      live_writes s rest
  end.

(** ** Worlds and a codec to run examples on *)

Definition empty_bucket (versioned : bool) : S3.Bucket :=
  {| S3.versioning := versioned; S3.objects := ∅; S3.clock := 0;
     S3.faults := ∅ |}.

Definition new_world (b : S3.Bucket) : World :=
  {| s3Client := b; goroutines := []; logs := [] |}.

Definition with_fault (b : S3.Bucket) (resource : string) (f : S3.Fault)
  : S3.Bucket :=
  {| S3.versioning := S3.versioning b; S3.objects := S3.objects b;
     S3.clock := S3.clock b; S3.faults := <[resource := f]> (S3.faults b) |}.

(** A line codec for comments used by the examples: the first byte tells
    whether the comment is resolved, the rest is its id. *)
Definition example_marshal (c : Comment.t) : Error + list byte :=
  inr (String.list_byte_of_string
         ((if Comment.Resolved c then "R" else "U") +:+ Comment.ID c)).

Definition example_unmarshal (data : list byte) : option Comment.t :=
  match String.string_of_list_byte data with
  | String tag id =>
      if Ascii.eqb tag "R"%char then
        Some {| Comment.ID := id; Comment.Author := ""; Comment.Message := "";
                Comment.CreatedAt := 0; Comment.Resolved := true;
                Comment.ResolvedBy := ""; Comment.ResolvedAt := 0 |}
      else if Ascii.eqb tag "U"%char then
        Some {| Comment.ID := id; Comment.Author := ""; Comment.Message := "";
                Comment.CreatedAt := 0; Comment.Resolved := false;
                Comment.ResolvedBy := ""; Comment.ResolvedAt := 0 |}
      else None
  | EmptyString => None
  end.

Definition example_codec : CommentJSON :=
  {| json_Marshal := example_marshal; json_Unmarshal := example_unmarshal |}.

Definition dev : S3Storage :=
  {| bucket := "velocity"; root := "development"; maxVersions := 2 |}.

Definition bytes (s : string) : list byte := String.list_byte_of_string s.

(** The [PutObject] request a live write sends. *)
Definition live_write_input (s : S3Storage) (wr : LiveWrite)
  : S3.PutObjectInput :=
  match wr with
  | ViaPut tenant contentType id ext content mimeType =>
      {| S3.put_Key := contentKey s tenant contentType id ext StateLive;
         S3.put_Body := content;
         S3.put_ContentLength := None;
         S3.put_ContentType := Some mimeType;
         S3.put_Metadata := None |}
  | ViaPutStream tenant contentType id ext body contentLength mimeType
                 metadata =>
      {| S3.put_Key := contentKey s tenant contentType id ext StateLive;
         S3.put_Body := body;
         S3.put_ContentLength := Some contentLength;
         S3.put_ContentType := Some mimeType;
         S3.put_Metadata :=
           if 0 <? metadata_len metadata then metadata else None |}
  end.

(** A versioning bucket holding [hello.json] live. *)
Definition world_live : World :=
  (Put dev "demo" "articles" "hello" "json" (bytes "{}") "application/json"
       StateLive (new_world (empty_bucket true))).2.

(** A draft of [hello.json] with one unresolved comment on it. *)
Definition world_draft : World :=
  (Put dev "demo" "articles" "hello" "json" (bytes "{}") "application/json"
       StateDraft (new_world (empty_bucket true))).2.

Definition fix_it : Comment.t :=
  {| Comment.ID := "c1"; Comment.Author := ""; Comment.Message := "";
     Comment.CreatedAt := 0; Comment.Resolved := false;
     Comment.ResolvedBy := ""; Comment.ResolvedAt := 0 |}.

Definition world_commented : World :=
  (PutComment (H := example_codec) dev "demo" "articles" "hello" StateDraft
              fix_it world_draft).2.

(** Three live writes of the same item through each entry point. *)
Definition three_puts : World :=
  (live_writes dev
     [ViaPut "demo" "articles" "hello" "json" (bytes "a") "text/plain";
      ViaPut "demo" "articles" "hello" "json" (bytes "b") "text/plain";
      ViaPut "demo" "articles" "hello" "json" (bytes "c") "text/plain"]
     (new_world (empty_bucket true))).2.

Definition three_streams : World :=
  (live_writes dev
     [ViaPutStream "demo" "articles" "hello" "json" (bytes "a") 1
                   "text/plain" None;
      ViaPutStream "demo" "articles" "hello" "json" (bytes "b") 1
                   "text/plain" None;
      ViaPutStream "demo" "articles" "hello" "json" (bytes "c") 1
                   "text/plain" None]
     (new_world (empty_bucket true))).2.

(** The version ids [ListVersions] reports for [hello.json]. *)
Definition hello_versions (s : S3Storage) (w : World) : list string :=
  match (ListVersions s "demo" "articles" "hello" "json" w).1 with
  | inr versions => ContentVersion.VersionID <$> versions
  | inl _ => []
  end.

Definition config (maxVer : Z) : S3Config.t :=
  {| S3Config.Endpoint := "s3.wasabisys.com"; S3Config.Region := "us-east-1";
     S3Config.Bucket := "velocity"; S3Config.AccessKeyID := "";
     S3Config.SecretAccessKey := ""; S3Config.Root := "/development/";
     S3Config.MaxVersions := maxVer |}.

(** Eleven streamed live writes of one item under a given configuration. *)
Definition eleven_streams (cfg : S3Config.t) : World :=
  (live_writes (NewS3Storage cfg)
     (replicate 11 (ViaPutStream "demo" "articles" "hello" "json"
                                 (bytes "{}") 2 "application/json" None))
     (new_world (empty_bucket true))).2.

(** After a publish: [hello.json] is live and its history record sits
    under [_history/]; another item waits as a draft with a comment. *)
Definition world_published : World :=
  let w := world_live in
  let w := (put_json (historyKey dev "demo" "articles" "hello" "v1")
                     (bytes "{}") w).2 in
  let w := (Put dev "demo" "articles" "next" "json" (bytes "{}")
                "application/json" StateDraft w).2 in
  (PutComment (H := example_codec) dev "demo" "articles" "next" StateDraft
              fix_it w).2.

(** The payload of the item a read returned. *)
Definition content_of (r : Result ContentItem.t) : option (list byte) :=
  match r with
  | inr item => Some (ContentItem.Content item)
  | inl _ => None
  end.

(** The keys of the items a listing returned. *)
Definition listed_keys (r : Result (list ContentItem.t)) : list string :=
  match r with
  | inr items => ContentItem.Key <$> items
  | inl _ => []
  end.

(** [hello.json] is live but every request on its key is refused. *)
Definition world_denied : World :=
  new_world (with_fault (s3Client world_live)
               (contentKey dev "demo" "articles" "hello" "json" StateLive)
               (S3.FailRequest S3.AccessDenied)).

(** [logo.json] and [logo.png] side by side in the live directory. *)
Definition world_logo : World :=
  let w := new_world (empty_bucket true) in
  let w := (Put dev "demo" "images" "logo" "json" (bytes "{}")
                "application/json" StateLive w).2 in
  (Put dev "demo" "images" "logo" "png" (bytes "PNG") "image/png"
       StateLive w).2.

(** The key [FindContentStream] settles on among listed candidates, in the
    words of the resolver's contract: the first key that does not end in
    [.json], else the first key. *)
Definition preferred_key (contents : list S3.Object) : string :=
  let keys := (λ obj, default "" (S3.obj_Key obj)) <$> contents in
  match List.find (λ key, negb (GoStrings.HasSuffix key ".json")) keys with
  | Some key => key
  | None => default "" (head keys)
  end.

(** The [Schema] value [GetSchema] builds from the item it read. *)
Definition schema_of (schemaName : string) (item : ContentItem.t)
    (isGlobal : bool) : Schema.t :=
  {| Schema.Name := schemaName;
     Schema.Content := ContentItem.Content item;
     Schema.IsGlobal := isGlobal |}.

(** A global and a tenant schema named [article]; in [world_schema_fault]
    reads of the tenant key are refused. *)
Definition world_schemas : World :=
  let w := new_world (empty_bucket true) in
  let w := (PutGlobalSchema dev "article" (bytes "X") w).2 in
  (PutTenantSchema dev "demo" "article" (bytes "Y") w).2.

Definition world_schema_fault : World :=
  new_world (with_fault (s3Client world_schemas)
               (tenantSchemaKey dev "demo" "article")
               (S3.FailRequest S3.AccessDenied)).

Definition world_schema_outage : World :=
  new_world (with_fault (s3Client world_schema_fault)
               (globalSchemaKey dev "article")
               (S3.FailBodyRead S3.RequestTimeout)).

(** ** [s3.go]: versions of live content *)

Definition GetVersion (s : S3Storage) (tenant contentType id ext : string)
    (versionID : string) : M (Result ContentItem.t) :=
  let key := contentKey s tenant contentType id ext StateLive in
  getByKey s key versionID.

Definition GetVersionStream (s : S3Storage)
    (tenant contentType id ext : string) (versionID : string)
  : M (Result ContentStream.t) :=
  let key := contentKey s tenant contentType id ext StateLive in
  getStreamByKey s key versionID.

Definition s3_CopyObject (i : S3.CopyObjectInput)
  : M (S3.Error + S3.CopyObjectOutput) :=
  λ w, let (r, b) := S3.CopyObject i (s3Client w) in (r, with_bucket w b).

Definition RestoreVersion (s : S3Storage)
    (tenant contentType id ext : string) (versionID : string)
  : M (Result ContentItem.t) :=
  let key := contentKey s tenant contentType id ext StateLive in
  let* r := getByKey s key versionID in
  match r with
  | inl err => ret (inl (Wrapf "failed to get version" err))
  | inr item =>
      let copySource :=
        bucket s +:+ "/" +:+ key +:+ "?versionId=" +:+ versionID in
      let copyInput :=
        {| S3.copy_CopySource := copySource;
           S3.copy_Key := key;
           S3.copy_Metadata := None;
           S3.copy_MetadataDirective := S3.COPY |} in
      let* r := s3_CopyObject copyInput in
      match r with
      | inl err => ret (inl (Wrapf "failed to restore version" (SDK err)))
      | inr copyResult =>
          let newVersionID := default "" (S3.copy_VersionId copyResult) in
          ret (inr {| ContentItem.Key := key;
                      ContentItem.Content := ContentItem.Content item;
                      ContentItem.ContentType :=
                        ContentItem.ContentType item;
                      ContentItem.VersionID := newVersionID;
                      ContentItem.LastModified := 0;
                      ContentItem.Size := 0;
                      ContentItem.ETag := "";
                      ContentItem.Metadata := None |})
      end
  end.

(** ** [s3.go]: metadata operations *)

Definition GetMetadata (s : S3Storage) (tenant contentType id ext : string)
    (state : State) : M (Result (option (gmap string string))) :=
  let state := default_state state in
  let key := contentKey s tenant contentType id ext state in
  let* r := s3_HeadObject key in
  match r with
  | inl err => ret (inl (Wrapf "failed to get metadata" (SDK err)))
  | inr result => ret (inr (S3.get_Metadata result))
  end.

Definition SetMetadata (s : S3Storage) (tenant contentType id ext : string)
    (state : State) (metadata : option (gmap string string))
  : M (Result unit) :=
  let state := default_state state in
  let key := contentKey s tenant contentType id ext state in
  let copySource := bucket s +:+ "/" +:+ key in
  let* r := s3_CopyObject {| S3.copy_CopySource := copySource;
                             S3.copy_Key := key;
                             S3.copy_Metadata := metadata;
                             S3.copy_MetadataDirective := S3.REPLACE |} in
  match r with
  | inl err => ret (inl (Wrapf "failed to set metadata" (SDK err)))
  | inr _ => ret (inr ())
  end.

Definition UpdateMetadata (s : S3Storage)
    (tenant contentType id ext : string) (state : State)
    (updates : option (gmap string string)) : M (Result unit) :=
  let state := default_state state in
  let* r := GetMetadata s tenant contentType id ext state in
  match r with
  | inl err => ret (inl err)
  | inr existing =>
      let existing := match existing with
                      | None => ∅
                      | Some m => m
                      end in
      let existing := match updates with
                      | Some u => u ∪ existing
                      | None => existing
                      end in
      SetMetadata s tenant contentType id ext state (Some existing)
  end.

Definition DeleteMetadataKeys (s : S3Storage)
    (tenant contentType id ext : string) (state : State)
    (keys : list string) : M (Result unit) :=
  let state := default_state state in
  let* r := GetMetadata s tenant contentType id ext state in
  match r with
  | inl err => ret (inl err)
  | inr existing =>
      let existing := (λ m, foldl (λ m k, delete k m) m keys) <$> existing in
      SetMetadata s tenant contentType id ext state existing
  end.

(** ** [s3.go]: the rest of the schema registry *)

Definition globalSchemasPrefix (s : S3Storage) : string :=
  GoPath.Join [root s; "schemas"] +:+ "/".

Definition tenantSchemasPrefix (s : S3Storage) (tenant : string) : string :=
  GoPath.Join [root s; "tenants"; tenant; "schemas"] +:+ "/".

Definition GetGlobalSchema (s : S3Storage) (schemaName : string)
  : M (Result Schema.t) :=
  let key := globalSchemaKey s schemaName in
  let* r := getByKey s key "" in
  match r with
  | inl _ => ret (inl (Errorf ("global schema not found: " +:+ schemaName)))
  | inr item =>
      ret (inr {| Schema.Name := schemaName;
                  Schema.Content := ContentItem.Content item;
                  Schema.IsGlobal := true |})
  end.

Definition GetTenantSchema (s : S3Storage) (tenant schemaName : string)
  : M (Result Schema.t) :=
  let key := tenantSchemaKey s tenant schemaName in
  let* r := getByKey s key "" in
  match r with
  | inl _ => ret (inl (Errorf ("tenant schema not found: " +:+ schemaName)))
  | inr item =>
      ret (inr {| Schema.Name := schemaName;
                  Schema.Content := ContentItem.Content item;
                  Schema.IsGlobal := false |})
  end.

Definition DeleteGlobalSchema (s : S3Storage) (schemaName : string)
  : M (Result unit) :=
  let key := globalSchemaKey s schemaName in
  let* r := s3_DeleteObject key None in
  match r with
  | inl err => ret (inl (Wrapf "failed to delete global schema" (SDK err)))
  | inr _ => ret (inr ())
  end.

Definition DeleteTenantSchema (s : S3Storage) (tenant schemaName : string)
  : M (Result unit) :=
  let key := tenantSchemaKey s tenant schemaName in
  let* r := s3_DeleteObject key None in
  match r with
  | inl err => ret (inl (Wrapf "failed to delete tenant schema" (SDK err)))
  | inr _ => ret (inr ())
  end.

(** The loop of [listSchemaNames] over one listed object. *)
Definition schema_name_of (prefix : string) (obj : S3.Object)
  : option string :=
  match S3.obj_Key obj with
  | Some key =>
      let filename := GoStrings.TrimPrefix key prefix in
      let schemaName := GoStrings.TrimSuffix filename ".json" in
      if decide (schemaName = "") then None else Some schemaName
  | None => None
  end.

Definition listSchemaNames (s : S3Storage) (prefix : string)
  : M (Result (list string)) :=
  let* r := s3_ListObjectsV2 prefix None in
  match r with
  | inl err => ret (inl (Wrapf "failed to list schemas" (SDK err)))
  | inr contents => ret (inr (omap (schema_name_of prefix) contents))
  end.

Definition ListGlobalSchemas (s : S3Storage) : M (Result (list string)) :=
  listSchemaNames s (globalSchemasPrefix s).

Definition ListTenantSchemas (s : S3Storage) (tenant : string)
  : M (Result (list string)) :=
  listSchemaNames s (tenantSchemasPrefix s tenant).

(** [ListAllSchemas]: both listings are merged through a
    [map[string]bool]; Go ranges over it in no particular order, rendered
    here by the order of [elements]. *)
Definition ListAllSchemas (s : S3Storage) (tenant : string)
  : M (Result (list string)) :=
  let* r := ListGlobalSchemas s in
  let globalSchemas := match r with
                       | inl _ => []
                       | inr names => names
                       end in
  let* r := ListTenantSchemas s tenant in
  let tenantSchemas := match r with
                       | inl _ => []
                       | inr names => names
                       end in
  let schemaMap : gset string :=
    list_to_set globalSchemas ∪ list_to_set tenantSchemas in
  ret (inr (elements schemaMap)).

(** ** [s3.go]: a single comment *)

(** The error [json.Unmarshal] reports for bytes it cannot decode. *)
Class CommentJSONError := {
  json_Unmarshal_error : list byte → Error;
}.

Definition GetComment `{CommentJSON} `{CommentJSONError} (s : S3Storage)
    (tenant contentType contentID : string) (state : State) (id : string)
  : M (Result Comment.t) :=
  let key := commentKey s tenant contentType contentID state id in
  let* r := getByKey s key "" in
  match r with
  | inl err => ret (inl (Wrapf "comment not found" err))
  | inr item =>
      match json_Unmarshal (ContentItem.Content item) with
      | None =>
          ret (inl (Wrapf "failed to parse comment"
                          (json_Unmarshal_error (ContentItem.Content item))))
      | Some comment => ret (inr comment)
      end
  end.

(** ** [storage.go] and [s3.go]: the history log *)

Module HistoryRecord.
Record t := {
  Version : string;
  Parent : string;
  Author : string;
  Message : string;
  Timestamp : Z;
  Size : Z;
}.
End HistoryRecord.

(** [encoding/json] on [HistoryRecord]. *)
Class HistoryJSON := {
  history_Marshal : HistoryRecord.t → Error + list byte;
  history_Unmarshal : list byte → Error + HistoryRecord.t;
}.

Section History.
Context `{HistoryJSON}.

Definition PutHistoryRecord (s : S3Storage) (tenant contentType id : string)
    (record : HistoryRecord.t) : M (Result unit) :=
  let key := historyKey s tenant contentType id
                        (HistoryRecord.Version record) in
  match history_Marshal record with
  | inl err => ret (inl (Wrapf "failed to marshal history record" err))
  | inr data =>
      let* r := put_json key data in
      match r with
      | inl err => ret (inl (Wrapf "failed to put history record" (SDK err)))
      | inr _ => ret (inr ())
      end
  end.

Definition GetHistoryRecord (s : S3Storage)
    (tenant contentType id version : string) : M (Result HistoryRecord.t) :=
  let key := historyKey s tenant contentType id version in
  let* r := getByKey s key "" in
  match r with
  | inl err => ret (inl (Wrapf "history record not found" err))
  | inr item =>
      match history_Unmarshal (ContentItem.Content item) with
      | inl err => ret (inl (Wrapf "failed to parse history record" err))
      | inr record => ret (inr record)
      end
  end.

(** The loop of [ListHistoryRecords] over the listed objects. *)
Fixpoint list_history_loop (s : S3Storage) (contents : list S3.Object)
  : M (list HistoryRecord.t) :=
  match contents with
  | [] => ret []
  | obj :: rest =>
      match S3.obj_Key obj with
      | None => list_history_loop s rest
      | Some key =>
          let* r := getByKey s key "" in
          match r with
          | inl _ => list_history_loop s rest
          | inr item =>
              match history_Unmarshal (ContentItem.Content item) with
              | inl _ => list_history_loop s rest
              | inr record =>
                  let* records := list_history_loop s rest in
                  ret (record :: records)
              end
          end
      end
  end.

Definition ListHistoryRecords (s : S3Storage) (tenant contentType id : string)
  : M (Result (list HistoryRecord.t)) :=
  let prefix := historyPrefix s tenant contentType id in
  let* r := s3_ListObjectsV2 prefix None in
  match r with
  | inl err => ret (inl (Wrapf "failed to list history" (SDK err)))
  | inr contents =>
      let* records := list_history_loop s contents in
      ret (inr records)
  end.

(** The loop of [GetLatestHistoryVersion]: [r.Timestamp.After] is a strict
    comparison of instants. *)
Fixpoint latest_record (latest : option HistoryRecord.t)
    (records : list HistoryRecord.t) : option HistoryRecord.t :=
  match records with
  | [] => latest
  | r :: rest =>
      match latest with
      | None => latest_record (Some r) rest
      | Some l =>
          if HistoryRecord.Timestamp l <? HistoryRecord.Timestamp r
          then latest_record (Some r) rest
          else latest_record latest rest
      end
  end.

Definition GetLatestHistoryVersion (s : S3Storage)
    (tenant contentType id : string) : M (Result string) :=
  let* r := ListHistoryRecords s tenant contentType id in
  match r with
  | inl err => ret (inl err)
  | inr records =>
      if Z.of_nat (length records) =? 0 then ret (inr "")
      else ret (inr (match latest_record None records with
                     | Some latest => HistoryRecord.Version latest
                     | None => ""
                     end))
  end.

End History.

(** ** [handlers.go]: from a key back to id and extension *)

(** [extractIDAndExt]; the content type and the state are not used. *)
Definition extractIDAndExt (key : string) (contentType : string)
    (state : State) : string * string :=
  let filename := GoPath.Base key in
  let idx := GoStrings.LastIndex filename "." in
  if negb (idx =? -1)
  then (GoStrings.slice_to filename idx,
        GoStrings.slice_from filename (idx + 1))
  else (filename, "").

(** [getState], from the [state] path variable. *)
Definition getState (stateStr : string) : State :=
  if decide (stateStr = "") then StateLive
  else if ValidState stateStr then stateStr
  else StateLive.

(** ** Identifiers the key namer keeps as they are *)

(** A path element that [path.Clean] leaves alone: not empty, not a dot
    element, and without a slash. *)
Definition no_slash (e : string) : Prop :=
  GoStrings.Contains e "/" = false.

Definition plain (e : string) : Prop :=
  e ≠ "" ∧ e ≠ "." ∧ e ≠ ".." ∧ no_slash e.

(** A root as [NewS3Storage] leaves it that is empty or a path of plain
    elements, such as [development] or [sites/staging]. *)
Definition plain_root (s : S3Storage) : Prop :=
  root s = ""
  ∨ ∃ es, Forall plain es ∧ es ≠ [] ∧ root s = String.concat "/" es.

(** [<root>/] in front of the keys of a store, nothing for the empty root. *)
Definition root_dir (s : S3Storage) : string :=
  if decide (root s = "") then "" else root s +:+ "/".

(** A store rooted two levels down. *)
Definition staging : S3Storage :=
  NewS3Storage
    {| S3Config.Endpoint := "s3.wasabisys.com";
       S3Config.Region := "us-east-1"; S3Config.Bucket := "velocity";
       S3Config.AccessKeyID := ""; S3Config.SecretAccessKey := "";
       S3Config.Root := "/sites/staging/"; S3Config.MaxVersions := 0 |}.

(** ** What deleting does to the bucket *)

(** From [w] to [w'] only plain deletes happened: the faults stay, and a
    key without a current object stays without one. *)
Definition only_deletes (w w' : World) : Prop :=
  S3.faults (s3Client w') = S3.faults (s3Client w)
  ∧ ∀ k, S3.current (s3Client w) k = None →
         S3.current (s3Client w') k = None.

(** A draft of [hello.json] whose only comment is resolved. *)
Definition looks_fine : Comment.t :=
  {| Comment.ID := "c1"; Comment.Author := ""; Comment.Message := "";
     Comment.CreatedAt := 0; Comment.Resolved := true;
     Comment.ResolvedBy := ""; Comment.ResolvedAt := 0 |}.

Definition world_reviewed : World :=
  (PutComment (H := example_codec) dev "demo" "articles" "hello" StateDraft
              looks_fine world_draft).2.

(** Two versions of [hello.json] live, next to [hello.json.bak]. *)
Definition world_siblings : World :=
  let w := new_world (empty_bucket true) in
  let w := (Put dev "demo" "articles" "hello" "json" (bytes "a")
                "text/plain" StateLive w).2 in
  let w := (Put dev "demo" "articles" "hello" "json" (bytes "b")
                "text/plain" StateLive w).2 in
  (Put dev "demo" "articles" "hello" "json.bak" (bytes "c") "text/plain"
       StateLive w).2.

(** ** Codecs for the examples of the history log and of single comments *)

(** A history record as its version string alone. *)
Definition example_history_codec : HistoryJSON :=
  {| history_Marshal := λ r, inr (bytes (HistoryRecord.Version r));
     history_Unmarshal := λ data,
       inr {| HistoryRecord.Version := String.string_of_list_byte data;
              HistoryRecord.Parent := ""; HistoryRecord.Author := "";
              HistoryRecord.Message := ""; HistoryRecord.Timestamp := 0;
              HistoryRecord.Size := 0 |} |}.

Definition first_revision : HistoryRecord.t :=
  {| HistoryRecord.Version := "v1"; HistoryRecord.Parent := "";
     HistoryRecord.Author := ""; HistoryRecord.Message := "";
     HistoryRecord.Timestamp := 0; HistoryRecord.Size := 0 |}.

Definition example_codec_error : CommentJSONError :=
  {| json_Unmarshal_error := λ _, Errorf "invalid character" |}.

(** [hello.json] live, streamed with one metadata entry. *)
Definition world_tagged : World :=
  (PutStream dev "demo" "articles" "hello" "json" (bytes "{}") 2
             "application/json" StateLive (Some {["author" := "ann"]})
             (new_world (empty_bucket true))).2.

(** The draft of [hello.json] on a bucket that serves reads and writes of
    its key but refuses to delete it. *)
Definition world_undeletable : World :=
  with_bucket world_draft
    (with_fault (s3Client world_draft)
       "development/tenants/demo/content/articles/_draft/hello.json"
       (S3.FailDelete S3.AccessDenied)).


(** Three live writes on a bucket that refuses to delete any version of
    the item. *)
Definition world_unprunable : World :=
  with_bucket (quiesce three_puts)
    (with_fault (s3Client (quiesce three_puts))
       "development/tenants/demo/content/articles/hello.json"
       (S3.FailDelete S3.AccessDenied)).

(** Three live writes on a bucket whose listings under the item's key
    fail from the fourth tick of its clock on. *)
Definition world_unlistable : World :=
  with_bucket (quiesce three_puts)
    (with_fault (s3Client (quiesce three_puts))
       "development/tenants/demo/content/articles/hello.json"
       (S3.FailList 4 S3.InternalError)).

(** * Properties *)

(** ** The key namer and the Go library functions on examples *)

Example contentKey_live :
  contentKey {| bucket := "b"; root := "development"; maxVersions := 10 |}
             "demo" "articles" "hello" "json" StateLive
  = "development/tenants/demo/content/articles/hello.json".
Proof. vm_compute. reflexivity. Qed.

Example contentKey_draft :
  contentKey {| bucket := "b"; root := ""; maxVersions := 10 |}
             "demo" "articles" "hello" "json" StateDraft
  = "tenants/demo/content/articles/_draft/hello.json".
Proof. vm_compute. reflexivity. Qed.

Example Clean_vectors :
  Forall (λ p, GoPath.Clean p.1 = p.2)
    [("", "."); ("abc", "abc"); ("/", "/"); ("abc/", "abc"); ("./", ".");
     ("..", ".."); ("../../abc", "../../abc"); ("//abc//", "/abc");
     ("abc//def//ghi", "abc/def/ghi"); ("abc/./def", "abc/def");
     ("abc/def/ghi/../jkl", "abc/def/jkl"); ("abc/def/../..", ".");
     ("/abc/def/../../..", "/"); ("abc/def/../../..", "..");
     ("abc/def/../../../ghi/jkl/../../../mno", "../../mno");
     ("abc/../../././../def", "../../def")].
Proof. repeat constructor. Qed.

Example Join_vectors :
  Forall (λ p, GoPath.Join p.1 = p.2)
    [([], ""); ([""], ""); (["a"; "b"], "a/b"); (["a"; ""], "a");
     ([""; "b"], "b"); (["/"; "a"], "/a"); (["a/"; "b"], "a/b");
     ([""; ""], "")].
Proof. repeat constructor. Qed.

Example Clean_dots : GoPath.Clean "a//b/./c/../d/" = "a/b/d".
Proof. vm_compute. reflexivity. Qed.

Example Clean_rooted : GoPath.Clean "/../a/../.." = "/".
Proof. vm_compute. reflexivity. Qed.

Example Clean_updots : GoPath.Clean "../../a/.." = "../..".
Proof. vm_compute. reflexivity. Qed.

Example LastIndex_ex : GoStrings.LastIndex "logo.tar.gz" "." = 8.
Proof. vm_compute. reflexivity. Qed.

Example Trim_ex : GoStrings.Trim_byte "//production/" "/"%char = "production".
Proof. vm_compute. reflexivity. Qed.

(** ** Reads leave the world alone *)

Ltac unfold_M :=
  unfold bind, ret, s3_GetObject, s3_HeadObject, s3_ListObjectsV2,
    s3_ListObjectVersions in *.

Lemma getByKey_readonly s key versionID w :
  (getByKey s key versionID w).2 = w.
Proof.
  unfold getByKey. unfold_M.
  destruct (S3.GetObject key (nonempty versionID) (s3Client w)) as [e|out];
    [reflexivity|].
  destruct (io_ReadAll (S3.get_Body out)); reflexivity.
Qed.

Lemma getStreamByKey_readonly s key versionID w :
  (getStreamByKey s key versionID w).2 = w.
Proof.
  unfold getStreamByKey. unfold_M.
  destruct (S3.GetObject key (nonempty versionID) (s3Client w));
    reflexivity.
Qed.

Lemma Get_readonly s tenant contentType id ext state w :
  (Get s tenant contentType id ext state w).2 = w.
Proof. apply getByKey_readonly. Qed.

Lemma list_comments_loop_readonly `{CommentJSON} s contents w :
  (list_comments_loop s contents w).2 = w.
Proof.
  revert w. induction contents as [|obj rest IH]; intros w; simpl;
    [reflexivity|].
  destruct (S3.obj_Key obj) as [key|]; [|apply IH].
  unfold bind at 1.
  pose proof (getByKey_readonly s key "" w) as Hro.
  destruct (getByKey s key "" w) as [[e|item] w1]; simpl in Hro; subst w1;
    [apply IH|].
  destruct (json_Unmarshal (ContentItem.Content item)); [|apply IH].
  unfold bind, ret. specialize (IH w).
  destruct (list_comments_loop s rest w) as [cs w2]. simpl in *. congruence.
Qed.

Lemma ListComments_readonly `{CommentJSON} s tenant contentType contentID
    state w :
  (ListComments s tenant contentType contentID state w).2 = w.
Proof.
  unfold ListComments. unfold_M.
  destruct (S3.ListObjectsV2 _ None (s3Client w)) as [e|contents];
    [reflexivity|].
  pose proof (list_comments_loop_readonly s contents w) as Hro.
  destruct (list_comments_loop s contents w) as [cs w1]. simpl in *.
  congruence.
Qed.

Lemma HasUnresolvedComments_eq `{CommentJSON} s tenant contentType contentID
    state w :
  HasUnresolvedComments s tenant contentType contentID state w
  = (match (ListComments s tenant contentType contentID state w).1 with
     | inl err => inl err
     | inr comments => inr (any_unresolved comments)
     end, w).
Proof.
  unfold HasUnresolvedComments, bind, ret.
  pose proof (ListComments_readonly s tenant contentType contentID state w)
    as Hro.
  destruct (ListComments s tenant contentType contentID state w)
    as [[e|cs] w1]; simpl in *; subst; reflexivity.
Qed.

Lemma any_unresolved_spec comments :
  any_unresolved comments = true
  ↔ ∃ c, c ∈ comments ∧ Comment.Resolved c = false.
Proof.
  induction comments as [|c rest IH]; simpl.
  - split; [discriminate|]. intros (c & Hc & _). by apply elem_of_nil in Hc.
  - destruct (Comment.Resolved c) eqn:Hr; simpl.
    + rewrite IH. split.
      * intros (c' & Hin & Hc'). exists c'. split; [by right|done].
      * intros (c' & Hin & Hc'). apply elem_of_cons in Hin as [->|Hin];
          [congruence|]. eauto.
    + split; [|done]. intros _. exists c. split; [by left|done].
Qed.

(** ** The bucket *)

Lemma object_fault_healthy b key :
  S3.faults b !! key = None → S3.object_fault b key = None.
Proof. unfold S3.object_fault. intros ->. reflexivity. Qed.

Lemma delete_fault_healthy b key :
  S3.faults b !! key = None → S3.delete_fault b key = None.
Proof. unfold S3.delete_fault. intros ->. reflexivity. Qed.

Lemma list_fault_healthy b prefix :
  S3.faults b !! prefix = None → S3.list_fault b prefix = None.
Proof. unfold S3.list_fault. intros ->. reflexivity. Qed.

(** A resource no request is set up to fail on serves every kind of
    request. *)
Lemma request_fault_object b key :
  S3.request_fault b key = None → S3.object_fault b key = None.
Proof.
  unfold S3.request_fault, S3.object_fault.
  by destruct (S3.faults b !! key) as [[]|].
Qed.

Lemma request_fault_delete b key :
  S3.request_fault b key = None → S3.delete_fault b key = None.
Proof.
  unfold S3.request_fault, S3.delete_fault.
  by destruct (S3.faults b !! key) as [[]|].
Qed.

Lemma request_fault_list b prefix :
  S3.request_fault b prefix = None → S3.list_fault b prefix = None.
Proof.
  unfold S3.request_fault, S3.list_fault.
  by destruct (S3.faults b !! prefix) as [[]|].
Qed.

Lemma delete_fault_object b key :
  S3.delete_fault b key = None → S3.object_fault b key = None.
Proof.
  unfold S3.delete_fault, S3.object_fault.
  by destruct (S3.faults b !! key) as [[]|].
Qed.

Lemma request_fault_faults b b' key :
  S3.faults b' = S3.faults b →
  S3.request_fault b' key = S3.request_fault b key.
Proof. unfold S3.request_fault. by intros ->. Qed.

Lemma delete_fault_faults b b' key :
  S3.faults b' = S3.faults b →
  S3.delete_fault b' key = S3.delete_fault b key.
Proof. unfold S3.delete_fault. by intros ->. Qed.

Lemma body_fault_healthy b key :
  S3.faults b !! key = None → S3.body_fault b key = None.
Proof. unfold S3.body_fault. intros ->. reflexivity. Qed.

Lemma versions_of_set_versions b key vs now :
  S3.versions_of (S3.set_versions b key vs now) key = vs.
Proof.
  unfold S3.versions_of, S3.set_versions. simpl. destruct vs as [|v vs'].
  - by rewrite lookup_delete_eq.
  - by rewrite lookup_insert_eq.
Qed.

Lemma versions_of_set_versions_ne b key key' vs now :
  key ≠ key' →
  S3.versions_of (S3.set_versions b key vs now) key' = S3.versions_of b key'.
Proof.
  intros Hne. unfold S3.versions_of, S3.set_versions. simpl.
  destruct vs as [|v vs'].
  - by rewrite lookup_delete_ne.
  - by rewrite lookup_insert_ne.
Qed.

Lemma object_fault_set_versions b key vs now resource :
  S3.object_fault (S3.set_versions b key vs now) resource
  = S3.object_fault b resource.
Proof. reflexivity. Qed.

Lemma delete_fault_set_versions b key vs now resource :
  S3.delete_fault (S3.set_versions b key vs now) resource
  = S3.delete_fault b resource.
Proof. reflexivity. Qed.

Lemma body_fault_set_versions b key vs now resource :
  S3.body_fault (S3.set_versions b key vs now) resource
  = S3.body_fault b resource.
Proof. reflexivity. Qed.

(** A write on a healthy key succeeds and the next read of the key returns
    the body and content type just written. *)
Lemma PutObject_then_GetObject i b :
  S3.faults b !! S3.put_Key i = None →
  ∃ out b' got,
    S3.PutObject i b = (inr out, b')
    ∧ S3.GetObject (S3.put_Key i) None b' = inr got
    ∧ S3.get_Body got = {| S3.rc_data := S3.put_Body i; S3.rc_err := None |}
    ∧ S3.get_ContentType got = S3.put_ContentType i.
Proof.
  intros Hok. unfold S3.PutObject.
  rewrite (object_fault_healthy _ _ Hok).
  eexists _, _, _. split; [reflexivity|].
  unfold S3.GetObject.
  rewrite object_fault_set_versions, (object_fault_healthy _ _ Hok).
  rewrite versions_of_set_versions.
  unfold S3.output_of.
  rewrite body_fault_set_versions, (body_fault_healthy _ _ Hok).
  destruct (S3.versioning b); simpl; repeat split; reflexivity.
Qed.

(** ** The shape of the errors of a move *)

(** One step through a method body: name the outcome of the next call, or
    split on the next test. *)
Ltac run_step :=
  match goal with
  | |- context [let (_, _) := ?p in _] =>
      let r := fresh "r" in
      let w := fresh "w" in
      destruct p as [r w]
  | |- context [match ?x with inl _ => _ | inr _ => _ end] =>
      is_var x; destruct x
  | |- context [if negb (bool_decide ?P) then _ else _] =>
      destruct (bool_decide P)
  end.

Lemma transition_move_result `{CommentJSON} s tenant contentType id ext
    fromState toState w :
  match (transition_move s tenant contentType id ext fromState toState w).1
  with
  | inl (Wrapf _ _) | inr _ => True
  | inl _ => False
  end.
Proof.
  unfold transition_move, bind, ret, log_Error.
  repeat (run_step; simpl); exact I.
Qed.

Lemma transition_move_not_Errorf `{CommentJSON} s tenant contentType id ext
    fromState toState w msg :
  (transition_move s tenant contentType id ext fromState toState w).1
  ≠ inl (Errorf msg).
Proof.
  pose proof (transition_move_result s tenant contentType id ext fromState
                                     toState w) as Hshape.
  intros Heq. rewrite Heq in Hshape. exact Hshape.
Qed.

Lemma transition_move_ok `{CommentJSON} s tenant contentType id ext
    fromState toState w sourceItem targetItem :
  (Get s tenant contentType id ext fromState w).1 = inr sourceItem →
  (Put s tenant contentType id ext (ContentItem.Content sourceItem)
       (ContentItem.ContentType sourceItem) toState w).1 = inr targetItem →
  (transition_move s tenant contentType id ext fromState toState w).1
  = inr targetItem.
Proof.
  intros Hget Hput. unfold transition_move. unfold bind at 1.
  pose proof (Get_readonly s tenant contentType id ext fromState w) as Hro.
  destruct (Get s tenant contentType id ext fromState w) as [r w1].
  simpl in *. subst w1 r.
  unfold bind at 1.
  destruct (Put s tenant contentType id ext _ _ toState w) as [r w2].
  simpl in Hput. subst r.
  unfold bind, ret, log_Error.
  repeat (run_step; simpl); reflexivity.
Qed.

(** ** What the comment listing returns *)

Lemma list_comments_loop_elem `{CommentJSON} s contents w c :
  c ∈ (list_comments_loop s contents w).1
  ↔ ∃ obj key item,
      obj ∈ contents
      ∧ S3.obj_Key obj = Some key
      ∧ (getByKey s key "" w).1 = inr item
      ∧ json_Unmarshal (ContentItem.Content item) = Some c.
Proof.
  induction contents as [|obj rest IH]; simpl.
  { split; [intros Hc; by apply elem_of_nil in Hc|].
    intros (obj & _ & _ & Hobj & _). by apply elem_of_nil in Hobj. }
  assert (Hrest :
    (∃ obj' key item,
        obj' ∈ rest ∧ S3.obj_Key obj' = Some key
        ∧ (getByKey s key "" w).1 = inr item
        ∧ json_Unmarshal (ContentItem.Content item) = Some c)
    → ∃ obj' key item,
        obj' ∈ obj :: rest ∧ S3.obj_Key obj' = Some key
        ∧ (getByKey s key "" w).1 = inr item
        ∧ json_Unmarshal (ContentItem.Content item) = Some c).
  { intros (obj' & key & item & Hin & Hrest). exists obj', key, item.
    split; [by right|exact Hrest]. }
  destruct (S3.obj_Key obj) as [key|] eqn:Hkey.
  - unfold bind at 1.
    pose proof (getByKey_readonly s key "" w) as Hro.
    destruct (getByKey s key "" w) as [[e|item] w1] eqn:Hget;
      simpl in Hro; subst w1.
    + rewrite IH. split; [exact Hrest|].
      intros (obj' & key' & item & Hin & Hk & Hg & Hu).
      apply elem_of_cons in Hin as [->|Hin]; [|by eauto 8].
      rewrite Hkey in Hk. injection Hk as <-. rewrite Hget in Hg.
      discriminate.
    + destruct (json_Unmarshal (ContentItem.Content item)) as [c'|] eqn:Hdec.
      * unfold bind, ret.
        pose proof (list_comments_loop_readonly s rest w) as Hro.
        destruct (list_comments_loop s rest w) as [cs w2]. simpl in *.
        rewrite elem_of_cons, IH. split.
        -- intros [->|Hc]; [|by apply Hrest].
           exists obj, key, item. rewrite Hget. simpl.
           split; [by left|done].
        -- intros (obj' & key' & item' & Hin & Hk & Hg & Hu).
           apply elem_of_cons in Hin as [->|Hin]; [|right; by eauto 8].
           rewrite Hkey in Hk. injection Hk as <-. rewrite Hget in Hg.
           simpl in Hg. injection Hg as <-. left. congruence.
      * rewrite IH. split; [exact Hrest|].
        intros (obj' & key' & item' & Hin & Hk & Hg & Hu).
        apply elem_of_cons in Hin as [->|Hin]; [|by eauto 8].
        rewrite Hkey in Hk. injection Hk as <-. rewrite Hget in Hg.
        simpl in Hg. injection Hg as <-. congruence.
  - rewrite IH. split; [exact Hrest|].
    intros (obj' & key' & item' & Hin & Hk & Hg & Hu).
    apply elem_of_cons in Hin as [->|Hin]; [congruence|by eauto 8].
Qed.

Lemma entries_under_elem prefix b kv :
  kv ∈ S3.entries_under prefix b
  ↔ String.prefix prefix kv.1 = true ∧ S3.objects b !! kv.1 = Some kv.2.
Proof.
  unfold S3.entries_under.
  rewrite (merge_sort_Permutation S3.entry_le), list_elem_of_filter.
  destruct kv as [key vs]. by rewrite elem_of_map_to_list.
Qed.

(** A read of a healthy key returns the body of its current version, and
    only that. *)
Lemma getByKey_healthy s key w item :
  S3.faults (s3Client w) !! key = None →
  (getByKey s key "" w).1 = inr item
  ↔ ∃ ov older,
      S3.objects (s3Client w) !! key = Some (ov :: older)
      ∧ S3.ov_IsDeleteMarker ov = false
      ∧ item = item_of_output key (S3.ov_Body ov)
                 (S3.output_of (s3Client w) key ov).
Proof.
  intros Hok. unfold getByKey, bind, ret, s3_GetObject, nonempty. simpl.
  unfold S3.GetObject. rewrite (object_fault_healthy _ _ Hok).
  unfold S3.versions_of, S3.select_version.
  destruct (S3.objects (s3Client w) !! key) as [[|ov older]|] eqn:Hobj; simpl.
  - split; [discriminate|]. intros (? & ? & [=] & _).
  - destruct (S3.ov_IsDeleteMarker ov) eqn:Hdm; simpl.
    + split; [discriminate|]. intros (ov' & ? & [= <- _] & Hdm' & _).
      congruence.
    + unfold io_ReadAll. simpl. rewrite (body_fault_healthy _ _ Hok). simpl.
      split.
      * intros [= <-]. exists ov, older. done.
      * intros (ov' & older' & [= <- <-] & _ & ->). reflexivity.
  - split; [discriminate|]. intros (? & ? & [=] & _).
Qed.

(** On a bucket without faults the comment listing succeeds and returns
    exactly the stored comments. *)
Lemma ListComments_lists_stored `{CommentJSON} s tenant contentType
    contentID state w :
  S3.faults (s3Client w) = ∅ →
  ∃ comments,
    (ListComments s tenant contentType contentID state w).1 = inr comments
    ∧ ∀ c, c ∈ comments
           ↔ stored_comment s tenant contentType contentID state
                            (s3Client w) c.
Proof.
  intros Hnofault.
  assert (Hok : ∀ key, S3.faults (s3Client w) !! key = None)
    by (intros key; rewrite Hnofault; apply lookup_empty).
  unfold ListComments, bind, ret, s3_ListObjectsV2, S3.ListObjectsV2.
  rewrite (list_fault_healthy _ _ (Hok _)).
  set (prefix := commentPrefix s tenant contentType contentID state).
  set (contents := S3.object_of
                     <$> filter (λ kv, S3.is_current kv = true)
                                (S3.entries_under prefix (s3Client w))).
  pose proof (list_comments_loop_elem s contents w) as Helem.
  destruct (list_comments_loop s contents w) as [cs w1]. simpl in *.
  exists cs. split; [reflexivity|]. intros c. rewrite Helem. split.
  - intros (obj & key & item & Hin & Hkey & Hget & Hdec).
    apply list_elem_of_fmap in Hin as ([key' vs] & -> & Hin).
    apply list_elem_of_filter in Hin as [Hcur Hin].
    apply entries_under_elem in Hin as [Hpre Hobj]. simpl in *.
    assert (key' = key) as ->.
    { unfold S3.object_of in Hkey. simpl in Hkey.
      destruct vs; simpl in Hkey; congruence. }
    apply (getByKey_healthy s key w item (Hok key)) in Hget
      as (ov & older & Hobj' & Hdm & ->).
    exists key, ov, older. done.
  - intros (key & ov & older & Hpre & Hobj & Hdm & Hdec).
    exists (S3.object_of (key, ov :: older)), key,
           (item_of_output key (S3.ov_Body ov)
              (S3.output_of (s3Client w) key ov)).
    split; [|split; [reflexivity|split; [|exact Hdec]]].
    + apply list_elem_of_fmap. exists (key, ov :: older).
      split; [reflexivity|]. apply list_elem_of_filter. split.
      * unfold S3.is_current. simpl. by rewrite Hdm.
      * by apply entries_under_elem.
    + apply (getByKey_healthy s key w _ (Hok key)). by exists ov, older.
Qed.

(** ** The workflow engine *)

(** C1, as amended: [Transition] fails with the invalid-transition error
    exactly when the source state equals the target state.  Any other
    request proceeds, a live source included: when the source is live, or
    is another state without unresolved comments, and the source content
    can be read and the write to the target succeeds, the transition
    returns the target item. *)
Theorem Transition_invalid_iff_same_state `{CommentJSON} :
  (∀ s tenant contentType id ext fromState toState w,
      (Transition s tenant contentType id ext fromState toState w).1
        = inl InvalidTransition
      ↔ fromState = toState)
  ∧ (∀ s tenant contentType id ext fromState toState w sourceItem
       targetItem,
        fromState ≠ toState →
        fromState = StateLive
        ∨ (HasUnresolvedComments s tenant contentType id fromState w).1
          = inr false →
        (Get s tenant contentType id ext fromState w).1 = inr sourceItem →
        (Put s tenant contentType id ext (ContentItem.Content sourceItem)
             (ContentItem.ContentType sourceItem) toState w).1
          = inr targetItem →
        (Transition s tenant contentType id ext fromState toState w).1
          = inr targetItem).
Proof.
  split.
  - intros s tenant contentType id ext fromState toState w.
    unfold Transition. destruct (decide (fromState = toState)) as [Heq|Hne].
    { split; [intros _; exact Heq | reflexivity]. }
    split; [|intros Heq; contradiction].
    intros Hres. exfalso.
    destruct (bool_decide (fromState = StateLive)); simpl in Hres.
    + by apply transition_move_not_Errorf in Hres.
    + unfold bind in Hres. rewrite HasUnresolvedComments_eq in Hres.
      destruct (ListComments s tenant contentType id fromState w).1
        as [e|comments]; [discriminate|].
      destruct (any_unresolved comments); [discriminate|].
      by apply transition_move_not_Errorf in Hres.
  - intros s tenant contentType id ext fromState toState w sourceItem
           targetItem Hne Hgate Hget Hput.
    unfold Transition.
    destruct (decide (fromState = toState)) as [Heq|_]; [contradiction|].
    destruct (bool_decide (fromState = StateLive)) eqn:Hlive; simpl.
    { by apply transition_move_ok with (sourceItem := sourceItem). }
    destruct Hgate as [Hfrom|Hclear].
    { apply bool_decide_eq_false in Hlive. contradiction. }
    unfold bind. rewrite HasUnresolvedComments_eq in Hclear |- *.
    simpl in Hclear |- *. rewrite Hclear.
    by apply transition_move_ok with (sourceItem := sourceItem).
Qed.

Lemma Transition_invalid_iff_same_state_witness :
  StateLive ≠ StateDraft
  ∧ (Get dev "demo" "articles" "hello" "json" StateLive world_live).1
      = inr {| ContentItem.Key :=
                 "development/tenants/demo/content/articles/hello.json";
               ContentItem.Content := bytes "{}";
               ContentItem.ContentType := "application/json";
               ContentItem.VersionID := "v1";
               ContentItem.LastModified := 1;
               ContentItem.Size := 2;
               ContentItem.ETag := "etag-1";
               ContentItem.Metadata := None |}
  ∧ (Transition (H := example_codec) dev "demo" "articles" "hello" "json"
                StateLive StateDraft world_live).1
      = inr {| ContentItem.Key :=
                 "development/tenants/demo/content/articles/_draft/hello.json";
               ContentItem.Content := bytes "{}";
               ContentItem.ContentType := "application/json";
               ContentItem.VersionID := "v2";
               ContentItem.LastModified := 0;
               ContentItem.Size := 0;
               ContentItem.ETag := "";
               ContentItem.Metadata := None |}.
Proof.
  split; [discriminate|]. split; [vm_compute; reflexivity|].
  eapply (proj2 (@Transition_invalid_iff_same_state example_codec)).
  - discriminate.
  - left. reflexivity.
  - vm_compute. reflexivity.
  - vm_compute. reflexivity.
Defined.

(** C1 as stated fails: live to draft is none of the four permitted edges,
    both states are valid, and the transition of a live item goes through. *)
Lemma Transition_live_source_proceeds :
  ValidState StateLive = true
  ∧ ValidState StateDraft = true
  ∧ ¬ permitted_edge StateLive StateDraft
  ∧ (Transition (H := example_codec) dev "demo" "articles" "hello" "json"
                StateLive StateDraft world_live).1
      ≠ inl InvalidTransition
  ∧ ∃ item,
      (Transition (H := example_codec) dev "demo" "articles" "hello" "json"
                  StateLive StateDraft world_live).1 = inr item.
Proof.
  split; [reflexivity|]. split; [reflexivity|]. split.
  { intros [[? _]|[[? _]|[[? _]|[? _]]]]; discriminate. }
  split; [vm_compute; discriminate|].
  eexists. vm_compute. reflexivity.
Qed.

(** C2: for a transition out of draft or pending to another state,
    whenever the comment listing of the source state succeeds,
    [HasUnresolvedComments] answers true exactly when some listed comment
    has [Resolved = false], the transition fails with the gate error
    exactly in that case, and then the world (content and comments of the
    source state included) is left as it was.  On a bucket without faults
    the listing succeeds and the listed comments are the stored ones, so
    the transition is gated exactly when a comment stored under the source
    state has [Resolved = false]. *)
Theorem Transition_gated_iff_unresolved `{CommentJSON}
    s tenant contentType id ext fromState toState w :
  fromState = StateDraft ∨ fromState = StatePending →
  toState ≠ fromState →
  (∀ comments,
      (ListComments s tenant contentType id fromState w).1 = inr comments →
      ((HasUnresolvedComments s tenant contentType id fromState w).1
         = inr true
       ↔ ∃ c, c ∈ comments ∧ Comment.Resolved c = false)
      ∧ ((Transition s tenant contentType id ext fromState toState w).1
           = inl (Gated fromState)
         ↔ ∃ c, c ∈ comments ∧ Comment.Resolved c = false)
      ∧ ((Transition s tenant contentType id ext fromState toState w).1
           = inl (Gated fromState)
         → (Transition s tenant contentType id ext fromState toState w).2
           = w))
  ∧ (S3.faults (s3Client w) = ∅ →
     ((Transition s tenant contentType id ext fromState toState w).1
        = inl (Gated fromState)
      ↔ ∃ c, stored_comment s tenant contentType id fromState
                            (s3Client w) c
             ∧ Comment.Resolved c = false)).
Proof.
  intros Hfrom Hne.
  assert (Hlive : bool_decide (fromState = StateLive) = false).
  { apply bool_decide_eq_false_2. destruct Hfrom; subst; discriminate. }
  assert (Hlisted : ∀ comments,
    (ListComments s tenant contentType id fromState w).1 = inr comments →
    ((HasUnresolvedComments s tenant contentType id fromState w).1
       = inr true
     ↔ ∃ c, c ∈ comments ∧ Comment.Resolved c = false)
    ∧ ((Transition s tenant contentType id ext fromState toState w).1
         = inl (Gated fromState)
       ↔ ∃ c, c ∈ comments ∧ Comment.Resolved c = false)
    ∧ ((Transition s tenant contentType id ext fromState toState w).1
         = inl (Gated fromState)
       → (Transition s tenant contentType id ext fromState toState w).2
         = w)).
  { intros comments Hlist.
    rewrite <- any_unresolved_spec.
    unfold Transition.
    destruct (decide (fromState = toState)) as [Heq|_]; [congruence|].
    rewrite Hlive. simpl. unfold bind.
    rewrite HasUnresolvedComments_eq, Hlist. simpl.
    split; [split; congruence|].
    destruct (any_unresolved comments).
    - split; [split; reflexivity|reflexivity].
    - split.
      + split; [|discriminate]. intros Hres.
        by apply transition_move_not_Errorf in Hres.
      + intros Hres. by apply transition_move_not_Errorf in Hres. }
  split; [exact Hlisted|].
  intros Hnofault.
  destruct (ListComments_lists_stored s tenant contentType id fromState w
              Hnofault) as (comments & Hlist & Hstored).
  destruct (Hlisted comments Hlist) as (_ & Hiff & _).
  rewrite Hiff. split.
  - intros (c & Hin & Hc). exists c. split; [by apply Hstored|exact Hc].
  - intros (c & Hin & Hc). exists c. split; [by apply Hstored|exact Hc].
Qed.

Lemma Transition_gated_iff_unresolved_witness :
  (StateDraft = StateDraft ∨ StateDraft = StatePending)
  ∧ StateLive ≠ StateDraft
  ∧ (ListComments (H := example_codec) dev "demo" "articles" "hello"
                  StateDraft world_commented).1 = inr [fix_it]
  ∧ S3.faults (s3Client world_commented) = ∅
  ∧ (Transition (H := example_codec) dev "demo" "articles" "hello" "json"
                StateDraft StateLive world_commented).1
      = inl (Gated StateDraft)
  ∧ (Transition (H := example_codec) dev "demo" "articles" "hello" "json"
                StateDraft StateLive world_commented).2 = world_commented
  ∧ ∃ c, stored_comment (H := example_codec) dev "demo" "articles" "hello"
                        StateDraft (s3Client world_commented) c
         ∧ Comment.Resolved c = false.
Proof.
  assert (Hlist : (ListComments (H := example_codec) dev "demo" "articles"
                     "hello" StateDraft world_commented).1 = inr [fix_it])
    by (vm_compute; reflexivity).
  assert (Hne : StateLive ≠ StateDraft) by discriminate.
  assert (Hnofault : S3.faults (s3Client world_commented) = ∅)
    by (vm_compute; reflexivity).
  destruct (@Transition_gated_iff_unresolved example_codec dev "demo"
              "articles" "hello" "json" StateDraft StateLive world_commented
              (or_introl eq_refl) Hne) as (Hlisted & Hstored).
  destruct (Hlisted [fix_it] Hlist) as (_ & Hiff & Hsame).
  assert (Hgated : (Transition (H := example_codec) dev "demo" "articles"
                      "hello" "json" StateDraft StateLive world_commented).1
                   = inl (Gated StateDraft)).
  { apply Hiff. exists fix_it. split; [apply list_elem_of_here|reflexivity]. }
  split; [left; reflexivity|]. split; [exact Hne|].
  split; [exact Hlist|]. split; [exact Hnofault|]. split; [exact Hgated|].
  split; [exact (Hsame Hgated)|].
  exact (proj1 (Hstored Hnofault) Hgated).
Defined.

(** ** The content store *)

(** C3: on a key the backend serves without fault, [Put] succeeds and a
    [Get] of the same tuple and state then returns the stored payload,
    byte for byte, with the same MIME type. *)
Theorem Put_Get_roundtrip s tenant contentType id ext content mimeType
    state w :
  S3.faults (s3Client w)
    !! contentKey s tenant contentType id ext (default_state state) = None →
  ∃ stored w' got,
    Put s tenant contentType id ext content mimeType state w
      = (inr stored, w')
    ∧ Get s tenant contentType id ext state w' = (inr got, w')
    ∧ ContentItem.Content got = content
    ∧ ContentItem.ContentType got = mimeType.
Proof.
  intros Hok.
  set (key := contentKey s tenant contentType id ext (default_state state))
    in *.
  set (input := {| S3.put_Key := key; S3.put_Body := content;
                   S3.put_ContentLength := None;
                   S3.put_ContentType := Some mimeType;
                   S3.put_Metadata := None |}).
  destruct (PutObject_then_GetObject input (s3Client w) Hok)
    as (out & b' & got & Hput & Hget & Hbody & Hct).
  unfold Put, Get, getByKey, bind, ret, s3_PutObject, s3_GetObject.
  fold key. fold input. rewrite Hput. simpl in *.
  eexists _, _, _. split; [reflexivity|].
  simpl. unfold nonempty. simpl. rewrite Hget.
  unfold io_ReadAll. rewrite Hbody. simpl.
  split; [reflexivity|]. split; [reflexivity|].
  unfold item_of_output. simpl. rewrite Hct. reflexivity.
Qed.

Lemma Put_Get_roundtrip_witness :
  S3.faults (s3Client world_live)
    !! contentKey dev "demo" "articles" "hello" "json"
                  (default_state StateDraft) = None
  ∧ ∃ stored w' got,
      Put dev "demo" "articles" "hello" "json" (bytes "<p>hi</p>")
          "text/html" StateDraft world_live = (inr stored, w')
      ∧ Get dev "demo" "articles" "hello" "json" StateDraft w'
          = (inr got, w')
      ∧ ContentItem.Content got = bytes "<p>hi</p>"
      ∧ ContentItem.ContentType got = "text/html".
Proof.
  assert (Hok : S3.faults (s3Client world_live)
                  !! contentKey dev "demo" "articles" "hello" "json"
                                (default_state StateDraft) = None)
    by (vm_compute; reflexivity).
  split; [exact Hok|].
  exact (Put_Get_roundtrip dev "demo" "articles" "hello" "json"
           (bytes "<p>hi</p>") "text/html" StateDraft world_live Hok).
Defined.

(** ** Version pruning *)

Lemma Put_goroutines s tenant contentType id ext content mimeType state w :
  goroutines (Put s tenant contentType id ext content mimeType state w).2
  = goroutines w.
Proof.
  unfold Put, bind, ret, s3_PutObject.
  destruct (S3.PutObject _ (s3Client w)) as [[e|out] b]; reflexivity.
Qed.

Lemma PutStream_goroutines_unlimited s tenant contentType id ext body
    contentLength mimeType state metadata w :
  maxVersions s ≤ 0 →
  goroutines (PutStream s tenant contentType id ext body contentLength
                        mimeType state metadata w).2
  = goroutines w.
Proof.
  intros Hmax. unfold PutStream, bind, ret, s3_PutObject.
  destruct (S3.PutObject _ (s3Client w)) as [[e|out] b]; [reflexivity|].
  assert (Hoff : (0 <? maxVersions s) = false) by (apply Z.ltb_ge; lia).
  rewrite Hoff, andb_false_r. reflexivity.
Qed.

Lemma PutStream_live_spawns s tenant contentType id ext body contentLength
    mimeType metadata w item w' :
  0 < maxVersions s →
  PutStream s tenant contentType id ext body contentLength mimeType
            StateLive metadata w = (inr item, w') →
  goroutines w'
  = (goroutines w
       ++ [go_pruneVersions s
             (contentKey s tenant contentType id ext StateLive)])%list.
Proof.
  intros Hmax. unfold PutStream, bind, ret, s3_PutObject.
  change (default_state StateLive) with StateLive.
  destruct (S3.PutObject _ (s3Client w)) as [[e|out] b]; [discriminate|].
  assert (Hon : (0 <? maxVersions s) = true) by (apply Z.ltb_lt; lia).
  rewrite Hon, bool_decide_eq_true_2 by reflexivity. simpl.
  intros [= _ <-]. reflexivity.
Qed.

(** C4 at the failing input: with [maxVersions = 2] on a versioning bucket,
    three live writes through [Put] queue no pruning at all and all three
    versions stay once everything has quiesced, whereas the same writes
    through [PutStream] queue one pruning each and end with two versions.
    [Put] never queues anything, whatever its arguments. *)
Theorem Put_live_skips_pruning :
  maxVersions dev = 2
  ∧ S3.versioning (s3Client three_puts) = true
  ∧ goroutines three_puts = []
  ∧ hello_versions dev (quiesce three_puts) = ["v3"; "v2"; "v1"]
  ∧ length (goroutines three_streams) = 3%nat
  ∧ hello_versions dev (quiesce three_streams) = ["v3"; "v2"]
  ∧ (∀ s tenant contentType id ext content mimeType state w,
        goroutines (Put s tenant contentType id ext content mimeType
                        state w).2 = goroutines w).
Proof.
  split; [reflexivity|]. split; [reflexivity|].
  split; [vm_compute; reflexivity|]. split; [vm_compute; reflexivity|].
  split; [vm_compute; reflexivity|]. split; [vm_compute; reflexivity|].
  intros. apply Put_goroutines.
Qed.

Lemma PutObject_retains i b :
  S3.versioning b = true →
  S3.versioning (S3.PutObject i b).2 = true
  ∧ ∀ key, S3.versions_of b key
             `suffix_of` S3.versions_of (S3.PutObject i b).2 key.
Proof.
  intros Hv. unfold S3.PutObject.
  destruct (S3.object_fault b (S3.put_Key i)); simpl; [done|].
  split; [exact Hv|]. intros key. rewrite Hv.
  destruct (decide (S3.put_Key i = key)) as [<-|Hne].
  - rewrite versions_of_set_versions. by apply suffix_cons_r.
  - by rewrite versions_of_set_versions_ne.
Qed.

Lemma live_write_bucket s wr w :
  s3Client (live_write s wr w).2
  = (S3.PutObject (live_write_input s wr) (s3Client w)).2.
Proof.
  destruct wr; simpl; unfold Put, PutStream, bind, ret, s3_PutObject, spawn;
    change (default_state StateLive) with StateLive;
    destruct (S3.PutObject _ (s3Client w)) as [[e|out] b]; simpl;
    try reflexivity.
  destruct (0 <? maxVersions s); reflexivity.
Qed.

Lemma live_write_goroutines_unlimited s wr w :
  maxVersions s ≤ 0 → goroutines (live_write s wr w).2 = goroutines w.
Proof.
  intros Hmax. destruct wr; simpl.
  - apply Put_goroutines.
  - by apply PutStream_goroutines_unlimited.
Qed.

Lemma live_writes_unlimited s wrs w :
  maxVersions s ≤ 0 →
  goroutines (live_writes s wrs w).2 = goroutines w
  ∧ (S3.versioning (s3Client w) = true →
     S3.versioning (s3Client (live_writes s wrs w).2) = true
     ∧ ∀ key, S3.versions_of (s3Client w) key
                `suffix_of`
                S3.versions_of (s3Client (live_writes s wrs w).2) key).
Proof.
  intros Hmax. revert w. induction wrs as [|wr rest IH]; intros w; simpl.
  { split; [reflexivity|]. intros Hv. split; [exact Hv|]. done. }
  unfold bind.
  pose proof (live_write_goroutines_unlimited s wr w Hmax) as Hg.
  pose proof (live_write_bucket s wr w) as Hb.
  destruct (live_write s wr w) as [r w1]. simpl in Hg, Hb.
  destruct (IH w1) as [IHg IHv]. split; [congruence|].
  intros Hv.
  destruct (PutObject_retains (live_write_input s wr) (s3Client w) Hv)
    as [Hv1 Hkeep].
  rewrite <- Hb in Hv1, Hkeep.
  destruct (IHv Hv1) as [Hv2 Hkeep2]. split; [exact Hv2|].
  intros key. etrans; [apply Hkeep|apply Hkeep2].
Qed.

Lemma quiesce_idle w : goroutines w = [] → quiesce w = w.
Proof. destruct w as [b gs ls]. simpl. intros ->. reflexivity. Qed.

(** C5, as amended: a store whose [maxVersions] is non-positive retains
    every version: no sequence of live writes, through either entry point,
    queues a pruning, so nothing is left to run once the writes are done,
    and on a versioning bucket every version present before the writes is
    still there after them.  [NewS3Storage] keeps a negative configured
    [MaxVersions] as it is, so a negative configuration means unlimited
    retention; a configured zero is replaced by the default cap of ten. *)
Theorem negative_maxVersions_never_prunes :
  (∀ s wrs w,
      maxVersions s ≤ 0 →
      let w' := (live_writes s wrs w).2 in
      goroutines w' = goroutines w
      ∧ (goroutines w = [] → quiesce w' = w')
      ∧ (S3.versioning (s3Client w) = true →
         ∀ key, S3.versions_of (s3Client w) key
                  `suffix_of` S3.versions_of (s3Client w') key))
  ∧ (∀ cfg, S3Config.MaxVersions cfg < 0 →
            maxVersions (NewS3Storage cfg) = S3Config.MaxVersions cfg)
  ∧ (∀ cfg, S3Config.MaxVersions cfg = 0 →
            maxVersions (NewS3Storage cfg) = 10).
Proof.
  split; [|split].
  - intros s wrs w Hmax w'.
    destruct (live_writes_unlimited s wrs w Hmax) as [Hg Hv].
    split; [exact Hg|]. split.
    + intros Hidle. apply quiesce_idle. subst w'. congruence.
    + intros Hver. apply (Hv Hver).
  - intros cfg Hneg. unfold NewS3Storage. simpl.
    destruct (S3Config.MaxVersions cfg =? 0) eqn:Hz; [|reflexivity].
    apply Z.eqb_eq in Hz. lia.
  - intros cfg Hzero. unfold NewS3Storage. simpl. rewrite Hzero. reflexivity.
Qed.

Lemma negative_maxVersions_never_prunes_witness :
  S3Config.MaxVersions (config 0) = 0
  ∧ maxVersions (NewS3Storage (config 0)) = 10
  ∧ S3Config.MaxVersions (config (-1)) < 0
  ∧ maxVersions (NewS3Storage (config (-1))) ≤ 0
  ∧ goroutines (eleven_streams (config (-1))) = []
  ∧ quiesce (eleven_streams (config (-1))) = eleven_streams (config (-1))
  ∧ length (hello_versions (NewS3Storage (config (-1)))
                           (quiesce (eleven_streams (config (-1)))))
    = 11%nat.
Proof.
  split; [reflexivity|].
  split;
    [exact (proj2 (proj2 negative_maxVersions_never_prunes) (config 0)
              eq_refl)|].
  assert (Hneg : S3Config.MaxVersions (config (-1)) < 0) by (simpl; lia).
  split; [exact Hneg|].
  assert (Hmax : maxVersions (NewS3Storage (config (-1))) ≤ 0).
  { rewrite (proj1 (proj2 negative_maxVersions_never_prunes) (config (-1))
               Hneg).
    simpl. lia. }
  split; [exact Hmax|].
  destruct (proj1 negative_maxVersions_never_prunes
              (NewS3Storage (config (-1)))
              (replicate 11 (ViaPutStream "demo" "articles" "hello" "json"
                               (bytes "{}") 2 "application/json" None))
              (new_world (empty_bucket true)) Hmax)
    as (Hg & Hq & _).
  split; [exact Hg|]. split; [exact (Hq eq_refl)|].
  vm_compute. reflexivity.
Defined.

(** C5 as stated fails at zero: configured with [MaxVersions = 0] the store
    caps at ten, eleven streamed live writes leave eleven versions and
    eleven queued prunings, and once these have run the oldest version is
    gone. *)
Lemma zero_maxVersions_prunes :
  S3Config.MaxVersions (config 0) ≤ 0
  ∧ length (hello_versions (NewS3Storage (config 0))
                           (eleven_streams (config 0))) = 11%nat
  ∧ hello_versions (NewS3Storage (config 0))
                   (quiesce (eleven_streams (config 0)))
    = ["v11"; "v10"; "v9"; "v8"; "v7"; "v6"; "v5"; "v4"; "v3"; "v2"]
  ∧ LogDebug
      "Pruned old version v1 of development/tenants/demo/content/articles/hello.json"
    ∈ logs (quiesce (eleven_streams (config 0))).
Proof.
  split; [simpl; lia|]. split; [vm_compute; reflexivity|].
  split; [vm_compute; reflexivity|].
  apply list_elem_of_In. vm_compute. left. reflexivity.
Qed.

(** ** Listing and existence *)

Lemma append_assoc (a b c : string) : (a +:+ b) +:+ c = a +:+ (b +:+ c).
Proof.
  induction a as [|x a IH]; [reflexivity|].
  change (String x ((a +:+ b) +:+ c) = String x (a +:+ (b +:+ c))).
  by rewrite IH.
Qed.

Lemma Contains_append a b sub :
  String.prefix sub b = true → GoStrings.Contains (a +:+ b) sub = true.
Proof.
  intros Hb. induction a as [|x a IH].
  - change ("" +:+ b) with b. destruct b; simpl in *; rewrite Hb; reflexivity.
  - change (String x a +:+ b) with (String x (a +:+ b)). simpl.
    rewrite IH. apply orb_true_r.
Qed.

(** What [List] does exclude from a live listing: every key that continues
    the type directory with [_draft/] or [_pending/]. *)
Lemma List_live_excludes_state_dirs s tenant contentType w items item rel :
  (List s tenant contentType StateLive w).1 = inr items →
  item ∈ items →
  ContentItem.Key item
    = contentPrefix s tenant contentType StateLive +:+ rel →
  String.prefix "_draft/" rel = false
  ∧ String.prefix "_pending/" rel = false.
Proof.
  unfold List, bind, ret, s3_ListObjectsV2.
  change (default_state StateLive) with StateLive.
  destruct (S3.ListObjectsV2 _ None (s3Client w)) as [e|contents]; simpl;
    [discriminate|].
  intros [= <-] Hin Hkey.
  apply list_elem_of_omap in Hin as (obj & _ & Hobj).
  unfold list_item in Hobj.
  rewrite bool_decide_eq_true_2 in Hobj by reflexivity. simpl in Hobj.
  destruct (GoStrings.Contains (default "" (S3.obj_Key obj)) "/_draft/"
            || GoStrings.Contains (default "" (S3.obj_Key obj)) "/_pending/")
    eqn:Hskip; [discriminate|].
  injection Hobj as <-. simpl in Hkey.
  apply orb_false_elim in Hskip as [Hd Hp].
  unfold contentPrefix in Hkey.
  rewrite decide_True in Hkey by (by left).
  rewrite append_assoc in Hkey. rewrite Hkey in Hd, Hp.
  split.
  - destruct (String.prefix "_draft/" rel) eqn:Hrel; [|reflexivity].
    rewrite Contains_append in Hd; [discriminate|]. simpl. exact Hrel.
  - destruct (String.prefix "_pending/" rel) eqn:Hrel; [|reflexivity].
    rewrite Contains_append in Hp; [discriminate|]. simpl. exact Hrel.
Qed.

(** C6 at the failing input: with a live item, its history record, a draft
    and a comment on the draft in one type directory, the live listing
    leaves out the draft and the comment but returns the history record,
    whose path under the type directory begins with [_history/]. *)
Theorem List_live_returns_history_records :
  listed_keys (List dev "demo" "articles" StateLive world_published).1
  = [contentPrefix dev "demo" "articles" StateLive
       +:+ "_history/hello/v1.json";
     contentPrefix dev "demo" "articles" StateLive +:+ "hello.json"]
  ∧ historyKey dev "demo" "articles" "hello" "v1"
    = contentPrefix dev "demo" "articles" StateLive
        +:+ "_history/hello/v1.json"
  ∧ String.prefix "_history/" "_history/hello/v1.json" = true
  ∧ listed_keys (List dev "demo" "articles" StateDraft world_published).1
    = [contentPrefix dev "demo" "articles" StateDraft
         +:+ "_comments/next/c1.json";
       contentPrefix dev "demo" "articles" StateDraft +:+ "next.json"].
Proof. repeat split; vm_compute; reflexivity. Qed.

(** C7, as amended: [Exists] never returns an error and never changes the
    world; it answers [true] when the HEAD on the key succeeds and [false]
    on every HEAD error, the backend's "not found" and any other alike. *)
Theorem Exists_maps_every_error_to_false s tenant contentType id ext
    state w :
  Exists s tenant contentType id ext state w
  = (inr (match S3.HeadObject
                  (contentKey s tenant contentType id ext
                              (default_state state)) (s3Client w) with
          | inr _ => true
          | inl _ => false
          end), w).
Proof.
  unfold Exists, bind, ret, s3_HeadObject.
  destruct (S3.HeadObject _ (s3Client w)); reflexivity.
Qed.

(** C7 as stated fails: the object is there, the HEAD is refused with an
    access-denied error, which is not the backend's "not found", and
    [Exists] reports absence with no error. *)
Lemma Exists_swallows_access_denied :
  S3.HeadObject (contentKey dev "demo" "articles" "hello" "json" StateLive)
                (s3Client world_denied) = inl S3.AccessDenied
  ∧ S3.AccessDenied ≠ S3.NotFound
  ∧ S3.versions_of (s3Client world_denied)
      (contentKey dev "demo" "articles" "hello" "json" StateLive) ≠ []
  ∧ Exists dev "demo" "articles" "hello" "json" StateLive world_denied
    = (inr false, world_denied).
Proof.
  split; [vm_compute; reflexivity|]. split; [discriminate|].
  split; [vm_compute; discriminate|].
  vm_compute. reflexivity.
Qed.

(** ** The extension resolver *)

Lemma LastIndex_no_dot id :
  GoStrings.Contains id "." = false → GoStrings.LastIndex id "." = -1.
Proof.
  induction id as [|c id IH]; [reflexivity|].
  simpl. intros Hno. apply orb_false_elim in Hno as [Hhere Hrest].
  rewrite (IH Hrest). simpl. rewrite Hhere. reflexivity.
Qed.

Lemma HasSuffix_json_nonempty key :
  GoStrings.HasSuffix key ".json" = true → key ≠ "".
Proof. intros Hs ->. discriminate. Qed.

Lemma pick_bestKey_cons bestKey obj rest :
  pick_bestKey bestKey (obj :: rest)
  = let key := default "" (S3.obj_Key obj) in
    if negb (GoStrings.HasSuffix key ".json") then key
    else pick_bestKey (if decide (bestKey = "") then key else bestKey) rest.
Proof. reflexivity. Qed.

Lemma pick_bestKey_kept bestKey contents :
  bestKey ≠ "" →
  pick_bestKey bestKey contents
  = match List.find (λ key, negb (GoStrings.HasSuffix key ".json"))
                    ((λ obj, default "" (S3.obj_Key obj)) <$> contents) with
    | Some key => key
    | None => bestKey
    end.
Proof.
  intros Hne. induction contents as [|obj rest IH]; [reflexivity|].
  rewrite pick_bestKey_cons. cbv zeta. rewrite decide_False by exact Hne.
  rewrite fmap_cons. cbn [List.find].
  destruct (negb (GoStrings.HasSuffix (default "" (S3.obj_Key obj)) ".json"));
    [reflexivity|exact IH].
Qed.

Lemma pick_bestKey_preferred contents :
  pick_bestKey "" contents = preferred_key contents.
Proof.
  unfold preferred_key. destruct contents as [|obj rest]; [reflexivity|].
  rewrite pick_bestKey_cons. cbv zeta. rewrite decide_True by reflexivity.
  rewrite fmap_cons. cbn [List.find head default].
  destruct (GoStrings.HasSuffix (default "" (S3.obj_Key obj)) ".json")
    eqn:Hjson; cbn [negb]; [|reflexivity].
  apply pick_bestKey_kept. by apply HasSuffix_json_nonempty.
Qed.

Lemma ListObjectsV2_capped prefix n b contents :
  0 ≤ n →
  S3.ListObjectsV2 prefix (Some n) b = inr contents →
  Z.of_nat (length contents) ≤ n.
Proof.
  intros Hn. unfold S3.ListObjectsV2.
  destruct (S3.list_fault b prefix); [discriminate|].
  intros [= <-]. rewrite length_take. lia.
Qed.

Lemma find_by_listing_eq s tenant contentType id state w contents :
  S3.ListObjectsV2
    (contentPrefix s tenant contentType state +:+ id +:+ ".")
    (Some 10) (s3Client w) = inr contents →
  find_by_listing s tenant contentType id state w
  = match contents with
    | [] => (inl (ContentNotFound id), w)
    | _ :: _ => getStreamByKey s (preferred_key contents) "" w
    end.
Proof.
  intros Hlist. unfold find_by_listing, bind, ret, s3_ListObjectsV2.
  rewrite Hlist. destruct contents as [|obj rest]; [reflexivity|].
  rewrite <- pick_bestKey_preferred. reflexivity.
Qed.

(** What a listing returns is there: every listed object is the current
    object of a key under the prefix. *)
Lemma ListObjectsV2_listed prefix maxKeys b contents obj :
  S3.ListObjectsV2 prefix maxKeys b = inr contents →
  obj ∈ contents →
  ∃ key ov older,
    S3.obj_Key obj = Some key
    ∧ String.prefix prefix key = true
    ∧ S3.objects b !! key = Some (ov :: older)
    ∧ S3.ov_IsDeleteMarker ov = false.
Proof.
  unfold S3.ListObjectsV2.
  destruct (S3.list_fault b prefix); [discriminate|].
  intros [= <-] Hin.
  assert (Hall : obj ∈ S3.object_of
                         <$> filter (λ kv, S3.is_current kv = true)
                                    (S3.entries_under prefix b)).
  { destruct maxKeys as [n|]; [|exact Hin].
    by apply subseteq_take in Hin. }
  apply list_elem_of_fmap in Hall as ([key vs] & -> & Hkv).
  apply list_elem_of_filter in Hkv as [Hcur Hkv].
  apply entries_under_elem in Hkv as [Hpre Hobj]. cbn [fst snd] in *.
  unfold S3.is_current in Hcur. cbn [snd] in Hcur.
  destruct vs as [|ov older]; [discriminate|].
  exists key, ov, older. split; [reflexivity|]. split; [exact Hpre|].
  split; [exact Hobj|]. by destruct (S3.ov_IsDeleteMarker ov).
Qed.

(** The preferred key is the key of one of the candidates. *)
Lemma preferred_key_listed obj rest :
  ∃ chosen, chosen ∈ obj :: rest
            ∧ preferred_key (obj :: rest) = default "" (S3.obj_Key chosen).
Proof.
  unfold preferred_key. cbv zeta.
  destruct (List.find _ _) as [key|] eqn:Hfind.
  - apply List.find_some in Hfind as [Hin _].
    apply list_elem_of_In, list_elem_of_fmap in Hin as (chosen & -> & Hin).
    by exists chosen.
  - exists obj. split; [by left|reflexivity].
Qed.

(** The stream [getStreamByKey] hands out for the current object of a
    key. *)
Lemma getStreamByKey_current s key w ov older :
  S3.objects (s3Client w) !! key = Some (ov :: older) →
  S3.ov_IsDeleteMarker ov = false →
  getStreamByKey s key "" w
  = (match S3.object_fault (s3Client w) key with
     | Some e => inl (Wrapf "failed to get object" (SDK e))
     | None =>
         inr {| ContentStream.Key := key;
                ContentStream.Body :=
                  {| S3.rc_data := S3.ov_Body ov;
                     S3.rc_err := S3.body_fault (s3Client w) key |};
                ContentStream.ContentType :=
                  default "application/octet-stream" (S3.ov_ContentType ov);
                ContentStream.VersionID := default "" (S3.ov_VersionId ov);
                ContentStream.LastModified := S3.ov_LastModified ov;
                ContentStream.Size := Z.of_nat (length (S3.ov_Body ov));
                ContentStream.ETag := S3.ov_ETag ov;
                ContentStream.Metadata := S3.ov_Metadata ov |}
     end, w).
Proof.
  intros Hobj Hdm. unfold getStreamByKey. unfold_M.
  change (nonempty "") with (@None string).
  unfold S3.GetObject, S3.versions_of. rewrite Hobj.
  destruct (S3.object_fault (s3Client w) key); [reflexivity|].
  cbn [S3.select_version head default from_option id]. rewrite Hdm.
  reflexivity.
Qed.

(** C8: for an id without a dot, when no hint is given or the hinted key
    cannot be read, [FindContentStream] lists the prefix
    [<contentPrefix><id>.] with a cap of ten results.  On an empty listing
    it fails with the not-found error.  Otherwise it settles on the first
    listed key that does not end in [.json], or on the first listed key
    when all of them do; that key holds a current object under the prefix,
    and the result is the stream of that object: its body, content type,
    version, date, size, tag and metadata under the chosen key (or the
    wrapped error of the service when reads of that key fail). *)
Theorem FindContentStream_prefers_non_json s tenant contentType id extHint
    state w contents :
  GoStrings.Contains id "." = false →
  (extHint = ""
   ∨ ∃ err, (getStreamByKey s
               (contentKey s tenant contentType id extHint
                           (default_state state)) "" w).1 = inl err) →
  S3.ListObjectsV2
    (contentPrefix s tenant contentType (default_state state)
       +:+ id +:+ ".")
    (Some 10) (s3Client w) = inr contents →
  (length contents ≤ 10)%nat
  ∧ match contents with
    | [] =>
        FindContentStream s tenant contentType id extHint state w
        = (inl (ContentNotFound id), w)
    | _ :: _ =>
        let key := preferred_key contents in
        ∃ ov older,
          String.prefix
            (contentPrefix s tenant contentType (default_state state)
               +:+ id +:+ ".") key = true
          ∧ S3.objects (s3Client w) !! key = Some (ov :: older)
          ∧ S3.ov_IsDeleteMarker ov = false
          ∧ FindContentStream s tenant contentType id extHint state w
            = (match S3.object_fault (s3Client w) key with
               | Some e => inl (Wrapf "failed to get object" (SDK e))
               | None =>
                   inr {| ContentStream.Key := key;
                          ContentStream.Body :=
                            {| S3.rc_data := S3.ov_Body ov;
                               S3.rc_err :=
                                 S3.body_fault (s3Client w) key |};
                          ContentStream.ContentType :=
                            default "application/octet-stream"
                                    (S3.ov_ContentType ov);
                          ContentStream.VersionID :=
                            default "" (S3.ov_VersionId ov);
                          ContentStream.LastModified :=
                            S3.ov_LastModified ov;
                          ContentStream.Size :=
                            Z.of_nat (length (S3.ov_Body ov));
                          ContentStream.ETag := S3.ov_ETag ov;
                          ContentStream.Metadata := S3.ov_Metadata ov |}
               end, w)
    end.
Proof.
  intros Hbare Hhint Hlist. split.
  { apply ListObjectsV2_capped in Hlist; lia. }
  assert (Hfind : FindContentStream s tenant contentType id extHint state w
                  = find_by_listing s tenant contentType id
                                    (default_state state) w).
  { unfold FindContentStream.
    rewrite (LastIndex_no_dot _ Hbare). simpl.
    destruct Hhint as [->|[err Herr]]; [reflexivity|].
    destruct (String.eqb extHint ""); simpl; [reflexivity|].
    unfold bind.
    pose proof (getStreamByKey_readonly s
                  (contentKey s tenant contentType id extHint
                              (default_state state)) "" w) as Hro.
    destruct (getStreamByKey s _ "" w) as [r w1]. simpl in *.
    by subst r w1. }
  rewrite Hfind, (find_by_listing_eq _ _ _ _ _ _ _ Hlist).
  destruct contents as [|obj rest]; [reflexivity|]. cbv zeta.
  destruct (preferred_key_listed obj rest) as (chosen & Hin & Hkey).
  destruct (ListObjectsV2_listed _ _ _ _ _ Hlist Hin)
    as (key & ov & older & Hname & Hpre & Hobj & Hdm).
  rewrite Hname in Hkey. simpl in Hkey.
  rewrite Hkey. exists ov, older.
  split; [exact Hpre|]. split; [exact Hobj|]. split; [exact Hdm|].
  by apply (getStreamByKey_current s key w ov older).
Qed.

Lemma FindContentStream_prefers_non_json_witness :
  GoStrings.Contains "logo" "." = false
  ∧ S3.ListObjectsV2
      (contentPrefix dev "demo" "images" (default_state StateLive)
         +:+ "logo" +:+ ".")
      (Some 10) (s3Client world_logo)
    = inr [{| S3.obj_Key :=
                Some "development/tenants/demo/content/images/logo.json";
              S3.obj_Size := Some 2; S3.obj_LastModified := Some 1;
              S3.obj_ETag := Some "etag-1" |};
           {| S3.obj_Key :=
                Some "development/tenants/demo/content/images/logo.png";
              S3.obj_Size := Some 3; S3.obj_LastModified := Some 2;
              S3.obj_ETag := Some "etag-2" |}]
  ∧ FindContentStream dev "demo" "images" "logo" "" StateLive world_logo
    = (inr {| ContentStream.Key :=
                "development/tenants/demo/content/images/logo.png";
              ContentStream.Body :=
                {| S3.rc_data := bytes "PNG"; S3.rc_err := None |};
              ContentStream.ContentType := "image/png";
              ContentStream.VersionID := "v2";
              ContentStream.LastModified := 2;
              ContentStream.Size := 3;
              ContentStream.ETag := "etag-2";
              ContentStream.Metadata := None |}, world_logo).
Proof.
  assert (Hbare : GoStrings.Contains "logo" "." = false) by reflexivity.
  assert (Hlist :
    S3.ListObjectsV2
      (contentPrefix dev "demo" "images" (default_state StateLive)
         +:+ "logo" +:+ ".")
      (Some 10) (s3Client world_logo)
    = inr [{| S3.obj_Key :=
                Some "development/tenants/demo/content/images/logo.json";
              S3.obj_Size := Some 2; S3.obj_LastModified := Some 1;
              S3.obj_ETag := Some "etag-1" |};
           {| S3.obj_Key :=
                Some "development/tenants/demo/content/images/logo.png";
              S3.obj_Size := Some 3; S3.obj_LastModified := Some 2;
              S3.obj_ETag := Some "etag-2" |}])
    by (vm_compute; reflexivity).
  split; [exact Hbare|]. split; [exact Hlist|].
  destruct (FindContentStream_prefers_non_json dev "demo" "images" "logo"
              "" StateLive world_logo _ Hbare (or_introl eq_refl) Hlist)
    as (_ & ov & older & _ & Hobj & _ & Hrun).
  set (chosen := preferred_key _) in Hobj, Hrun.
  assert (Hchosen : chosen
                    = "development/tenants/demo/content/images/logo.png")
    by (vm_compute; reflexivity).
  rewrite Hchosen in Hobj, Hrun. clear chosen Hchosen.
  assert (Hstored :
    S3.objects (s3Client world_logo)
      !! "development/tenants/demo/content/images/logo.png"
    = Some [{| S3.ov_VersionId := Some "v2";
               S3.ov_IsDeleteMarker := false;
               S3.ov_Body := bytes "PNG";
               S3.ov_ContentType := Some "image/png";
               S3.ov_Metadata := None;
               S3.ov_LastModified := 2;
               S3.ov_ETag := "etag-2" |}])
    by (vm_compute; reflexivity).
  rewrite Hstored in Hobj. injection Hobj as <- <-.
  assert (Hserved :
    S3.object_fault (s3Client world_logo)
      "development/tenants/demo/content/images/logo.png" = None)
    by (vm_compute; reflexivity).
  assert (Hbody :
    S3.body_fault (s3Client world_logo)
      "development/tenants/demo/content/images/logo.png" = None)
    by (vm_compute; reflexivity).
  rewrite Hserved, Hbody in Hrun. exact Hrun.
Defined.

(** ** The schema registry *)


(** [GetSchema] in one equation: the tenant read decides, the global read
    is the fallback, and no read changes the world. *)
Lemma GetSchema_eq s tenant schemaName w :
  GetSchema s tenant schemaName w
  = (match (getByKey s (tenantSchemaKey s tenant schemaName) "" w).1 with
     | inr item => inr (schema_of schemaName item false)
     | inl _ =>
         match (getByKey s (globalSchemaKey s schemaName) "" w).1 with
         | inr item => inr (schema_of schemaName item true)
         | inl _ => inl (SchemaNotFound schemaName)
         end
     end, w).
Proof.
  unfold GetSchema, bind, ret.
  pose proof (getByKey_readonly s (tenantSchemaKey s tenant schemaName) "" w)
    as Hro.
  destruct (getByKey s (tenantSchemaKey s tenant schemaName) "" w)
    as [[e|item] w1]; simpl in *; subst w1; [|reflexivity].
  pose proof (getByKey_readonly s (globalSchemaKey s schemaName) "" w)
    as Hro.
  destruct (getByKey s (globalSchemaKey s schemaName) "" w)
    as [[e'|item] w1]; simpl in *; subst w1; reflexivity.
Qed.

Lemma put_json_then_getByKey s key data w :
  S3.faults (s3Client w) !! key = None →
  ∃ out w' item,
    put_json key data w = (inr out, w')
    ∧ getByKey s key "" w' = (inr item, w')
    ∧ ContentItem.Content item = data.
Proof.
  intros Hok.
  set (input := {| S3.put_Key := key; S3.put_Body := data;
                   S3.put_ContentLength := None;
                   S3.put_ContentType := Some "application/json";
                   S3.put_Metadata := None |}).
  destruct (PutObject_then_GetObject input (s3Client w) Hok)
    as (out & b' & got & Hput & Hget & Hbody & _).
  unfold put_json, getByKey, bind, ret, s3_PutObject, s3_GetObject.
  fold input. rewrite Hput. simpl in *.
  eexists _, _, _. split; [reflexivity|].
  unfold nonempty. simpl. rewrite Hget.
  unfold io_ReadAll. rewrite Hbody. simpl. split; reflexivity.
Qed.

(** C9: [GetSchema] reads the tenant key first.  When a tenant schema of
    that name exists (a current object on a key served without fault), it
    is the answer, with [IsGlobal = false] and the tenant content alone,
    whatever the global key holds; when the tenant key is absent and the
    global schema exists, that one is the answer with [IsGlobal = true];
    when both keys are absent the lookup fails.  In particular a tenant
    schema written after a global one of the same name is what [GetSchema]
    returns. *)
Theorem GetSchema_tenant_shadows_global s tenant schemaName :
  (∀ w ov older,
      S3.faults (s3Client w) !! tenantSchemaKey s tenant schemaName = None →
      S3.objects (s3Client w) !! tenantSchemaKey s tenant schemaName
        = Some (ov :: older) →
      S3.ov_IsDeleteMarker ov = false →
      GetSchema s tenant schemaName w
      = (inr {| Schema.Name := schemaName;
                Schema.Content := S3.ov_Body ov;
                Schema.IsGlobal := false |}, w))
  ∧ (∀ w ov older,
        S3.GetObject (tenantSchemaKey s tenant schemaName) None (s3Client w)
          = inl S3.NoSuchKey →
        S3.faults (s3Client w) !! globalSchemaKey s schemaName = None →
        S3.objects (s3Client w) !! globalSchemaKey s schemaName
          = Some (ov :: older) →
        S3.ov_IsDeleteMarker ov = false →
        GetSchema s tenant schemaName w
        = (inr {| Schema.Name := schemaName;
                  Schema.Content := S3.ov_Body ov;
                  Schema.IsGlobal := true |}, w))
  ∧ (∀ w,
        S3.GetObject (tenantSchemaKey s tenant schemaName) None (s3Client w)
          = inl S3.NoSuchKey →
        S3.GetObject (globalSchemaKey s schemaName) None (s3Client w)
          = inl S3.NoSuchKey →
        GetSchema s tenant schemaName w
        = (inl (SchemaNotFound schemaName), w))
  ∧ (∀ w X Y,
        S3.faults (s3Client w) !! tenantSchemaKey s tenant schemaName
          = None →
        let w1 := (PutGlobalSchema s schemaName X w).2 in
        let w2 := (PutTenantSchema s tenant schemaName Y w1).2 in
        GetSchema s tenant schemaName w2
        = (inr {| Schema.Name := schemaName; Schema.Content := Y;
                  Schema.IsGlobal := false |}, w2)).
Proof.
  assert (Habsent : ∀ key w,
    S3.GetObject key None (s3Client w) = inl S3.NoSuchKey →
    (getByKey s key "" w).1 = inl (Wrapf "failed to get object"
                                         (SDK S3.NoSuchKey))).
  { intros key w Hget. unfold getByKey, bind, ret, s3_GetObject, nonempty.
    simpl. rewrite Hget. reflexivity. }
  assert (Hpresent : ∀ key w ov older,
    S3.faults (s3Client w) !! key = None →
    S3.objects (s3Client w) !! key = Some (ov :: older) →
    S3.ov_IsDeleteMarker ov = false →
    (getByKey s key "" w).1
    = inr (item_of_output key (S3.ov_Body ov)
             (S3.output_of (s3Client w) key ov))).
  { intros key w ov older Hok Hobj Hdm.
    apply (getByKey_healthy s key w _ Hok). by exists ov, older. }
  split; [|split; [|split]].
  - intros w ov older Hok Hobj Hdm.
    rewrite GetSchema_eq, (Hpresent _ _ _ _ Hok Hobj Hdm). reflexivity.
  - intros w ov older Htenant Hok Hobj Hdm.
    rewrite GetSchema_eq, (Habsent _ _ Htenant),
      (Hpresent _ _ _ _ Hok Hobj Hdm).
    reflexivity.
  - intros w Htenant Hglobal.
    rewrite GetSchema_eq, (Habsent _ _ Htenant), (Habsent _ _ Hglobal).
    reflexivity.
  - intros w X Y Hok w1 w2.
    assert (Hok1 : S3.faults (s3Client w1)
                     !! tenantSchemaKey s tenant schemaName = None).
    { subst w1. unfold PutGlobalSchema, put_json, bind, ret, s3_PutObject,
        S3.PutObject.
      destruct (S3.object_fault (s3Client w) _); simpl; exact Hok. }
    destruct (put_json_then_getByKey s _ Y w1 Hok1)
      as (out & w' & item & Hput & Hread & Hcontent).
    assert (Hw2 : w2 = w').
    { subst w2. unfold PutTenantSchema, bind, ret. rewrite Hput.
      reflexivity. }
    rewrite Hw2, GetSchema_eq, Hread. simpl.
    unfold schema_of. rewrite Hcontent. reflexivity.
Qed.

Lemma GetSchema_tenant_shadows_global_witness :
  S3.faults (s3Client (new_world (empty_bucket true)))
    !! tenantSchemaKey dev "demo" "article" = None
  ∧ (let w1 := (PutGlobalSchema dev "article" (bytes "X")
                                (new_world (empty_bucket true))).2 in
     let w2 := (PutTenantSchema dev "demo" "article" (bytes "Y") w1).2 in
     GetSchema dev "demo" "article" w2
     = (inr {| Schema.Name := "article"; Schema.Content := bytes "Y";
               Schema.IsGlobal := false |}, w2))
  ∧ S3.faults (s3Client world_schemas)
      !! tenantSchemaKey dev "demo" "article" = None
  ∧ GetSchema dev "demo" "article" world_schemas
    = (inr {| Schema.Name := "article"; Schema.Content := bytes "Y";
              Schema.IsGlobal := false |}, world_schemas)
  ∧ S3.GetObject (tenantSchemaKey dev "other" "article") None
                 (s3Client world_schemas) = inl S3.NoSuchKey
  ∧ GetSchema dev "other" "article" world_schemas
    = (inr {| Schema.Name := "article"; Schema.Content := bytes "X";
              Schema.IsGlobal := true |}, world_schemas)
  ∧ S3.GetObject (globalSchemaKey dev "page") None (s3Client world_schemas)
    = inl S3.NoSuchKey
  ∧ GetSchema dev "demo" "page" world_schemas
    = (inl (SchemaNotFound "page"), world_schemas).
Proof.
  assert (Hok : S3.faults (s3Client (new_world (empty_bucket true)))
                  !! tenantSchemaKey dev "demo" "article" = None)
    by (vm_compute; reflexivity).
  assert (Hother : S3.GetObject (tenantSchemaKey dev "other" "article") None
                     (s3Client world_schemas) = inl S3.NoSuchKey)
    by (vm_compute; reflexivity).
  assert (Hpage : S3.GetObject (globalSchemaKey dev "page") None
                    (s3Client world_schemas) = inl S3.NoSuchKey)
    by (vm_compute; reflexivity).
  assert (Hpage' : S3.GetObject (tenantSchemaKey dev "demo" "page") None
                     (s3Client world_schemas) = inl S3.NoSuchKey)
    by (vm_compute; reflexivity).
  assert (Hhealthy : S3.faults (s3Client world_schemas)
                       !! globalSchemaKey dev "article" = None)
    by (vm_compute; reflexivity).
  assert (Hglobal : ∃ ov,
            S3.objects (s3Client world_schemas)
              !! globalSchemaKey dev "article" = Some [ov]
            ∧ S3.ov_IsDeleteMarker ov = false
            ∧ S3.ov_Body ov = bytes "X")
    by (eexists; split; [vm_compute; reflexivity|split; reflexivity]).
  assert (Hhealthy' : S3.faults (s3Client world_schemas)
                        !! tenantSchemaKey dev "demo" "article" = None)
    by (vm_compute; reflexivity).
  assert (Htenant : ∃ ov,
            S3.objects (s3Client world_schemas)
              !! tenantSchemaKey dev "demo" "article" = Some [ov]
            ∧ S3.ov_IsDeleteMarker ov = false
            ∧ S3.ov_Body ov = bytes "Y")
    by (eexists; split; [vm_compute; reflexivity|split; reflexivity]).
  split; [exact Hok|]. split.
  { exact (proj2 (proj2 (proj2
             (GetSchema_tenant_shadows_global dev "demo" "article")))
             (new_world (empty_bucket true)) (bytes "X") (bytes "Y") Hok). }
  split; [exact Hhealthy'|]. split.
  { destruct Htenant as (ov & Hobj & Hdm & Hbody). rewrite <- Hbody.
    exact (proj1 (GetSchema_tenant_shadows_global dev "demo" "article")
             world_schemas ov [] Hhealthy' Hobj Hdm). }
  split; [exact Hother|]. split.
  { destruct Hglobal as (ov & Hobj & Hdm & Hbody). rewrite <- Hbody.
    exact (proj1 (proj2 (GetSchema_tenant_shadows_global dev "other"
                           "article"))
             world_schemas ov [] Hother Hhealthy Hobj Hdm). }
  split; [exact Hpage|].
  exact (proj1 (proj2 (proj2 (GetSchema_tenant_shadows_global dev "demo"
                                "page"))) world_schemas Hpage' Hpage).
Defined.

(** C10: [GetSchema] falls back to the global schema on any error of the
    tenant read, absence or not, and serves the global schema with
    [IsGlobal = true]; when both reads fail, whatever the two errors are,
    the caller gets the same schema-not-found error. *)
Theorem GetSchema_falls_back_on_any_error s tenant schemaName w :
  (∀ err item,
      (getByKey s (tenantSchemaKey s tenant schemaName) "" w).1 = inl err →
      (getByKey s (globalSchemaKey s schemaName) "" w).1 = inr item →
      GetSchema s tenant schemaName w
      = (inr {| Schema.Name := schemaName;
                Schema.Content := ContentItem.Content item;
                Schema.IsGlobal := true |}, w))
  ∧ (∀ err1 err2,
        (getByKey s (tenantSchemaKey s tenant schemaName) "" w).1
          = inl err1 →
        (getByKey s (globalSchemaKey s schemaName) "" w).1 = inl err2 →
        GetSchema s tenant schemaName w
        = (inl (SchemaNotFound schemaName), w)).
Proof.
  split.
  - intros err item Htenant Hglobal.
    rewrite GetSchema_eq, Htenant, Hglobal. reflexivity.
  - intros err1 err2 Htenant Hglobal.
    rewrite GetSchema_eq, Htenant, Hglobal. reflexivity.
Qed.

Lemma GetSchema_falls_back_on_any_error_witness :
  (getByKey dev (tenantSchemaKey dev "demo" "article") "" world_schema_fault).1
    = inl (Wrapf "failed to get object" (SDK S3.AccessDenied))
  ∧ S3.versions_of (s3Client world_schema_fault)
      (tenantSchemaKey dev "demo" "article") ≠ []
  ∧ GetSchema dev "demo" "article" world_schema_fault
    = (inr {| Schema.Name := "article"; Schema.Content := bytes "X";
              Schema.IsGlobal := true |}, world_schema_fault)
  ∧ (getByKey dev (globalSchemaKey dev "article") "" world_schema_outage).1
    = inl (Wrapf "failed to read object body" (SDK S3.RequestTimeout))
  ∧ GetSchema dev "demo" "article" world_schema_outage
    = (inl (SchemaNotFound "article"), world_schema_outage).
Proof.
  assert (Hdenied :
    (getByKey dev (tenantSchemaKey dev "demo" "article") ""
              world_schema_fault).1
    = inl (Wrapf "failed to get object" (SDK S3.AccessDenied)))
    by (vm_compute; reflexivity).
  assert (Hdenied' :
    (getByKey dev (tenantSchemaKey dev "demo" "article") ""
              world_schema_outage).1
    = inl (Wrapf "failed to get object" (SDK S3.AccessDenied)))
    by (vm_compute; reflexivity).
  assert (Htimeout :
    (getByKey dev (globalSchemaKey dev "article") "" world_schema_outage).1
    = inl (Wrapf "failed to read object body" (SDK S3.RequestTimeout)))
    by (vm_compute; reflexivity).
  split; [exact Hdenied|]. split; [vm_compute; discriminate|]. split.
  { assert (Hglobal : ∃ item,
              (getByKey dev (globalSchemaKey dev "article") ""
                        world_schema_fault).1 = inr item
              ∧ ContentItem.Content item = bytes "X")
      by (eexists; split; vm_compute; reflexivity).
    destruct Hglobal as (item & Hread & Hcontent). rewrite <- Hcontent.
    exact (proj1 (GetSchema_falls_back_on_any_error dev "demo" "article"
                    world_schema_fault) _ item Hdenied Hread). }
  split; [exact Htimeout|].
  exact (proj2 (GetSchema_falls_back_on_any_error dev "demo" "article"
                  world_schema_outage) _ _ Hdenied' Htimeout).
Defined.

(** ** Scenarios *)

(** A draft submitted for review and rejected is back in draft, and the
    pending copy is gone. *)
Example reject_cycle :
  let w1 := (Transition (H := example_codec) dev "demo" "articles" "hello"
                        "json" StateDraft StatePending world_draft).2 in
  let w2 := (Transition (H := example_codec) dev "demo" "articles" "hello"
                        "json" StatePending StateDraft w1).2 in
  (Get dev "demo" "articles" "hello" "json" StatePending w2).1
    = inl (Wrapf "failed to get object" (SDK S3.NoSuchKey))
  ∧ content_of (Get dev "demo" "articles" "hello" "json" StateDraft w2).1
    = Some (bytes "{}").
Proof. split; vm_compute; reflexivity. Qed.

(** Once the comment is gone the draft can be published, and nothing is
    left in the draft state. *)
Example publish_after_cleanup :
  let w1 := (DeleteComment dev "demo" "articles" "hello" StateDraft "c1"
                           world_commented).2 in
  let w2 := (Transition (H := example_codec) dev "demo" "articles" "hello"
                        "json" StateDraft StateLive w1).2 in
  content_of (Get dev "demo" "articles" "hello" "json" StateLive w2).1
    = Some (bytes "{}")
  ∧ (Get dev "demo" "articles" "hello" "json" StateDraft w2).1
    = inl (Wrapf "failed to get object" (SDK S3.NoSuchKey))
  ∧ (ListComments (H := example_codec) dev "demo" "articles" "hello"
                  StateDraft w2).1 = inr [].
Proof. repeat split; vm_compute; reflexivity. Qed.

(** An id that carries its extension is resolved without any listing, and
    a hint that matches is used as it is. *)
Example resolve_with_extension :
  FindContentStream dev "demo" "images" "logo.png" "" StateLive world_logo
  = getStreamByKey dev "development/tenants/demo/content/images/logo.png"
                   "" world_logo
  ∧ FindContentStream dev "demo" "images" "logo" "json" StateLive world_logo
    = getStreamByKey dev "development/tenants/demo/content/images/logo.json"
                     "" world_logo
  ∧ (FindContentStream dev "demo" "images" "nope" "" StateLive world_logo).1
    = inl (ContentNotFound "nope").
Proof. repeat split; vm_compute; reflexivity. Qed.

(** * Further properties of the storage package *)

(** ** Strings *)

Lemma append_cons c (a b : string) : String c a +:+ b = String c (a +:+ b).
Proof. reflexivity. Qed.

Lemma append_nil_r (a : string) : a +:+ "" = a.
Proof.
  induction a as [|c a IH]; [reflexivity|]. by rewrite append_cons, IH.
Qed.

Lemma rev_app_rev_app (e c d : string) :
  String.rev_app (String.rev_app e c) d = String.rev_app c (e +:+ d).
Proof.
  revert c d. induction e as [|x e IH]; intros c d; [reflexivity|].
  simpl. rewrite IH. reflexivity.
Qed.

Lemma rev_rev_app (e : string) : String.rev (String.rev_app e "") = e.
Proof.
  unfold String.rev. rewrite rev_app_rev_app. simpl. apply append_nil_r.
Qed.

Lemma prefix_slash c e :
  String.prefix "/" (String c e) = Ascii.eqb c "/"%char.
Proof.
  change (String.prefix "/" (String c e))
    with (match Ascii.ascii_dec "/" c with
          | left _ => String.prefix "" e
          | right _ => false
          end).
  destruct (Ascii.ascii_dec "/" c) as [<-|Hne].
  - destruct e; reflexivity.
  - symmetry. apply Ascii.eqb_neq. congruence.
Qed.

Lemma no_slash_cons c e :
  no_slash (String c e) ↔ Ascii.eqb c "/"%char = false ∧ no_slash e.
Proof.
  unfold no_slash.
  change (GoStrings.Contains (String c e) "/")
    with (String.prefix "/" (String c e) || GoStrings.Contains e "/").
  rewrite prefix_slash. destruct (Ascii.eqb c "/"); simpl.
  - split; [discriminate|]. by intros [? _].
  - split; [done|]. by intros [_ ?].
Qed.

Lemma no_slash_app a b : no_slash a → no_slash b → no_slash (a +:+ b).
Proof.
  intros Ha Hb. induction a as [|c a IH]; [exact Hb|].
  rewrite append_cons. apply no_slash_cons in Ha as [Hc Ha].
  apply no_slash_cons. split; [exact Hc|by apply IH].
Qed.

Lemma plain_no_slash e : plain e → no_slash e.
Proof. by intros (_ & _ & _ & He). Qed.

(** A file name [id.ext] is a plain element when [id] is. *)
Lemma plain_file id ext : plain id → no_slash ext → plain (id +:+ "." +:+ ext).
Proof.
  intros (Hne & Hdot & Hdots & Hid) Hext.
  assert (Hslash : no_slash (id +:+ "." +:+ ext)).
  { apply no_slash_app; [exact Hid|]. by apply no_slash_app. }
  split; [|split; [|split; [|exact Hslash]]].
  - destruct id; [done|discriminate].
  - destruct id as [|c [|c' id]]; [done|discriminate|discriminate].
  - destruct id as [|c [|c' id]]; [done| |].
    + rewrite append_cons. intros [= -> _]. done.
    + destruct id; discriminate.
Qed.

Lemma plain_state_dir state : no_slash state → plain ("_" +:+ state).
Proof.
  intros Hs. split; [discriminate|]. split; [discriminate|].
  split; [discriminate|]. by apply (no_slash_app "_" state).
Qed.

(** ** [path.Join] on plain elements *)

Lemma split_slash_aux_elem e cur rest :
  no_slash e →
  GoPath.split_slash_aux cur (e +:+ rest)
  = GoPath.split_slash_aux (String.rev_app e cur) rest.
Proof.
  revert cur. induction e as [|c e IH]; intros cur He; [reflexivity|].
  apply no_slash_cons in He as [Hc He].
  rewrite append_cons. simpl. rewrite Hc. by apply IH.
Qed.

Lemma split_slash_aux_slash cur rest :
  GoPath.split_slash_aux cur (String "/" rest)
  = String.rev cur :: GoPath.split_slash_aux "" rest.
Proof. reflexivity. Qed.

Lemma split_slash_concat es :
  Forall no_slash es → es ≠ [] →
  GoPath.split_slash (String.concat "/" es) = es.
Proof.
  unfold GoPath.split_slash.
  induction es as [|e [|e2 tl] IH]; intros Hes Hne; [done| |].
  - apply Forall_cons in Hes as [He _]. simpl.
    rewrite <- (append_nil_r e) at 1.
    rewrite split_slash_aux_elem by exact He. simpl.
    by rewrite rev_rev_app.
  - apply Forall_cons in Hes as [He Htl].
    change (String.concat "/" (e :: e2 :: tl))
      with (e +:+ String "/" (String.concat "/" (e2 :: tl))).
    rewrite split_slash_aux_elem by exact He.
    rewrite split_slash_aux_slash, rev_rev_app, IH; done.
Qed.

Lemma clean_step_plain rooted out e :
  plain e → GoPath.clean_step rooted out e = e :: out.
Proof.
  intros (Hne & Hdot & Hdots & _). unfold GoPath.clean_step.
  rewrite (proj2 (String.eqb_neq e "")) by exact Hne.
  rewrite (proj2 (String.eqb_neq e ".")) by exact Hdot.
  by rewrite (proj2 (String.eqb_neq e "..")) by exact Hdots.
Qed.

Lemma foldl_clean_step_plain rooted out es :
  Forall plain es →
  foldl (GoPath.clean_step rooted) out es = (rev es ++ out)%list.
Proof.
  revert out. induction es as [|e es IH]; intros out Hes; [reflexivity|].
  apply Forall_cons in Hes as [He Hes]. simpl.
  rewrite clean_step_plain by exact He. rewrite IH by exact Hes.
  by rewrite <- app_assoc.
Qed.

Lemma concat_plain_head e es :
  plain e →
  ∃ c tl, String.concat "/" (e :: es) = String c tl
          ∧ Ascii.eqb c "/"%char = false.
Proof.
  intros (Hne & _ & _ & He). destruct e as [|c e]; [done|].
  apply no_slash_cons in He as [Hc _].
  destruct es as [|e2 tl]; simpl; eauto.
Qed.

Lemma Clean_plain es :
  Forall plain es → es ≠ [] →
  GoPath.Clean (String.concat "/" es) = String.concat "/" es.
Proof.
  intros Hes Hne. destruct es as [|e es]; [done|].
  pose proof (Forall_cons_1 _ _ _ Hes) as [He _].
  destruct (concat_plain_head e es He) as (c & tl & Hcat & Hc).
  assert (Hsplit : GoPath.split_slash (String.concat "/" (e :: es))
                   = e :: es).
  { apply split_slash_concat; [|done].
    eapply Forall_impl; [exact Hes|]. apply plain_no_slash. }
  unfold GoPath.Clean. rewrite Hcat, Hc, <- Hcat, Hsplit.
  rewrite foldl_clean_step_plain by exact Hes.
  rewrite app_nil_r, rev_involutive, Hcat. reflexivity.
Qed.

Lemma filter_plain es :
  Forall plain es → filter (λ e : string, e ≠ "") es = es.
Proof.
  induction es as [|e es IH]; intros Hes; [reflexivity|].
  apply Forall_cons in Hes as [He Hes].
  rewrite filter_cons_True by apply He. by rewrite IH.
Qed.

Lemma Join_plain es :
  Forall plain es → es ≠ [] → GoPath.Join es = String.concat "/" es.
Proof.
  intros Hes Hne. unfold GoPath.Join. rewrite filter_plain by exact Hes.
  destruct es as [|e es]; [done|]. by apply Clean_plain.
Qed.

Lemma concat_app_slash (a b : list string) :
  a ≠ [] → b ≠ [] →
  String.concat "/" (a ++ b)
  = String.concat "/" a +:+ "/" +:+ String.concat "/" b.
Proof.
  intros Ha Hb. induction a as [|x [|y a] IH]; [done| |].
  - destruct b as [|z b]; [done|]. reflexivity.
  - change (String.concat "/" ((x :: y :: a) ++ b))
      with (x +:+ "/" +:+ String.concat "/" ((y :: a) ++ b)).
    rewrite IH by done.
    change (String.concat "/" (x :: y :: a))
      with (x +:+ "/" +:+ String.concat "/" (y :: a)).
    by rewrite !append_assoc.
Qed.

(** With a plain or empty root in front. *)
Lemma Join_rooted s es :
  plain_root s → Forall plain es → es ≠ [] →
  GoPath.Join (root s :: es) = root_dir s +:+ String.concat "/" es.
Proof.
  intros [Hroot|(rs & Hrs & Hne' & Hroot)] Hes Hne; unfold root_dir.
  - rewrite Hroot, decide_True by reflexivity.
    unfold GoPath.Join. rewrite filter_cons_False by (intros Hx; by apply Hx).
    fold (GoPath.Join es). by apply Join_plain.
  - assert (Hnonempty : root s ≠ "").
    { destruct rs as [|r rs]; [done|].
      apply Forall_cons in Hrs as [Hr _].
      destruct (concat_plain_head r rs Hr) as (c & tl & Hcat & _).
      by rewrite Hroot, Hcat. }
    rewrite decide_False by exact Hnonempty.
    unfold GoPath.Join.
    rewrite filter_cons_True, filter_plain by done.
    destruct es as [|e es]; [done|].
    change (String.concat "/" (root s :: e :: es))
      with (root s +:+ "/" +:+ String.concat "/" (e :: es)).
    rewrite Hroot, <- concat_app_slash by done.
    rewrite Clean_plain; [|by apply Forall_app|by destruct rs].
    rewrite concat_app_slash by done. by rewrite append_assoc.
Qed.

Lemma plain_root_single s : plain (root s) → plain_root s.
Proof.
  intros Hroot. right. exists [root s]. split; [by apply Forall_singleton|].
  done.
Qed.

(** ** The layout of content keys *)

Lemma plain_literal e :
  (if decide (e ≠ "" ∧ e ≠ "." ∧ e ≠ ".."
              ∧ GoStrings.Contains e "/" = false)
   then True else False) → plain e.
Proof. unfold plain, no_slash. by destruct (decide _). Qed.

Lemma plain_tenants : plain "tenants".
Proof. by apply plain_literal. Qed.
Lemma plain_content : plain "content".
Proof. by apply plain_literal. Qed.
Lemma plain_schemas : plain "schemas".
Proof. by apply plain_literal. Qed.
Lemma plain_history : plain "_history".
Proof. by apply plain_literal. Qed.
Lemma plain_comments : plain "_comments".
Proof. by apply plain_literal. Qed.

#[local] Hint Resolve plain_tenants plain_content plain_schemas
  plain_history plain_comments plain_file plain_state_dir : core.

Ltac plain_elements :=
  repeat match goal with
         | |- Forall _ [] => apply Forall_nil
         | |- Forall _ (_ :: _) => apply Forall_cons; split; [solve [auto]|]
         end.

Ltac key_layout :=
  repeat (rewrite Join_rooted; [|assumption|plain_elements|discriminate]);
  cbn [String.concat]; rewrite ?append_assoc, ?append_nil_r; reflexivity.

Lemma contentPrefix_plain s tenant contentType state :
  plain_root s → plain tenant → plain contentType → no_slash state →
  contentPrefix s tenant contentType state
  = root_dir s +:+ "tenants/" +:+ tenant +:+ "/content/" +:+ contentType
      +:+ "/"
      +:+ (if decide (state = StateLive ∨ state = "") then ""
           else "_" +:+ state +:+ "/").
Proof.
  intros Hroot Ht Hty Hst.
  pose proof (plain_state_dir state Hst) as Hdir.
  unfold contentPrefix.
  destruct (decide (state = StateLive ∨ state = "")) as [Hlive|Hlive];
    [rewrite ?decide_True by exact Hlive
    |rewrite ?decide_False by exact Hlive];
    key_layout.
Qed.

Lemma contentKey_plain s tenant contentType id ext state :
  plain_root s → plain tenant → plain contentType → plain id →
  no_slash ext → no_slash state →
  contentKey s tenant contentType id ext state
  = contentPrefix s tenant contentType state +:+ id +:+ "." +:+ ext.
Proof.
  intros Hroot Ht Hty Hid Hext Hst.
  pose proof (plain_file id ext Hid Hext) as Hfile.
  pose proof (plain_state_dir state Hst) as Hdir.
  unfold contentKey, contentPrefix.
  destruct (decide (state = StateLive ∨ state = "")) as [Hlive|Hlive];
    [rewrite ?decide_True by exact Hlive
    |rewrite ?decide_False by exact Hlive];
    key_layout.
Qed.

(** For plain identifiers the key namer concatenates: a content key is
    its state prefix followed by [id.ext], and the state prefix is
    [<root>/tenants/<tenant>/content/<type>/], with [_<state>/] appended
    for a state other than live. *)
Theorem contentKey_layout s tenant contentType id ext state :
  plain_root s → plain tenant → plain contentType → plain id →
  no_slash ext → no_slash state →
  contentPrefix s tenant contentType state
  = root_dir s +:+ "tenants/" +:+ tenant +:+ "/content/" +:+ contentType
      +:+ "/"
      +:+ (if decide (state = StateLive ∨ state = "") then ""
           else "_" +:+ state +:+ "/")
  ∧ contentKey s tenant contentType id ext state
    = contentPrefix s tenant contentType state +:+ id +:+ "." +:+ ext.
Proof.
  intros Hroot Ht Hty Hid Hext Hst. split.
  - by apply contentPrefix_plain.
  - by apply contentKey_plain.
Qed.

Lemma contentKey_layout_witness :
  plain_root staging ∧ plain "demo" ∧ plain "articles" ∧ plain "hello"
  ∧ no_slash "json" ∧ no_slash StateDraft
  ∧ contentPrefix staging "demo" "articles" StateDraft
    = "sites/staging/tenants/demo/content/articles/_draft/"
  ∧ contentKey staging "demo" "articles" "hello" "json" StateDraft
    = contentPrefix staging "demo" "articles" StateDraft
        +:+ "hello" +:+ "." +:+ "json".
Proof.
  assert (Hroot : plain_root staging).
  { right. exists ["sites"; "staging"]. split; [|done].
    repeat (apply Forall_cons; split; [by apply plain_literal|]).
    by apply Forall_nil. }
  assert (Ht : plain "demo") by (by apply plain_literal).
  assert (Hty : plain "articles") by (by apply plain_literal).
  assert (Hid : plain "hello") by (by apply plain_literal).
  assert (Hext : no_slash "json") by reflexivity.
  assert (Hst : no_slash StateDraft) by reflexivity.
  repeat (split; [assumption|]).
  destruct (contentKey_layout staging "demo" "articles" "hello" "json"
              StateDraft Hroot Ht Hty Hid Hext Hst) as [Hprefix Hkey].
  split; [|exact Hkey]. rewrite Hprefix. reflexivity.
Defined.

(** ** From a key back to id and extension *)

Lemma split_slash_aux_cons cur c rest :
  GoPath.split_slash_aux cur (String c rest)
  = if Ascii.eqb c "/"%char
    then String.rev cur :: GoPath.split_slash_aux "" rest
    else GoPath.split_slash_aux (String c cur) rest.
Proof. reflexivity. Qed.

Lemma split_slash_aux_last dir cur file :
  no_slash file →
  ∃ l, GoPath.split_slash_aux cur (dir +:+ String "/" file)
       = (l ++ [file])%list.
Proof.
  intros Hfile. revert cur. induction dir as [|c dir IH]; intros cur.
  - change ("" +:+ String "/" file) with (String "/" file).
    rewrite split_slash_aux_slash. exists [String.rev cur].
    rewrite <- (append_nil_r file) at 1.
    rewrite split_slash_aux_elem by exact Hfile. simpl.
    by rewrite rev_rev_app.
  - rewrite append_cons, split_slash_aux_cons.
    destruct (Ascii.eqb c "/").
    + destruct (IH "") as [l Hl]. exists (String.rev cur :: l).
      by rewrite Hl.
    + apply IH.
Qed.

Lemma Base_file dir file :
  no_slash file → file ≠ "" →
  GoPath.Base (dir +:+ "/" +:+ file) = file.
Proof.
  intros Hfile Hne. unfold GoPath.Base, GoPath.split_slash.
  destruct (split_slash_aux_last dir "" file Hfile) as [l Hl].
  change (dir +:+ "/" +:+ file) with (dir +:+ String "/" file).
  rewrite Hl, filter_app, filter_cons_True, filter_nil by exact Hne.
  rewrite last_snoc.
  destruct (String.eqb (dir +:+ String "/" file) "") eqn:Hempty;
    [|reflexivity].
  apply String.eqb_eq in Hempty. destruct dir; discriminate.
Qed.

Lemma LastIndex_cons c s sub :
  GoStrings.LastIndex (String c s) sub
  = if 0 <=? GoStrings.LastIndex s sub then GoStrings.LastIndex s sub + 1
    else if String.prefix sub (String c s) then 0 else -1.
Proof. reflexivity. Qed.

Lemma LastIndex_lower s sub : -1 ≤ GoStrings.LastIndex s sub.
Proof.
  induction s as [|c s IH].
  - cbn [GoStrings.LastIndex]. destruct (String.eqb sub ""); lia.
  - rewrite LastIndex_cons.
    destruct (0 <=? GoStrings.LastIndex s sub) eqn:Hr.
    + apply Z.leb_le in Hr. lia.
    + destruct (String.prefix sub (String c s)); lia.
Qed.

Lemma prefix_dot c s :
  String.prefix "." (String c s) = true → c = "."%char.
Proof.
  change (String.prefix "." (String c s))
    with (match Ascii.ascii_dec "." c with
          | left _ => String.prefix "" s
          | right _ => false
          end).
  destruct (Ascii.ascii_dec "." c); [done|discriminate].
Qed.

Lemma substring_all s : String.substring 0 (String.length s) s = s.
Proof. induction s as [|c s IH]; simpl; [reflexivity|]. by rewrite IH. Qed.

(** Cutting a file name at its last dot loses nothing. *)
Lemma LastIndex_dot_split f :
  GoStrings.LastIndex f "." ≠ -1 →
  GoStrings.slice_to f (GoStrings.LastIndex f ".") +:+ "."
    +:+ GoStrings.slice_from f (GoStrings.LastIndex f "." + 1)
  = f.
Proof.
  induction f as [|c f IH]; [done|].
  rewrite LastIndex_cons.
  pose proof (LastIndex_lower f ".") as Hlow.
  destruct (0 <=? GoStrings.LastIndex f ".") eqn:Hr.
  - apply Z.leb_le in Hr. intros _.
    unfold GoStrings.slice_to, GoStrings.slice_from in *.
    replace (Z.to_nat (GoStrings.LastIndex f "." + 1))
      with (S (Z.to_nat (GoStrings.LastIndex f "."))) by lia.
    replace (Z.to_nat (GoStrings.LastIndex f "." + 1 + 1))
      with (S (Z.to_nat (GoStrings.LastIndex f "." + 1))) by lia.
    cbn [String.substring String.length].
    rewrite append_cons. f_equal.
    replace (S (String.length f) - S (Z.to_nat (GoStrings.LastIndex f "." + 1)))%nat
      with (String.length f - Z.to_nat (GoStrings.LastIndex f "." + 1))%nat
      by lia.
    apply IH. lia.
  - destruct (String.prefix "." (String c f)) eqn:Hdot; [|done].
    intros _. apply prefix_dot in Hdot as ->.
    unfold GoStrings.slice_to, GoStrings.slice_from.
    change (Z.to_nat 0) with 0%nat. change (Z.to_nat (0 + 1)) with 1%nat.
    cbn [String.substring String.length].
    replace (S (String.length f) - 1)%nat with (String.length f) by lia.
    by rewrite substring_all.
Qed.

Lemma LastIndex_dot_found a b :
  0 ≤ GoStrings.LastIndex (a +:+ "." +:+ b) ".".
Proof.
  induction a as [|c a IH].
  - change ("" +:+ "." +:+ b) with (String "." b).
    rewrite LastIndex_cons.
    destruct (0 <=? GoStrings.LastIndex b ".") eqn:Hr.
    + apply Z.leb_le in Hr. lia.
    + change (String.prefix "." (String "." b))
        with (String.prefix "" b).
      destruct b; simpl; lia.
  - rewrite append_cons, LastIndex_cons.
    rewrite (proj2 (Z.leb_le _ _) IH). lia.
Qed.

Lemma LastIndex_ext a b :
  GoStrings.Contains b "." = false →
  GoStrings.LastIndex (a +:+ "." +:+ b) "." = GoStrings.len a.
Proof.
  intros Hb. unfold GoStrings.len. induction a as [|c a IH].
  - change ("" +:+ "." +:+ b) with (String "." b).
    rewrite LastIndex_cons, (LastIndex_no_dot _ Hb).
    change (String.prefix "." (String "." b)) with (String.prefix "" b).
    destruct b; reflexivity.
  - rewrite append_cons, LastIndex_cons, IH.
    rewrite (proj2 (Z.leb_le 0 _)) by lia.
    cbn [String.length]. lia.
Qed.

Lemma substring_prefix a s :
  String.substring 0 (String.length a) (a +:+ s) = a.
Proof.
  induction a as [|c a IH]; [by destruct s|].
  rewrite append_cons. simpl. by rewrite IH.
Qed.

Lemma substring_suffix a s :
  String.substring (String.length a)
                   (String.length (a +:+ s) - String.length a) (a +:+ s)
  = s.
Proof.
  induction a as [|c a IH].
  - change ("" +:+ s) with s. simpl.
    rewrite Nat.sub_0_r. apply substring_all.
  - rewrite append_cons. simpl. exact IH.
Qed.

(** [extractIDAndExt] undoes the key namer as far as the key namer can
    tell: the id and extension it reads off a content key name that key
    again, and they are the original ones when the extension has no dot. *)
Theorem extractIDAndExt_contentKey s tenant contentType id ext state :
  plain_root s → plain tenant → plain contentType → plain id →
  no_slash ext → no_slash state →
  let key := contentKey s tenant contentType id ext state in
  contentKey s tenant contentType
             (extractIDAndExt key contentType state).1
             (extractIDAndExt key contentType state).2 state
  = key
  ∧ (GoStrings.Contains ext "." = false →
     extractIDAndExt key contentType state = (id, ext)).
Proof.
  intros Hroot Ht Hty Hid Hext Hst key.
  pose proof (plain_file id ext Hid Hext) as (Hne & _ & _ & Hfile).
  assert (Hbase : GoPath.Base key = id +:+ "." +:+ ext).
  { subst key.
    rewrite (contentKey_plain s tenant contentType id ext state
               Hroot Ht Hty Hid Hext Hst).
    unfold contentPrefix.
    case_decide; rewrite append_assoc; by apply Base_file. }
  pose proof (LastIndex_dot_found id ext) as Hfound.
  unfold extractIDAndExt. rewrite Hbase.
  destruct (GoStrings.LastIndex (id +:+ "." +:+ ext) "." =? -1) eqn:Hidx;
    [apply Z.eqb_eq in Hidx; lia|].
  cbn [negb fst snd]. split.
  - subst key. unfold contentKey.
    rewrite LastIndex_dot_split by lia. reflexivity.
  - intros Hdot. rewrite (LastIndex_ext id ext Hdot).
    unfold GoStrings.slice_to, GoStrings.slice_from, GoStrings.len.
    rewrite Nat2Z.id.
    replace (Z.to_nat (Z.of_nat (String.length id) + 1))
      with (String.length (id +:+ ".")).
    2:{ clear. induction id as [|c id IH]; [reflexivity|].
        rewrite append_cons. cbn [String.length]. lia. }
    rewrite substring_prefix.
    rewrite <- (append_assoc id "." ext), substring_suffix.
    reflexivity.
Qed.

Lemma extractIDAndExt_contentKey_witness :
  plain_root dev ∧ plain "demo" ∧ plain "images" ∧ plain "logo"
  ∧ no_slash "tar.gz" ∧ no_slash StateLive
  ∧ extractIDAndExt
      (contentKey dev "demo" "images" "logo" "tar.gz" StateLive)
      "images" StateLive = ("logo.tar", "gz")
  ∧ contentKey dev "demo" "images" "logo.tar" "gz" StateLive
    = contentKey dev "demo" "images" "logo" "tar.gz" StateLive.
Proof.
  assert (Hroot : plain_root dev)
    by (apply plain_root_single; by apply plain_literal).
  assert (Ht : plain "demo") by (by apply plain_literal).
  assert (Hty : plain "images") by (by apply plain_literal).
  assert (Hid : plain "logo") by (by apply plain_literal).
  assert (Hext : no_slash "tar.gz") by reflexivity.
  assert (Hst : no_slash StateLive) by reflexivity.
  repeat (split; [assumption|]).
  assert (Hx : extractIDAndExt
                 (contentKey dev "demo" "images" "logo" "tar.gz" StateLive)
                 "images" StateLive = ("logo.tar", "gz"))
    by (vm_compute; reflexivity).
  split; [exact Hx|].
  pose proof (proj1 (extractIDAndExt_contentKey dev "demo" "images" "logo"
                       "tar.gz" StateLive Hroot Ht Hty Hid Hext Hst))
    as Hround.
  rewrite Hx in Hround. exact Hround.
Defined.

(** ** Resolving an id that carries its extension *)

Lemma length_append (a b : string) :
  String.length (a +:+ b) = (String.length a + String.length b)%nat.
Proof.
  induction a as [|c a IH]; [reflexivity|].
  rewrite append_cons. cbn [String.length]. by rewrite IH.
Qed.

Lemma slice_to_append a b : GoStrings.slice_to (a +:+ b) (GoStrings.len a) = a.
Proof.
  unfold GoStrings.slice_to, GoStrings.len.
  rewrite Nat2Z.id. apply substring_prefix.
Qed.

Lemma slice_from_append a b :
  GoStrings.slice_from (a +:+ "." +:+ b) (GoStrings.len a + 1) = b.
Proof.
  unfold GoStrings.slice_from, GoStrings.len.
  replace (Z.to_nat (Z.of_nat (String.length a) + 1))
    with (String.length (a +:+ "."))
    by (rewrite length_append; cbn [String.length]; lia).
  rewrite <- (append_assoc a "." b). apply substring_suffix.
Qed.

(** An id of the form [base.ext], with a non-empty extension after its
    last dot, is resolved by the key alone: [FindContentStream] reads
    [base] with extension [ext] in the requested state, whatever the
    extension hint, and never lists the directory. *)
Theorem FindContentStream_id_with_extension s tenant contentType base ext
    extHint state :
  ext ≠ "" → GoStrings.Contains ext "." = false →
  FindContentStream s tenant contentType (base +:+ "." +:+ ext) extHint state
  = GetStream s tenant contentType base ext state.
Proof.
  intros Hne Hdot. unfold FindContentStream, GetStream. cbv zeta.
  rewrite (LastIndex_ext base ext Hdot).
  assert (Hlen : (GoStrings.len base
                    <? GoStrings.len (base +:+ "." +:+ ext) - 1) = true).
  { apply Z.ltb_lt. unfold GoStrings.len.
    rewrite !length_append. cbn [String.length].
    destruct ext; [done|]. cbn [String.length]. lia. }
  rewrite Hlen.
  assert (Hidx : (GoStrings.len base =? -1) = false)
    by (apply Z.eqb_neq; unfold GoStrings.len; lia).
  rewrite Hidx. cbn [negb andb].
  by rewrite slice_to_append, slice_from_append.
Qed.

Lemma FindContentStream_id_with_extension_witness :
  "gz" ≠ "" ∧ GoStrings.Contains "gz" "." = false
  ∧ FindContentStream dev "demo" "images" "logo.tar.gz" "png" StateDraft
    = GetStream dev "demo" "images" "logo.tar" "gz" StateDraft.
Proof.
  assert (Hne : "gz" ≠ "") by discriminate.
  assert (Hdot : GoStrings.Contains "gz" "." = false) by reflexivity.
  split; [exact Hne|]. split; [exact Hdot|].
  exact (FindContentStream_id_with_extension dev "demo" "images" "logo.tar"
           "gz" "png" StateDraft Hne Hdot).
Defined.

(** ** Deleting *)

Lemma DeleteObject_faults key versionId b :
  S3.faults (S3.DeleteObject key versionId b).2 = S3.faults b.
Proof.
  unfold S3.DeleteObject. by destruct (S3.delete_fault b key).
Qed.

Lemma PutObject_faults i b : S3.faults (S3.PutObject i b).2 = S3.faults b.
Proof.
  unfold S3.PutObject. by destruct (S3.object_fault b (S3.put_Key i)).
Qed.

Lemma object_fault_faults b b' key :
  S3.faults b' = S3.faults b → S3.object_fault b' key = S3.object_fault b key.
Proof. unfold S3.object_fault. by intros ->. Qed.

(** A plain delete that succeeds leaves no current object under the key:
    the key is removed, or a delete marker is its newest version. *)
Lemma DeleteObject_gone key b b' :
  S3.DeleteObject key None b = (inr (), b') → S3.current b' key = None.
Proof.
  unfold S3.DeleteObject.
  destruct (S3.delete_fault b key); [discriminate|].
  intros [= <-]. unfold S3.current. rewrite versions_of_set_versions.
  by destruct (S3.versioning b).
Qed.

(** No plain delete brings an object back. *)
Lemma DeleteObject_keeps_gone key k b :
  S3.current b k = None → S3.current (S3.DeleteObject key None b).2 k = None.
Proof.
  intros Hgone. unfold S3.DeleteObject.
  destruct (S3.delete_fault b key); [exact Hgone|]. cbn [snd].
  destruct (decide (key = k)) as [->|Hne].
  - unfold S3.current. rewrite versions_of_set_versions.
    by destruct (S3.versioning b).
  - unfold S3.current in *. by rewrite versions_of_set_versions_ne.
Qed.

Lemma GetObject_gone key b :
  S3.object_fault b key = None → S3.current b key = None →
  S3.GetObject key None b = inl S3.NoSuchKey.
Proof.
  intros Hok Hgone. unfold S3.GetObject, S3.current in *. rewrite Hok.
  cbn [S3.select_version].
  destruct (S3.versions_of b key) as [|ov vs]; [reflexivity|].
  cbn [head]. by destruct (S3.ov_IsDeleteMarker ov).
Qed.

Lemma HeadObject_gone key b :
  S3.object_fault b key = None → S3.current b key = None →
  S3.HeadObject key b = inl S3.NotFound.
Proof.
  intros Hok Hgone. unfold S3.HeadObject, S3.current in *. rewrite Hok.
  cbn [S3.select_version].
  destruct (S3.versions_of b key) as [|ov vs]; [reflexivity|].
  cbn [head]. by destruct (S3.ov_IsDeleteMarker ov).
Qed.

Lemma Delete_run s tenant contentType id ext state w :
  Delete s tenant contentType id ext state w
  = let key := contentKey s tenant contentType id ext (default_state state) in
    let rb := S3.DeleteObject key None (s3Client w) in
    (match rb.1 with
     | inl err => inl (Wrapf "failed to delete object" (SDK err))
     | inr _ => inr ()
     end, with_bucket w rb.2).
Proof.
  unfold Delete, bind, ret, s3_DeleteObject. cbv zeta.
  destruct (S3.DeleteObject _ None (s3Client w)) as [[e|[]] b']; reflexivity.
Qed.

Lemma Get_gone s tenant contentType id ext state w :
  S3.object_fault (s3Client w)
    (contentKey s tenant contentType id ext (default_state state)) = None →
  S3.current (s3Client w)
    (contentKey s tenant contentType id ext (default_state state)) = None →
  (Get s tenant contentType id ext state w).1
  = inl (Wrapf "failed to get object" (SDK S3.NoSuchKey)).
Proof.
  intros Hok Hgone. unfold Get, getByKey. unfold_M. cbv zeta.
  change (nonempty "") with (@None string).
  by rewrite (GetObject_gone _ _ Hok Hgone).
Qed.

(** After a [Delete] that reported success the item cannot be read in
    that state: [Get] fails with the service's no-such-key error and
    [Exists] answers false; deleting it once more succeeds again. *)
Theorem Delete_then_Get s tenant contentType id ext state w w' :
  Delete s tenant contentType id ext state w = (inr (), w') →
  (Get s tenant contentType id ext state w').1
  = inl (Wrapf "failed to get object" (SDK S3.NoSuchKey))
  ∧ (Exists s tenant contentType id ext state w').1 = inr false
  ∧ (Delete s tenant contentType id ext state w').1 = inr ().
Proof.
  rewrite Delete_run. cbv zeta. intros Hdel.
  set (key := contentKey s tenant contentType id ext (default_state state))
    in *.
  destruct (S3.DeleteObject key None (s3Client w)) as [[e|[]] b'] eqn:Hrun;
    [discriminate|].
  cbn [fst snd] in Hdel. injection Hdel as <-.
  assert (Hdf : S3.delete_fault b' key = None).
  { pose proof (DeleteObject_faults key None (s3Client w)) as Hf.
    rewrite Hrun in Hf. cbn [snd] in Hf.
    rewrite (delete_fault_faults _ _ key Hf).
    unfold S3.DeleteObject in Hrun.
    by destruct (S3.delete_fault (s3Client w) key). }
  pose proof (delete_fault_object _ _ Hdf) as Hok.
  pose proof (DeleteObject_gone key _ _ Hrun) as Hgone.
  split; [by apply Get_gone|]. split.
  - unfold Exists. unfold_M. cbv zeta. fold key.
    cbn [s3Client with_bucket]. by rewrite (HeadObject_gone _ _ Hok Hgone).
  - rewrite Delete_run. cbv zeta. fold key. cbn [s3Client with_bucket fst].
    unfold S3.DeleteObject. by rewrite Hdf.
Qed.

Lemma Delete_then_Get_witness :
  (Get dev "demo" "articles" "hello" "json" StateLive world_live).1
  = inr (ContentItem.Build_t
           "development/tenants/demo/content/articles/hello.json"
           (bytes "{}") "application/json" "v1" 1 2 "etag-1" None)
  ∧ (Get dev "demo" "articles" "hello" "json" StateLive
         (Delete dev "demo" "articles" "hello" "json" StateLive
                 world_live).2).1
    = inl (Wrapf "failed to get object" (SDK S3.NoSuchKey)).
Proof.
  split; [vm_compute; reflexivity|].
  assert (Hdel : Delete dev "demo" "articles" "hello" "json" StateLive
                        world_live
                 = (inr (), (Delete dev "demo" "articles" "hello" "json"
                                    StateLive world_live).2))
    by (vm_compute; reflexivity).
  exact (proj1 (Delete_then_Get dev "demo" "articles" "hello" "json"
                  StateLive world_live _ Hdel)).
Defined.

(** ** What a transition leaves behind *)

Lemma Put_run s tenant contentType id ext content mimeType state w :
  Put s tenant contentType id ext content mimeType state w
  = let key := contentKey s tenant contentType id ext (default_state state) in
    let rb := S3.PutObject {| S3.put_Key := key;
                              S3.put_Body := content;
                              S3.put_ContentLength := None;
                              S3.put_ContentType := Some mimeType;
                              S3.put_Metadata := None |} (s3Client w) in
    (match rb.1 with
     | inl err => inl (Wrapf "failed to put object" (SDK err))
     | inr result =>
         inr {| ContentItem.Key := key;
                ContentItem.Content := content;
                ContentItem.ContentType := mimeType;
                ContentItem.VersionID := default "" (S3.put_VersionId result);
                ContentItem.LastModified := 0;
                ContentItem.Size := 0;
                ContentItem.ETag := "";
                ContentItem.Metadata := None |}
     end, with_bucket w rb.2).
Proof.
  unfold Put, bind, ret, s3_PutObject. cbv zeta.
  destruct (S3.PutObject _ (s3Client w)) as [[e|out] b']; reflexivity.
Qed.

Lemma GetObject_ok_fault key versionId b out :
  S3.GetObject key versionId b = inr out → S3.object_fault b key = None.
Proof.
  unfold S3.GetObject. by destruct (S3.object_fault b key).
Qed.

Lemma getByKey_ok_fault s key versionID w item :
  (getByKey s key versionID w).1 = inr item →
  S3.object_fault (s3Client w) key = None.
Proof.
  unfold getByKey. unfold_M.
  destruct (S3.GetObject key (nonempty versionID) (s3Client w)) as [e|out]
    eqn:Hget; [discriminate|].
  intros _. by eapply GetObject_ok_fault.
Qed.

Lemma only_deletes_refl w : only_deletes w w.
Proof. by split. Qed.

Lemma only_deletes_trans w1 w2 w3 :
  only_deletes w1 w2 → only_deletes w2 w3 → only_deletes w1 w3.
Proof.
  intros [Hf1 Hg1] [Hf2 Hg2]. split; [congruence|]. auto.
Qed.

Lemma DeleteComment_only_deletes `{CommentJSON} s tenant contentType
    contentID state id w :
  only_deletes w (DeleteComment s tenant contentType contentID state id w).2.
Proof.
  unfold DeleteComment, bind, ret, s3_DeleteObject. cbv zeta.
  pose proof (DeleteObject_faults
                (commentKey s tenant contentType contentID state id) None
                (s3Client w)) as Hf.
  pose proof (λ k, DeleteObject_keeps_gone
                (commentKey s tenant contentType contentID state id) k
                (s3Client w)) as Hg.
  destruct (S3.DeleteObject _ None (s3Client w)) as [[e|[]] b'];
    cbn [fst snd] in *; by split.
Qed.

Lemma delete_comments_loop_only_deletes `{CommentJSON} s tenant contentType
    contentID state comments w :
  only_deletes w
    (delete_comments_loop s tenant contentType contentID state comments w).2.
Proof.
  revert w. induction comments as [|c rest IH]; intros w;
    [apply only_deletes_refl|].
  cbn [delete_comments_loop]. unfold bind at 1.
  pose proof (DeleteComment_only_deletes s tenant contentType contentID
                state (Comment.ID c) w) as Hstep.
  destruct (DeleteComment s tenant contentType contentID state
              (Comment.ID c) w) as [r w1]. cbn [snd] in Hstep.
  unfold bind at 1.
  destruct r as [err|[]]; unfold log_Error, ret;
    (eapply only_deletes_trans; [exact Hstep|]);
    (eapply only_deletes_trans; [|apply IH]); by split.
Qed.

Lemma DeleteAllComments_only_deletes `{CommentJSON} s tenant contentType
    contentID state w :
  only_deletes w
    (DeleteAllComments s tenant contentType contentID state w).2.
Proof.
  unfold DeleteAllComments. unfold bind at 1.
  pose proof (ListComments_readonly s tenant contentType contentID state w)
    as Hro.
  destruct (ListComments s tenant contentType contentID state w)
    as [[e|cs] w1]; cbn [snd] in Hro; subst w1;
    [apply only_deletes_refl|].
  unfold bind, ret.
  pose proof (delete_comments_loop_only_deletes s tenant contentType
                contentID state cs w) as Hloop.
  by destruct (delete_comments_loop s tenant contentType contentID state
                 cs w).
Qed.

(** ** What the clean-up logs *)

Lemma DeleteComment_logs `{CommentJSON} s tenant contentType contentID
    state id w :
  logs (DeleteComment s tenant contentType contentID state id w).2 = logs w.
Proof.
  unfold DeleteComment, bind, ret, s3_DeleteObject. cbv zeta.
  by destruct (S3.DeleteObject _ None (s3Client w)) as [[e|[]] b'].
Qed.

Lemma delete_comments_loop_logs `{CommentJSON} s tenant contentType
    contentID state comments w line :
  line ∈ logs w →
  line ∈ logs (delete_comments_loop s tenant contentType contentID state
                                    comments w).2.
Proof.
  revert w. induction comments as [|c rest IH]; intros w Hl; [exact Hl|].
  cbn [delete_comments_loop]. unfold bind at 1.
  pose proof (DeleteComment_logs s tenant contentType contentID state
                (Comment.ID c) w) as Hstep.
  destruct (DeleteComment s tenant contentType contentID state
              (Comment.ID c) w) as [r w1]. cbn [snd] in Hstep.
  unfold bind at 1.
  destruct r as [err|[]]; unfold log_Error, ret; apply IH; cbn [logs];
    rewrite ?Hstep; [|exact Hl].
  apply elem_of_app. by left.
Qed.

Lemma DeleteAllComments_logs `{CommentJSON} s tenant contentType contentID
    state w line :
  line ∈ logs w →
  line ∈ logs (DeleteAllComments s tenant contentType contentID state w).2.
Proof.
  intros Hl. unfold DeleteAllComments. unfold bind at 1.
  pose proof (ListComments_readonly s tenant contentType contentID state w)
    as Hro.
  destruct (ListComments s tenant contentType contentID state w)
    as [[e'|cs] w1]; cbn [fst snd] in *; subst w1; [exact Hl|].
  unfold bind, ret.
  pose proof (delete_comments_loop_logs s tenant contentType contentID
                state cs w line Hl) as Hloop.
  by destruct (delete_comments_loop s tenant contentType contentID state
                 cs w) as [[] w3].
Qed.

(** The clean-up after the write of a move: the source is deleted, then
    its comments; a refused delete of the source is logged and the move
    goes on. *)
Lemma transition_move_steps `{CommentJSON} s tenant contentType id ext
    fromState toState w item w' :
  transition_move s tenant contentType id ext fromState toState w
  = (inr item, w') →
  ∃ sourceItem w1 w2,
    Get s tenant contentType id ext fromState w = (inr sourceItem, w)
    ∧ Put s tenant contentType id ext (ContentItem.Content sourceItem)
          (ContentItem.ContentType sourceItem) toState w = (inr item, w1)
    ∧ s3Client w2
      = (S3.DeleteObject
           (contentKey s tenant contentType id ext (default_state fromState))
           None (s3Client w1)).2
    ∧ s3Client w'
      = s3Client (if negb (bool_decide (fromState = StateLive))
                  then (DeleteAllComments s tenant contentType id fromState
                                          w2).2
                  else w2)
    ∧ ∀ e,
        (S3.DeleteObject
           (contentKey s tenant contentType id ext (default_state fromState))
           None (s3Client w1)).1 = inl e →
        LogError ("Failed to delete content from " +:+ fromState
                    +:+ " state")
                 (Wrapf "failed to delete object" (SDK e)) ∈ logs w'.
Proof.
  unfold transition_move. unfold bind at 1.
  pose proof (Get_readonly s tenant contentType id ext fromState w) as Hro.
  destruct (Get s tenant contentType id ext fromState w) as [[e|src] w0]
    eqn:Hget; cbn [snd] in Hro; subst w0; [discriminate|].
  unfold bind at 1.
  destruct (Put s tenant contentType id ext (ContentItem.Content src)
              (ContentItem.ContentType src) toState w) as [[e|tgt] w1]
    eqn:Hput; [discriminate|].
  unfold bind at 1. rewrite Delete_run. cbv zeta.
  destruct (S3.DeleteObject _ None (s3Client w1)) as [r2 b2] eqn:Hdel.
  cbn [fst snd]. intros Hrun.
  exists src, w1.
  assert (∃ w2, s3Client w2 = b2
                ∧ (∀ e, r2 = inl e →
                        LogError ("Failed to delete content from "
                                    +:+ fromState +:+ " state")
                                 (Wrapf "failed to delete object" (SDK e))
                        ∈ logs w2)
                ∧ (bind
                     (if negb (bool_decide (fromState = StateLive))
                      then
                        bind (DeleteAllComments s tenant contentType id
                                                fromState)
                             (λ r : Result (),
                                match r with
                                | inl err =>
                                    log_Error
                                      ("Failed to delete comments from "
                                         +:+ fromState +:+ " state") err
                                | inr _ => ret ()
                                end)
                      else ret ())
                     (λ _ : (), ret (inr tgt : Result ContentItem.t))) w2
                  = (inr item, w'))
    as (w2 & Hb2 & Hlogged & Hrest).
  { destruct r2 as [err|[]]; unfold bind at 1 in Hrun;
      [unfold log_Error in Hrun|unfold ret in Hrun at 1];
      eexists; (split; [|split; [|exact Hrun]]); try reflexivity.
    - intros e [= <-]. cbn [logs]. apply elem_of_app. right.
      apply list_elem_of_singleton. reflexivity.
    - intros e [=]. }
  clear Hrun. exists w2. split; [reflexivity|].
  assert (Hitem : tgt = item).
  { unfold bind at 1 in Hrest.
    destruct (negb (bool_decide (fromState = StateLive)));
      [unfold bind at 1 in Hrest;
       destruct (DeleteAllComments s tenant contentType id fromState w2)
         as [[err|[]] w3]|];
      unfold log_Error, ret in Hrest; by injection Hrest as <- _. }
  subst tgt. split; [exact Hput|].
  split; [by rewrite Hdel|].
  unfold bind at 1 in Hrest.
  destruct (negb (bool_decide (fromState = StateLive))).
  - unfold bind at 1 in Hrest.
    pose proof (λ line, DeleteAllComments_logs s tenant contentType id
                          fromState w2 line) as Hlogs.
    destruct (DeleteAllComments s tenant contentType id fromState w2)
      as [[err|[]] w3]; unfold log_Error, ret in Hrest;
      injection Hrest as <-; cbn [fst snd s3Client logs] in *;
      (split; [reflexivity|]); intros e He; rewrite Hdel in He;
      cbn [fst] in He.
    + apply elem_of_app. left. by apply Hlogs, Hlogged.
    + by apply Hlogs, Hlogged.
  - unfold ret in Hrest. injection Hrest as <-.
    split; [reflexivity|]. intros e He. rewrite Hdel in He.
    by apply Hlogged.
Qed.

Lemma transition_move_only_deletes `{CommentJSON} s tenant contentType id
    fromState w2 w' :
  s3Client w'
  = s3Client (if negb (bool_decide (fromState = StateLive))
              then (DeleteAllComments s tenant contentType id fromState
                                      w2).2
              else w2) →
  S3.faults (s3Client w') = S3.faults (s3Client w2)
  ∧ ∀ k, S3.current (s3Client w2) k = None →
         S3.current (s3Client w') k = None.
Proof.
  intros ->. destruct (negb (bool_decide (fromState = StateLive))).
  - apply DeleteAllComments_only_deletes.
  - by split.
Qed.

Lemma Transition_ok_move `{CommentJSON} s tenant contentType id ext
    fromState toState w item w' :
  Transition s tenant contentType id ext fromState toState w
  = (inr item, w') →
  fromState ≠ toState
  ∧ transition_move s tenant contentType id ext fromState toState w
    = (inr item, w').
Proof.
  unfold Transition.
  destruct (decide (fromState = toState)) as [|Hne]; [discriminate|].
  destruct (negb (bool_decide (fromState = StateLive))); [|done].
  unfold bind. rewrite HasUnresolvedComments_eq.
  destruct (ListComments s tenant contentType id fromState w).1
    as [err|comments]; [discriminate|].
  destruct (any_unresolved comments); [discriminate|done].
Qed.

Lemma Put_ok_item s tenant contentType id ext content mimeType state w
    item w' :
  Put s tenant contentType id ext content mimeType state w = (inr item, w') →
  ContentItem.Key item
  = contentKey s tenant contentType id ext (default_state state)
  ∧ ContentItem.Content item = content
  ∧ ContentItem.ContentType item = mimeType
  ∧ S3.faults (s3Client w') = S3.faults (s3Client w).
Proof.
  rewrite Put_run. cbv zeta.
  pose proof (PutObject_faults
                {| S3.put_Key := contentKey s tenant contentType id ext
                                            (default_state state);
                   S3.put_Body := content;
                   S3.put_ContentLength := None;
                   S3.put_ContentType := Some mimeType;
                   S3.put_Metadata := None |} (s3Client w)) as Hf.
  destruct (S3.PutObject _ (s3Client w)) as [[e|out] b']; [discriminate|].
  cbn [fst snd] in *. intros [= <- <-]. done.
Qed.

(** ** Keys that cannot collide *)

Lemma append_inj_l (a b c : string) : a +:+ b = a +:+ c → b = c.
Proof.
  induction a as [|x a IH]; [done|].
  rewrite !append_cons. intros [= Heq]. by apply IH.
Qed.

Lemma prefix_append (a b c : string) :
  String.prefix (a +:+ b) (a +:+ c) = String.prefix b c.
Proof.
  induction a as [|x a IH]; [reflexivity|].
  rewrite !append_cons.
  change (String.prefix (String x (a +:+ b)) (String x (a +:+ c)))
    with (match Ascii.ascii_dec x x with
          | left _ => String.prefix (a +:+ b) (a +:+ c)
          | right _ => false
          end).
  by destruct (Ascii.ascii_dec x x).
Qed.

Lemma prefix_append_r (p r : string) : String.prefix p (p +:+ r) = true.
Proof.
  rewrite <- (append_nil_r p) at 1. rewrite prefix_append. by destruct r.
Qed.

Lemma prefix_split (p k : string) :
  String.prefix p k = true → ∃ r, k = p +:+ r.
Proof.
  revert k. induction p as [|x p IH]; intros k; [by exists k|].
  destruct k as [|y k]; [discriminate|].
  change (String.prefix (String x p) (String y k))
    with (match Ascii.ascii_dec x y with
          | left _ => String.prefix p k
          | right _ => false
          end).
  destruct (Ascii.ascii_dec x y) as [->|]; [|discriminate].
  intros Hp. destruct (IH k Hp) as [r ->]. by exists r.
Qed.

Lemma has_slash (a b : string) : ¬ no_slash (a +:+ "/" +:+ b).
Proof.
  unfold no_slash. rewrite (Contains_append a ("/" +:+ b) "/"); [done|].
  change ("/" +:+ b) with (String "/" b). by rewrite prefix_slash.
Qed.

(** Two strings that agree up to their first slash. *)
Lemma first_slash_inj (a a' r r' : string) :
  no_slash a → no_slash a' →
  a +:+ "/" +:+ r = a' +:+ "/" +:+ r' → a = a'.
Proof.
  revert a'. induction a as [|x a IH]; intros a' Ha Ha' Heq.
  - destruct a' as [|y a']; [done|].
    rewrite append_cons in Heq. injection Heq as <- _.
    by apply no_slash_cons in Ha' as [Hy _].
  - destruct a' as [|y a'].
    + rewrite append_cons in Heq. injection Heq as -> _.
      by apply no_slash_cons in Ha as [Hx _].
    + rewrite !append_cons in Heq. injection Heq as -> Heq.
      apply no_slash_cons in Ha as [_ Ha].
      apply no_slash_cons in Ha' as [_ Ha']. f_equal. by eapply IH.
Qed.

Lemma commentPrefix_plain s tenant contentType contentID state :
  plain_root s → plain tenant → plain contentType → plain contentID →
  no_slash state →
  commentPrefix s tenant contentType contentID state
  = root_dir s +:+ "tenants/" +:+ tenant +:+ "/content/" +:+ contentType
      +:+ "/" +:+ ("_" +:+ state) +:+ "/" +:+ "_comments/" +:+ contentID
      +:+ "/".
Proof.
  intros Hroot Ht Hty Hid Hst.
  pose proof (plain_state_dir state Hst) as Hdir.
  unfold commentPrefix. key_layout.
Qed.

Lemma commentKey_plain s tenant contentType contentID state id :
  plain_root s → plain tenant → plain contentType → plain contentID →
  no_slash state → plain id →
  commentKey s tenant contentType contentID state id
  = commentPrefix s tenant contentType contentID state +:+ id +:+ ".json".
Proof.
  intros Hroot Ht Hty Hid Hst Hcid.
  pose proof (plain_state_dir state Hst) as Hdir.
  assert (Hfile : plain (id +:+ ".json"))
    by (apply (plain_file id "json"); done).
  unfold commentKey, commentPrefix. key_layout.
Qed.

Lemma contentKey_form s tenant contentType id ext state :
  plain_root s → plain tenant → plain contentType → plain id →
  no_slash ext → no_slash state →
  contentKey s tenant contentType id ext state
  = root_dir s +:+ "tenants/" +:+ tenant +:+ "/content/" +:+ contentType
      +:+ "/"
      +:+ (if decide (state = StateLive ∨ state = "") then id +:+ "." +:+ ext
           else ("_" +:+ state) +:+ "/" +:+ id +:+ "." +:+ ext).
Proof.
  intros Hroot Ht Hty Hid Hext Hst.
  rewrite contentKey_plain, contentPrefix_plain by assumption.
  case_decide; rewrite ?append_assoc; reflexivity.
Qed.

(** No content key lies under the comment directory of another state. *)
Lemma contentKey_not_comment s tenant contentType id ext fromState toState :
  plain_root s → plain tenant → plain contentType → plain id →
  no_slash ext → no_slash fromState → no_slash toState →
  toState ≠ fromState →
  String.prefix (commentPrefix s tenant contentType id fromState)
                (contentKey s tenant contentType id ext toState) = false.
Proof.
  intros Hroot Ht Hty Hid Hext Hfrom Hto Hne.
  rewrite commentPrefix_plain, contentKey_form by assumption.
  rewrite !prefix_append.
  pose proof (plain_file id ext Hid Hext) as (_ & _ & _ & Hfile).
  destruct (String.prefix _ _) eqn:Hpre; [exfalso|reflexivity].
  apply prefix_split in Hpre as [r Hr].
  set (fromDir := "_" +:+ fromState) in *.
  set (toDir := "_" +:+ toState) in *.
  rewrite !append_assoc in Hr.
  case_decide.
  - apply (has_slash fromDir ("_comments/" +:+ id +:+ "/" +:+ r)).
    by rewrite <- Hr.
  - apply Hne.
    apply (first_slash_inj toDir fromDir) in Hr.
    + by injection Hr.
    + by apply no_slash_cons.
    + by apply no_slash_cons.
Qed.

(** Nor under the comment directory of its own state: a file name holds
    no slash. *)
Lemma contentKey_outside_comments s tenant contentType id ext fromState
    toState :
  plain_root s → plain tenant → plain contentType → plain id →
  no_slash ext → no_slash fromState → no_slash toState →
  String.prefix (commentPrefix s tenant contentType id fromState)
                (contentKey s tenant contentType id ext toState) = false.
Proof.
  intros Hroot Ht Hty Hid Hext Hfrom Hto.
  destruct (decide (toState = fromState)) as [->|Hne];
    [|by apply contentKey_not_comment].
  rewrite commentPrefix_plain, contentKey_form by assumption.
  rewrite !prefix_append.
  pose proof (plain_file id ext Hid Hext) as (_ & _ & _ & Hfile).
  destruct (String.prefix _ _) eqn:Hpre; [exfalso|reflexivity].
  apply prefix_split in Hpre as [r Hr].
  set (dir := "_" +:+ fromState) in *.
  rewrite !append_assoc in Hr.
  case_decide.
  - apply (has_slash dir ("_comments/" +:+ id +:+ "/" +:+ r)).
    by rewrite <- Hr.
  - apply append_inj_l in Hr. change ("/" +:+ ?x) with (String "/" x) in Hr.
    injection Hr as Hr.
    apply (has_slash "_comments" (id +:+ "/" +:+ r)).
    change ("_comments/" +:+ id +:+ "/" +:+ r)
      with ("_comments" +:+ "/" +:+ id +:+ "/" +:+ r) in Hr.
    by rewrite <- Hr.
Qed.

(** The keys of one item in two different states differ. *)
Lemma contentKey_state_inj s tenant contentType id ext state1 state2 :
  plain_root s → plain tenant → plain contentType → plain id →
  no_slash ext → no_slash state1 → no_slash state2 →
  contentKey s tenant contentType id ext (default_state state1)
  = contentKey s tenant contentType id ext (default_state state2) →
  default_state state1 = default_state state2.
Proof.
  intros Hroot Ht Hty Hid Hext Hst1 Hst2.
  assert (Hd : ∀ st, no_slash st → no_slash (default_state st))
    by (intros st Hst; unfold default_state; by case_decide).
  rewrite !contentKey_form by auto.
  pose proof (plain_file id ext Hid Hext) as (_ & _ & _ & Hfile).
  set (dir1 := "_" +:+ default_state state1).
  set (dir2 := "_" +:+ default_state state2).
  intros Heq. repeat apply append_inj_l in Heq.
  assert (Hlive : ∀ st, st = StateLive ∨ st = "" →
                        default_state st = StateLive).
  { intros st [->| ->]; reflexivity. }
  assert (Hidem : ∀ st, default_state (default_state st) = default_state st).
  { intros st. unfold default_state. by repeat case_decide. }
  repeat case_decide.
  - rewrite <- (Hidem state1), <- (Hidem state2). by rewrite !Hlive.
  - exfalso. apply (has_slash dir2 (id +:+ "." +:+ ext)). by rewrite <- Heq.
  - exfalso. apply (has_slash dir1 (id +:+ "." +:+ ext)). by rewrite Heq.
  - apply first_slash_inj in Heq; [by injection Heq| |];
      apply no_slash_cons; split; auto.
Qed.

(** ** Where the moved content ends up *)

Lemma DeleteObject_other key k versionId b :
  key ≠ k →
  S3.versions_of (S3.DeleteObject key versionId b).2 k = S3.versions_of b k.
Proof.
  intros Hne. unfold S3.DeleteObject.
  destruct (S3.delete_fault b key); [reflexivity|]. cbn [snd].
  by apply versions_of_set_versions_ne.
Qed.

Lemma PutObject_other i k b :
  S3.put_Key i ≠ k →
  S3.versions_of (S3.PutObject i b).2 k = S3.versions_of b k.
Proof.
  intros Hne. unfold S3.PutObject.
  destruct (S3.object_fault b (S3.put_Key i)); [reflexivity|]. cbn [snd].
  by apply versions_of_set_versions_ne.
Qed.

(** A read depends on the versions under its key and on the faults. *)
Lemma GetObject_ext key versionId b b' :
  S3.versions_of b' key = S3.versions_of b key →
  S3.faults b' = S3.faults b →
  S3.GetObject key versionId b' = S3.GetObject key versionId b.
Proof.
  intros Hv Hf. unfold S3.GetObject, S3.output_of, S3.object_fault,
    S3.body_fault. by rewrite Hv, Hf.
Qed.

Lemma getByKey_current s key w item :
  (getByKey s key "" w).1 = inr item →
  ∃ ov older,
    S3.versions_of (s3Client w) key = ov :: older
    ∧ S3.ov_IsDeleteMarker ov = false
    ∧ ContentItem.Content item = S3.ov_Body ov.
Proof.
  unfold getByKey. unfold_M. change (nonempty "") with (@None string).
  unfold S3.GetObject.
  destruct (S3.object_fault (s3Client w) key); [discriminate|].
  cbn [S3.select_version].
  destruct (S3.versions_of (s3Client w) key) as [|ov older];
    [discriminate|]. cbn [head].
  destruct (S3.ov_IsDeleteMarker ov) eqn:Hdm; [discriminate|].
  unfold io_ReadAll, S3.output_of. cbn [S3.get_Body S3.rc_err S3.rc_data].
  destruct (S3.body_fault (s3Client w) key); [discriminate|].
  intros [= <-]. by exists ov, older.
Qed.

Lemma versions_of_lookup b key ov older :
  S3.versions_of b key = ov :: older →
  S3.objects b !! key = Some (ov :: older).
Proof.
  unfold S3.versions_of.
  destruct (S3.objects b !! key) as [vs|]; simpl; intros Heq;
    [by rewrite Heq|discriminate].
Qed.

(** Whatever the listing returns is stored under the comment prefix. *)
Lemma ListComments_stored `{CommentJSON} s tenant contentType contentID
    state w comments c :
  (ListComments s tenant contentType contentID state w).1 = inr comments →
  c ∈ comments →
  stored_comment s tenant contentType contentID state (s3Client w) c.
Proof.
  unfold ListComments. unfold_M. unfold S3.ListObjectsV2.
  destruct (S3.list_fault _ _); [discriminate|].
  set (prefix := commentPrefix s tenant contentType contentID state).
  set (contents := S3.object_of
                     <$> filter (λ kv, S3.is_current kv = true)
                                (S3.entries_under prefix (s3Client w))).
  pose proof (list_comments_loop_elem s contents w c) as Helem.
  destruct (list_comments_loop s contents w) as [cs w1].
  cbn [fst] in *. intros [= <-] Hc.
  apply Helem in Hc as (obj & key & item & Hin & Hkey & Hget & Hdec).
  apply list_elem_of_fmap in Hin as ([key' vs] & -> & Hin).
  apply list_elem_of_filter in Hin as [_ Hin].
  apply entries_under_elem in Hin as [Hpre _]. cbn [fst snd] in *.
  assert (key' = key) as ->.
  { unfold S3.object_of in Hkey. cbn [fst snd] in Hkey.
    destruct vs; cbn in Hkey; congruence. }
  apply getByKey_current in Hget as (ov & older & Hvs & Hdm & Hbody).
  exists key, ov, older. rewrite <- Hbody.
  split; [exact Hpre|]. split; [by apply versions_of_lookup|]. done.
Qed.

Lemma DeleteComment_other `{CommentJSON} s tenant contentType contentID
    state id k w :
  commentKey s tenant contentType contentID state id ≠ k →
  S3.versions_of
    (s3Client (DeleteComment s tenant contentType contentID state id w).2) k
  = S3.versions_of (s3Client w) k.
Proof.
  intros Hne. unfold DeleteComment, bind, ret, s3_DeleteObject. cbv zeta.
  pose proof (DeleteObject_other _ k None (s3Client w) Hne) as Hv.
  by destruct (S3.DeleteObject _ None (s3Client w)) as [[e|[]] b'].
Qed.

Lemma delete_comments_loop_other `{CommentJSON} s tenant contentType
    contentID state comments k w :
  (∀ c, c ∈ comments →
        commentKey s tenant contentType contentID state (Comment.ID c) ≠ k) →
  S3.versions_of
    (s3Client (delete_comments_loop s tenant contentType contentID state
                                    comments w).2) k
  = S3.versions_of (s3Client w) k.
Proof.
  revert w. induction comments as [|c rest IH]; intros w Hne; [reflexivity|].
  cbn [delete_comments_loop]. unfold bind at 1.
  pose proof (DeleteComment_other s tenant contentType contentID state
                (Comment.ID c) k w (Hne c ltac:(left))) as Hstep.
  destruct (DeleteComment s tenant contentType contentID state
              (Comment.ID c) w) as [r w1]. cbn [snd] in Hstep.
  unfold bind at 1.
  destruct r as [err|[]]; unfold log_Error, ret; rewrite IH;
    try (intros c' Hc'; apply Hne; by right); exact Hstep.
Qed.

Lemma DeleteAllComments_other `{CommentJSON} s tenant contentType contentID
    state k w :
  (∀ c, stored_comment s tenant contentType contentID state (s3Client w) c →
        commentKey s tenant contentType contentID state (Comment.ID c) ≠ k) →
  S3.versions_of
    (s3Client (DeleteAllComments s tenant contentType contentID state w).2) k
  = S3.versions_of (s3Client w) k.
Proof.
  intros Hne. unfold DeleteAllComments. unfold bind at 1.
  pose proof (ListComments_readonly s tenant contentType contentID state w)
    as Hro.
  pose proof (ListComments_stored s tenant contentType contentID state w)
    as Hstored.
  destruct (ListComments s tenant contentType contentID state w)
    as [[e|cs] w1]; cbn [fst snd] in *; subst w1; [reflexivity|].
  unfold bind, ret.
  pose proof (delete_comments_loop_other s tenant contentType contentID
                state cs k w) as Hloop.
  destruct (delete_comments_loop s tenant contentType contentID state cs w)
    as [[] w3]. cbn [snd] in *. apply Hloop.
  intros c Hc. apply Hne. by eapply Hstored.
Qed.

(** ** Deletes the service refuses *)

(** A key whose deletes are refused keeps its versions through any
    delete request. *)
Lemma DeleteObject_refused key versionId k b e :
  S3.delete_fault b k = Some e →
  S3.versions_of (S3.DeleteObject key versionId b).2 k = S3.versions_of b k.
Proof.
  intros Hk. destruct (decide (key = k)) as [->|Hne].
  - unfold S3.DeleteObject. by rewrite Hk.
  - by apply DeleteObject_other.
Qed.

Lemma DeleteComment_refused `{CommentJSON} s tenant contentType contentID
    state id k w e :
  S3.delete_fault (s3Client w) k = Some e →
  S3.versions_of
    (s3Client (DeleteComment s tenant contentType contentID state id w).2) k
  = S3.versions_of (s3Client w) k.
Proof.
  intros Hk. unfold DeleteComment, bind, ret, s3_DeleteObject. cbv zeta.
  pose proof (DeleteObject_refused
                (commentKey s tenant contentType contentID state id) None
                k (s3Client w) e Hk) as Hv.
  by destruct (S3.DeleteObject _ None (s3Client w)) as [[e'|[]] b'].
Qed.

Lemma delete_comments_loop_refused `{CommentJSON} s tenant contentType
    contentID state comments k w e :
  S3.delete_fault (s3Client w) k = Some e →
  S3.versions_of
    (s3Client (delete_comments_loop s tenant contentType contentID state
                                    comments w).2) k
  = S3.versions_of (s3Client w) k.
Proof.
  revert w. induction comments as [|c rest IH]; intros w Hk; [reflexivity|].
  cbn [delete_comments_loop]. unfold bind at 1.
  pose proof (DeleteComment_refused s tenant contentType contentID state
                (Comment.ID c) k w e Hk) as Hstep.
  pose proof (DeleteComment_only_deletes s tenant contentType contentID
                state (Comment.ID c) w) as [Hf _].
  destruct (DeleteComment s tenant contentType contentID state
              (Comment.ID c) w) as [r w1]. cbn [snd] in Hstep, Hf.
  unfold bind at 1.
  destruct r as [err|[]]; unfold log_Error, ret; rewrite IH;
    try exact Hstep; cbn [s3Client];
    by rewrite (delete_fault_faults _ _ k Hf).
Qed.

Lemma DeleteAllComments_refused `{CommentJSON} s tenant contentType
    contentID state k w e :
  S3.delete_fault (s3Client w) k = Some e →
  S3.versions_of
    (s3Client (DeleteAllComments s tenant contentType contentID state w).2) k
  = S3.versions_of (s3Client w) k.
Proof.
  intros Hk. unfold DeleteAllComments. unfold bind at 1.
  pose proof (ListComments_readonly s tenant contentType contentID state w)
    as Hro.
  destruct (ListComments s tenant contentType contentID state w)
    as [[e'|cs] w1]; cbn [fst snd] in *; subst w1; [reflexivity|].
  unfold bind, ret.
  pose proof (delete_comments_loop_refused s tenant contentType contentID
                state cs k w e Hk) as Hloop.
  by destruct (delete_comments_loop s tenant contentType contentID state
                 cs w) as [[] w3].
Qed.


Lemma ValidState_plain state :
  ValidState state = true → no_slash state ∧ default_state state = state.
Proof.
  unfold ValidState. case_decide as Hst; [|discriminate]. intros _.
  destruct Hst as [->|[->| ->]]; by split.
Qed.

(** The workflow moves content: when the ids are plain, both states are
    valid, the target key is healthy and the comments stored on the source
    have plain ids, a transition that reports success leaves the bytes and
    the MIME type of the source readable in the target state. *)
Theorem Transition_moves_content `{CommentJSON} s tenant contentType id ext
    fromState toState w item w' :
  plain_root s → plain tenant → plain contentType → plain id →
  no_slash ext →
  ValidState fromState = true → ValidState toState = true →
  S3.faults (s3Client w)
    !! contentKey s tenant contentType id ext toState = None →
  (∀ c, stored_comment s tenant contentType id fromState (s3Client w) c →
        plain (Comment.ID c)) →
  Transition s tenant contentType id ext fromState toState w
  = (inr item, w') →
  ∃ sourceItem moved,
    (Get s tenant contentType id ext fromState w).1 = inr sourceItem
    ∧ (Get s tenant contentType id ext toState w').1 = inr moved
    ∧ ContentItem.Content moved = ContentItem.Content sourceItem
    ∧ ContentItem.ContentType moved = ContentItem.ContentType sourceItem.
Proof.
  intros Hroot Ht Hty Hid Hext Hfrom Hto Hok Hids Hrun.
  apply ValidState_plain in Hfrom as [Hfrom Hdfrom].
  apply ValidState_plain in Hto as [Hto Hdto].
  apply Transition_ok_move in Hrun as [Hne Hrun].
  apply transition_move_steps in Hrun
    as (src & w1 & w2 & Hget & Hput & Hdel & Hclean & _).
  assert (Hsrc : S3.object_fault (s3Client w)
                   (contentKey s tenant contentType id ext
                               (default_state fromState)) = None).
  { apply (getByKey_ok_fault s _ "" w src).
    change ((Get s tenant contentType id ext fromState w).1 = inr src).
    by rewrite Hget. }
  rewrite Hdfrom in Hdel, Hsrc.
  set (fromKey := contentKey s tenant contentType id ext fromState) in *.
  set (toKey := contentKey s tenant contentType id ext toState) in *.
  assert (Hkeys : fromKey ≠ toKey).
  { intros Heq. apply Hne. rewrite <- Hdfrom, <- Hdto.
    apply (contentKey_state_inj s tenant contentType id ext); try done.
    by rewrite Hdfrom, Hdto. }
  (* the write *)
  set (input := {| S3.put_Key := toKey;
                   S3.put_Body := ContentItem.Content src;
                   S3.put_ContentLength := None;
                   S3.put_ContentType := Some (ContentItem.ContentType src);
                   S3.put_Metadata := None |}).
  destruct (PutObject_then_GetObject input (s3Client w) Hok)
    as (out & b1 & got & Hwrite & Hread & Hbody & Hmime).
  change (S3.put_Key input) with toKey in Hread.
  change (S3.put_Body input) with (ContentItem.Content src) in Hbody.
  change (S3.put_ContentType input)
    with (Some (ContentItem.ContentType src)) in Hmime.
  assert (Hw1 : s3Client w1 = b1).
  { rewrite Put_run in Hput. cbv zeta in Hput. rewrite Hdto in Hput.
    fold toKey in Hput. fold input in Hput. rewrite Hwrite in Hput.
    by injection Hput as _ <-. }
  (* the delete of the source, served or refused, touches no other key *)
  assert (Hf1 : S3.faults b1 = S3.faults (s3Client w)).
  { pose proof (PutObject_faults input (s3Client w)) as Hf.
    by rewrite Hwrite in Hf. }
  assert (Hf2 : S3.faults (s3Client w2) = S3.faults (s3Client w)).
  { by rewrite Hdel, DeleteObject_faults, Hw1. }
  assert (Hv2 : ∀ k, k ≠ fromKey → k ≠ toKey →
                     S3.versions_of (s3Client w2) k
                     = S3.versions_of (s3Client w) k).
  { intros k Hk1 Hk2.
    rewrite Hdel, DeleteObject_other, Hw1 by done.
    pose proof (PutObject_other input k (s3Client w)) as Hv.
    rewrite Hwrite in Hv. apply Hv. cbn [S3.put_Key input]. done. }
  (* the comments listed for deletion were stored from the start *)
  assert (Hstored : ∀ c,
             stored_comment s tenant contentType id fromState
                            (s3Client w2) c →
             commentKey s tenant contentType id fromState (Comment.ID c)
             ≠ toKey).
  { intros c (key & ov & older & Hpre & Hobj & Hdm & Hdec) Heq.
    assert (Hk1 : key ≠ fromKey).
    { intros ->. unfold fromKey in Hpre.
      by rewrite (contentKey_outside_comments s tenant contentType id ext
                    fromState fromState) in Hpre by done. }
    assert (Hk2 : key ≠ toKey).
    { intros ->. unfold toKey in Hpre.
      by rewrite (contentKey_outside_comments s tenant contentType id ext
                    fromState toState) in Hpre by done. }
    assert (Hplain : plain (Comment.ID c)).
    { apply Hids. exists key, ov, older. split; [exact Hpre|].
      split; [|done]. apply versions_of_lookup.
      rewrite <- (Hv2 key Hk1 Hk2). unfold S3.versions_of.
      by rewrite Hobj. }
    pose proof (contentKey_not_comment s tenant contentType id ext
                  fromState toState Hroot Ht Hty Hid Hext Hfrom Hto
                  ltac:(congruence)) as Hnot.
    fold toKey in Hnot. rewrite <- Heq in Hnot.
    rewrite commentKey_plain in Hnot by done.
    by rewrite prefix_append_r in Hnot. }
  assert (Hv' : S3.versions_of (s3Client w') toKey = S3.versions_of b1 toKey).
  { rewrite Hclean.
    transitivity (S3.versions_of (s3Client w2) toKey).
    - destruct (negb _); [|reflexivity].
      by apply DeleteAllComments_other.
    - rewrite Hdel, DeleteObject_other, Hw1 by done. reflexivity. }
  assert (Hf' : S3.faults (s3Client w') = S3.faults b1).
  { apply transition_move_only_deletes in Hclean as [-> _]. congruence. }
  exists src.
  eexists. split; [by rewrite Hget|].
  unfold Get, getByKey. unfold_M. cbv zeta. rewrite Hdto. fold toKey.
  change (nonempty "") with (@None string).
  rewrite (GetObject_ext toKey None b1 (s3Client w') Hv' Hf'), Hread.
  unfold io_ReadAll. rewrite Hbody. cbn [S3.rc_err S3.rc_data fst].
  split; [reflexivity|]. split; [reflexivity|].
  unfold item_of_output. cbn [ContentItem.ContentType]. by rewrite Hmime.
Qed.

Lemma Transition_moves_content_witness :
  plain_root dev ∧ plain "demo" ∧ plain "articles" ∧ plain "hello"
  ∧ (∀ c, stored_comment (H := example_codec) dev "demo" "articles" "hello"
                         StateDraft (s3Client world_reviewed) c →
          plain (Comment.ID c))
  ∧ ∃ item w' moved,
      Transition (H := example_codec) dev "demo" "articles" "hello" "json"
                 StateDraft StateLive world_reviewed = (inr item, w')
      ∧ (Get dev "demo" "articles" "hello" "json" StateLive w').1
        = inr moved
      ∧ ContentItem.Content moved = bytes "{}"
      ∧ ContentItem.ContentType moved = "application/json".
Proof.
  assert (Hroot : plain_root dev)
    by (apply plain_root_single; by apply plain_literal).
  assert (Ht : plain "demo") by (by apply plain_literal).
  assert (Hty : plain "articles") by (by apply plain_literal).
  assert (Hid : plain "hello") by (by apply plain_literal).
  assert (Hext : no_slash "json") by reflexivity.
  assert (Hids : ∀ c, stored_comment (H := example_codec) dev "demo"
                        "articles" "hello" StateDraft
                        (s3Client world_reviewed) c →
                      plain (Comment.ID c)).
  { intros c (key & ov & older & Hpre & Hobj & Hdm & Hdec).
    apply elem_of_map_to_list in Hobj.
    set (stored := map_to_list (S3.objects (s3Client world_reviewed)))
      in Hobj.
    vm_compute in stored. subst stored.
    repeat (apply elem_of_cons in Hobj as [Hobj|Hobj]);
      [| |by apply elem_of_nil in Hobj];
      injection Hobj as -> -> ->.
    all: try (vm_compute in Hpre; discriminate).
    all: vm_compute in Hdec; injection Hdec as <-; by apply plain_literal. }
  repeat (split; [assumption|]).
  destruct (Transition (H := example_codec) dev "demo" "articles" "hello"
              "json" StateDraft StateLive world_reviewed) as [r w'] eqn:Hrun.
  assert (Hok : ∃ item, r = inr item).
  { assert (Hr : r = (Transition (H := example_codec) dev "demo" "articles"
                        "hello" "json" StateDraft StateLive
                        world_reviewed).1)
      by (by rewrite Hrun).
    rewrite Hr. eexists. vm_compute. reflexivity. }
  destruct Hok as [item ->].
  destruct (Transition_moves_content (H := example_codec) dev "demo"
              "articles" "hello" "json" StateDraft StateLive world_reviewed
              item w' Hroot Ht Hty Hid Hext eq_refl eq_refl eq_refl Hids
              Hrun)
    as (src & moved & Hget & Hmoved & Hcontent & Hmime).
  exists item, w', moved. split; [reflexivity|]. split; [exact Hmoved|].
  assert (Hsrc : (Get dev "demo" "articles" "hello" "json" StateDraft
                      world_reviewed).1
                 = inr (ContentItem.Build_t
                          "development/tenants/demo/content/articles/_draft/hello.json"
                          (bytes "{}") "application/json" "v1" 1 2 "etag-1"
                          None))
    by (vm_compute; reflexivity).
  rewrite Hsrc in Hget. injection Hget as <-.
  split; [exact Hcontent|exact Hmime].
Defined.

(** ** The versions of one key *)

Lemma prefix_refl (k : string) : String.prefix k k = true.
Proof.
  rewrite <- (append_nil_r k) at 2. apply prefix_append_r.
Qed.

Lemma entries_under_NoDup prefix b : NoDup (S3.entries_under prefix b).*1.
Proof.
  unfold S3.entries_under.
  rewrite (merge_sort_Permutation S3.entry_le).
  eapply sublist_NoDup; [apply (NoDup_fst_map_to_list (S3.objects b))|].
  apply fmap_sublist, sublist_filter.
Qed.

(** The test for the entries of [key], as [ListVersions] or
    [pruneVersions] writes it. *)
Section OwnEntries.
Context (key : string) (own : S3.VersionEntry → Prop)
        `{!∀ v, Decision (own v)}.
Hypothesis own_key : ∀ v k, S3.ver_Key v = Some k → (own v ↔ k = key).

Lemma version_entries_own latest vs :
  filter own (S3.version_entries key latest vs)
  = S3.version_entries key latest vs.
Proof using own_key.
  revert latest. induction vs as [|ov vs IH]; intros latest; [reflexivity|].
  cbn [S3.version_entries]. cbv zeta.
  destruct (S3.ov_IsDeleteMarker ov); [apply IH|].
  rewrite filter_cons_True by (by eapply own_key). by rewrite IH.
Qed.

Lemma version_entries_other k latest vs :
  k ≠ key → filter own (S3.version_entries k latest vs) = [].
Proof using own_key.
  intros Hne. revert latest.
  induction vs as [|ov vs IH]; intros latest; [reflexivity|].
  cbn [S3.version_entries]. cbv zeta.
  destruct (S3.ov_IsDeleteMarker ov); [apply IH|].
  rewrite filter_cons_False; [apply IH|].
  intros Hown. eapply own_key in Hown; [|reflexivity]. done.
Qed.

(** Among the entries of a version listing, those of one key. *)
Lemma own_entries_absent (l : list (string * list S3.ObjectVersion)) :
  key ∉ l.*1 →
  filter own (concat ((λ kv, S3.version_entries kv.1 true kv.2) <$> l)) = [].
Proof using own_key.
  induction l as [|[k vs] l IH]; [reflexivity|].
  rewrite fmap_cons, not_elem_of_cons. cbn [fst]. intros [Hne Hl].
  rewrite fmap_cons. cbn [concat fst snd].
  rewrite filter_app, (IH Hl), version_entries_other by done. reflexivity.
Qed.

Lemma own_entries vs (l : list (string * list S3.ObjectVersion)) :
  NoDup l.*1 → (key, vs) ∈ l →
  filter own (concat ((λ kv, S3.version_entries kv.1 true kv.2) <$> l))
  = S3.version_entries key true vs.
Proof using own_key.
  induction l as [|[k vs'] l IH]; [by intros _ ?%elem_of_nil|].
  rewrite fmap_cons. intros [Hk Hl]%NoDup_cons Hin.
  rewrite fmap_cons. cbn [concat fst snd] in *. rewrite filter_app.
  apply elem_of_cons in Hin as [[= <- <-]|Hin].
  - rewrite version_entries_own, own_entries_absent by done.
    apply app_nil_r.
  - assert (k ≠ key).
    { intros ->. apply Hk. by apply (list_elem_of_fmap_2 fst) in Hin. }
    rewrite version_entries_other by done. by apply IH.
Qed.

Lemma ListObjectVersions_own b :
  S3.list_fault b key = None →
  ∃ versions,
    S3.ListObjectVersions key b = inr versions
    ∧ filter own versions
      = S3.version_entries key true (S3.versions_of b key).
Proof using own_key.
  intros Hok. unfold S3.ListObjectVersions. rewrite Hok.
  eexists. split; [reflexivity|].
  unfold S3.versions_of.
  destruct (S3.objects b !! key) as [vs|] eqn:Hobj.
  - apply own_entries; [apply entries_under_NoDup|].
    apply entries_under_elem. split; [apply prefix_refl|exact Hobj].
  - apply own_entries_absent.
    intros ([k vs] & -> & Hin)%list_elem_of_fmap.
    apply entries_under_elem in Hin as [_ Hin]. cbn [fst snd] in *.
    congruence.
Qed.

End OwnEntries.

Lemma version_entries_ids key latest vs :
  S3.ver_VersionId <$> S3.version_entries key latest vs
  = (λ ov, Some (S3.shown_id ov))
      <$> filter (λ ov, S3.ov_IsDeleteMarker ov = false) vs.
Proof.
  revert latest. induction vs as [|ov vs IH]; intros latest; [reflexivity|].
  cbn [S3.version_entries]. cbv zeta.
  destruct (S3.ov_IsDeleteMarker ov) eqn:Hdm.
  - rewrite filter_cons_False by congruence. apply IH.
  - rewrite filter_cons_True by done. rewrite !fmap_cons, IH. reflexivity.
Qed.

Lemma version_entries_sizes key latest vs :
  S3.ver_Size <$> S3.version_entries key latest vs
  = (λ ov, Some (Z.of_nat (length (S3.ov_Body ov))))
      <$> filter (λ ov, S3.ov_IsDeleteMarker ov = false) vs.
Proof.
  revert latest. induction vs as [|ov vs IH]; intros latest; [reflexivity|].
  cbn [S3.version_entries]. cbv zeta.
  destruct (S3.ov_IsDeleteMarker ov) eqn:Hdm.
  - rewrite filter_cons_False by congruence. apply IH.
  - rewrite filter_cons_True by done. rewrite !fmap_cons, IH. reflexivity.
Qed.

(** [ListVersions] reports the versions of the item itself and of no
    other object whose key starts with the item's key: when the listing
    goes through, the version ids and sizes returned are those of the
    versions of the live key that hold an object, newest first, delete
    markers left out. *)
Theorem ListVersions_own_versions s tenant contentType id ext w :
  S3.request_fault (s3Client w)
    (contentKey s tenant contentType id ext StateLive) = None →
  ∃ versions,
    ListVersions s tenant contentType id ext w = (inr versions, w)
    ∧ ContentVersion.VersionID <$> versions
      = S3.shown_id
          <$> S3.object_versions (s3Client w)
                (contentKey s tenant contentType id ext StateLive)
    ∧ ContentVersion.Size <$> versions
      = (λ ov, Z.of_nat (length (S3.ov_Body ov)))
          <$> S3.object_versions (s3Client w)
                (contentKey s tenant contentType id ext StateLive).
Proof.
  intros Hok. unfold ListVersions. unfold_M. cbv zeta.
  destruct (ListObjectVersions_own
              (contentKey s tenant contentType id ext StateLive)
              (λ v, S3.ver_Key v = Some
                      (contentKey s tenant contentType id ext StateLive))
              ltac:(intros v k Hk; cbn; rewrite Hk; split; congruence) _
              (request_fault_list _ _ Hok))
    as (versions & -> & Hown).
  eexists. split; [reflexivity|]. rewrite Hown.
  unfold S3.object_versions. rewrite <- !list_fmap_compose. split.
  - change (ContentVersion.VersionID ∘ version_of_entry)
      with (λ v, default "" (S3.ver_VersionId v)).
    rewrite (list_fmap_compose S3.ver_VersionId (default "")).
    rewrite version_entries_ids, <- list_fmap_compose. reflexivity.
  - change (ContentVersion.Size ∘ version_of_entry)
      with (λ v, default 0 (S3.ver_Size v)).
    rewrite (list_fmap_compose S3.ver_Size (default 0)).
    rewrite version_entries_sizes, <- list_fmap_compose. reflexivity.
Qed.

Lemma ListVersions_own_versions_witness :
  S3.request_fault (s3Client world_siblings)
    (contentKey dev "demo" "articles" "hello" "json" StateLive) = None
  ∧ listed_keys (List dev "demo" "articles" StateLive world_siblings).1
    = ["development/tenants/demo/content/articles/hello.json";
       "development/tenants/demo/content/articles/hello.json.bak"]
  ∧ ∃ versions,
      ListVersions dev "demo" "articles" "hello" "json" world_siblings
      = (inr versions, world_siblings)
      ∧ ContentVersion.VersionID <$> versions = ["v2"; "v1"].
Proof.
  assert (Hok : S3.request_fault (s3Client world_siblings)
                  (contentKey dev "demo" "articles" "hello" "json"
                              StateLive) = None)
    by (vm_compute; reflexivity).
  split; [exact Hok|]. split; [vm_compute; reflexivity|].
  destruct (ListVersions_own_versions dev "demo" "articles" "hello" "json"
              world_siblings Hok) as (versions & Hrun & Hids & _).
  exists versions. split; [exact Hrun|].
  rewrite Hids. vm_compute. reflexivity.
Defined.

(** ** Pruning *)

Lemma filter_ext_elem {A} (P Q : A → Prop) `{!∀ x, Decision (P x)}
    `{!∀ x, Decision (Q x)} (l : list A) :
  (∀ x, x ∈ l → (P x ↔ Q x)) → filter P l = filter Q l.
Proof.
  induction l as [|a l IH]; intros Hiff; [reflexivity|].
  rewrite !filter_cons.
  rewrite IH by (intros x Hx; apply Hiff; by right).
  apply decide_ext, Hiff. by left.
Qed.

Lemma filter_all {A} (P : A → Prop) `{!∀ x, Decision (P x)} (l : list A) :
  Forall P l → filter P l = l.
Proof.
  induction 1 as [|a l Ha _ IH]; [reflexivity|].
  by rewrite filter_cons_True, IH.
Qed.

Lemma filter_none {A} (P : A → Prop) `{!∀ x, Decision (P x)} (l : list A) :
  Forall (λ x, ¬ P x) l → filter P l = [].
Proof.
  induction 1 as [|a l Ha _ IH]; [reflexivity|].
  by rewrite filter_cons_False.
Qed.

(** Dropping from a list whose elements have distinct names everything
    past its first [n] elements. *)
Lemma filter_not_dropped {A B} `{!EqDecision B} (f : A → B) (n : nat)
    (l : list A) :
  NoDup (f <$> l) → filter (λ x, f x ∉ f <$> drop n l) l = take n l.
Proof.
  intros Hnd. rewrite <- (take_drop n l), fmap_app in Hnd.
  apply NoDup_app in Hnd as (_ & Hsep & _).
  transitivity (filter (λ x, f x ∉ f <$> drop n l)
                       (take n l ++ drop n l)%list);
    [by rewrite take_drop|].
  rewrite filter_app.
  rewrite (filter_all _ (take n l)).
  2:{ apply Forall_forall. intros x Hx. by apply Hsep, list_elem_of_fmap_2. }
  rewrite (filter_none _ (drop n l)); [apply app_nil_r|].
  apply Forall_forall. intros x Hx Hnot. by apply Hnot, list_elem_of_fmap_2.
Qed.

(** What the deletion loop leaves of the key, when the key's deletes are
    served and every entry names a version. *)
Lemma prune_delete_run key toDelete w :
  S3.delete_fault (s3Client w) key = None →
  Forall (λ v, is_Some (S3.ver_VersionId v)) toDelete →
  let w' := (prune_delete key toDelete w).2 in
  S3.versions_of (s3Client w') key
  = filter (λ ov, Some (S3.shown_id ov) ∉ S3.ver_VersionId <$> toDelete)
           (S3.versions_of (s3Client w) key)
  ∧ S3.faults (s3Client w') = S3.faults (s3Client w)
  ∧ ∀ k, k ≠ key →
         S3.versions_of (s3Client w') k = S3.versions_of (s3Client w) k.
Proof.
  intros Hok Hids. cbv zeta. revert w Hok.
  induction Hids as [|v rest [vid Hvid] _ IH]; intros w Hok.
  - cbn [prune_delete]. unfold ret. cbn [snd fmap list_fmap].
    split; [|done]. symmetry. apply filter_all, Forall_forall.
    intros ov _. apply not_elem_of_nil.
  - set (b1 := S3.set_versions (s3Client w) key
                 (filter (λ ov, S3.shown_id ov ≠ vid)
                         (S3.versions_of (s3Client w) key))
                 (S3.clock (s3Client w) + 1)).
    assert (∃ w1, s3Client w1 = b1
                  ∧ (prune_delete key (v :: rest) w).2
                    = (prune_delete key rest w1).2)
      as (w1 & Hb1 & ->).
    { cbn [prune_delete]. unfold bind, s3_DeleteObject, S3.DeleteObject.
      rewrite Hok, Hvid. cbv zeta. unfold log_Debug. fold b1.
      eexists. split; [|reflexivity]. reflexivity. }
    destruct (IH w1) as (Hvs & Hf & Hothers).
    { rewrite Hb1. unfold b1. by rewrite delete_fault_set_versions. }
    rewrite Hvs, Hf, Hb1. unfold b1 at 1 2.
    rewrite versions_of_set_versions. split; [|split; [reflexivity|]].
    + rewrite list_filter_filter. apply list_filter_iff. intros ov.
      rewrite fmap_cons, Hvid, not_elem_of_cons. split.
      * intros [Hrest Hne]. split; [congruence|done].
      * intros [Hne Hrest]. split; [done|congruence].
    + intros k Hk. rewrite Hothers, Hb1 by done. unfold b1.
      by rewrite versions_of_set_versions_ne.
Qed.

Lemma version_entries_named key latest vs :
  Forall (λ v, is_Some (S3.ver_VersionId v))
         (S3.version_entries key latest vs).
Proof.
  revert latest. induction vs as [|ov vs IH]; intros latest;
    [by apply Forall_nil|].
  cbn [S3.version_entries]. cbv zeta.
  destruct (S3.ov_IsDeleteMarker ov); [apply IH|].
  apply Forall_cons. split; [by eexists|apply IH].
Qed.

Lemma version_entries_length key latest vs :
  length (S3.version_entries key latest vs)
  = length (filter (λ ov, S3.ov_IsDeleteMarker ov = false) vs).
Proof.
  rewrite <- (length_fmap S3.ver_VersionId), version_entries_ids.
  apply length_fmap.
Qed.

(** The newest version is never among those dropped past a positive
    count. *)
Lemma head_not_dropped (n : nat) ov (rest : list S3.ObjectVersion) :
  (0 < n)%nat → NoDup (S3.shown_id <$> ov :: rest) →
  S3.shown_id ov
  ∉ S3.shown_id
      <$> drop n (filter (λ ov, S3.ov_IsDeleteMarker ov = false)
                         (ov :: rest)).
Proof.
  rewrite fmap_cons. intros Hn [Hov _]%NoDup_cons.
  intros (ov' & Hid & Hin)%list_elem_of_fmap. apply Hov. rewrite Hid.
  apply list_elem_of_fmap_2. rewrite filter_cons in Hin.
  destruct (decide (S3.ov_IsDeleteMarker ov = false)) as [Hdm|Hdm].
  - destruct n as [|m]; [lia|]. cbn [drop] in Hin.
    apply subseteq_drop in Hin. by apply list_elem_of_filter in Hin as [_ ?].
  - apply subseteq_drop in Hin. by apply list_elem_of_filter in Hin as [_ ?].
Qed.

Lemma prune_delete_goroutines key toDelete w :
  goroutines (prune_delete key toDelete w).2 = goroutines w.
Proof.
  revert w. induction toDelete as [|v rest IH]; intros w; [reflexivity|].
  cbn [prune_delete]. unfold bind at 1. unfold s3_DeleteObject.
  destruct (S3.DeleteObject key (S3.ver_VersionId v) (s3Client w))
    as [[e|[]] b']; unfold bind, log_Error, log_Debug; by rewrite IH.
Qed.

(** What a pruning leaves of the key: the versions whose ids are not among
    those of the versions holding an object past the first
    [maxVersions]. *)
Lemma pruneVersions_left s key w :
  0 < maxVersions s →
  S3.list_fault (s3Client w) key = None →
  S3.delete_fault (s3Client w) key = None →
  ∃ w',
    pruneVersions s key w = (Returned, w')
    ∧ S3.versions_of (s3Client w') key
      = filter (λ ov, S3.shown_id ov
                      ∉ S3.shown_id
                          <$> drop (Z.to_nat (maxVersions s))
                                   (S3.object_versions (s3Client w) key))
               (S3.versions_of (s3Client w) key)
    ∧ S3.faults (s3Client w') = S3.faults (s3Client w)
    ∧ goroutines w' = goroutines w
    ∧ ∀ k, k ≠ key →
           S3.versions_of (s3Client w') k = S3.versions_of (s3Client w) k.
Proof.
  intros Hmax Hls Hok.
  destruct (ListObjectVersions_own key
              (λ v, default "" (S3.ver_Key v) = key)
              ltac:(intros v k Hk; cbn; rewrite Hk; done) _ Hls)
    as (versions & Hlist & Hown).
  unfold pruneVersions. unfold bind at 1. unfold s3_ListObjectVersions.
  rewrite Hlist. cbv zeta. rewrite Hown.
  set (vs := S3.versions_of (s3Client w) key) in *.
  set (held := filter (λ ov, S3.ov_IsDeleteMarker ov = false) vs).
  assert (Hheld : S3.object_versions (s3Client w) key = held) by reflexivity.
  rewrite Hheld, version_entries_length. fold held.
  set (n := Z.to_nat (maxVersions s)).
  destruct (maxVersions s <? Z.of_nat (length held)) eqn:Hmore.
  - destruct (maxVersions s <? 0) eqn:Hneg; [apply Z.ltb_lt in Hneg; lia|].
    set (toDelete := drop n (S3.version_entries key true vs)).
    destruct (prune_delete_run key toDelete w Hok) as (Hvs' & Hf & Hothers).
    { apply Forall_drop, version_entries_named. }
    pose proof (prune_delete_goroutines key toDelete w) as Hgo.
    unfold bind, ret.
    destruct (prune_delete key toDelete w) as [[] w'] eqn:Hrun.
    cbn [snd] in *. exists w'. split; [reflexivity|].
    split; [|done].
    rewrite Hvs'. unfold toDelete.
    rewrite fmap_drop, version_entries_ids, <- fmap_drop. fold held.
    rewrite (list_fmap_compose S3.shown_id Some).
    apply list_filter_iff. intros ov.
    by rewrite (list_elem_of_fmap_inj Some).
  - exists w. split; [reflexivity|]. split; [|done].
    apply Z.ltb_ge in Hmore.
    rewrite drop_ge by (unfold n; lia).
    symmetry. apply filter_all, Forall_forall.
    intros ov _. apply not_elem_of_nil.
Qed.

Lemma kept_objects (n : nat) (vs : list S3.ObjectVersion) :
  NoDup (S3.shown_id <$> vs) →
  filter (λ ov, S3.ov_IsDeleteMarker ov = false)
         (filter (λ ov, S3.shown_id ov
                        ∉ S3.shown_id
                            <$> drop n (filter (λ ov, S3.ov_IsDeleteMarker ov
                                                      = false) vs))
                 vs)
  = take n (filter (λ ov, S3.ov_IsDeleteMarker ov = false) vs).
Proof.
  intros Hids.
  set (held := filter (λ ov, S3.ov_IsDeleteMarker ov = false) vs).
  rewrite list_filter_filter.
  rewrite (list_filter_iff _
             (λ ov, (S3.shown_id ov ∉ S3.shown_id <$> drop n held)
                    ∧ S3.ov_IsDeleteMarker ov = false))
    by (intros ov; tauto).
  rewrite <- list_filter_filter. fold held.
  apply filter_not_dropped.
  eapply sublist_NoDup; [exact Hids|].
  apply fmap_sublist, sublist_filter.
Qed.

Lemma kept_current (n : nat) b b' key :
  (0 < n)%nat →
  NoDup (S3.shown_id <$> S3.versions_of b key) →
  S3.versions_of b' key
  = filter (λ ov, S3.shown_id ov
                  ∉ S3.shown_id <$> drop n (S3.object_versions b key))
           (S3.versions_of b key) →
  S3.current b' key = S3.current b key.
Proof.
  intros Hn Hids Hleft. unfold S3.current, S3.object_versions in *.
  rewrite Hleft.
  destruct (S3.versions_of b key) as [|ov rest]; [reflexivity|].
  rewrite filter_cons_True; [reflexivity|].
  by apply head_not_dropped.
Qed.

(** Pruning keeps the newest [maxVersions] versions and nothing else
    changes: on a healthy key whose version ids are distinct,
    [pruneVersions] with a positive cap returns, leaves of the versions
    holding an object exactly the newest [maxVersions], keeps the current
    object of the key as it was, and touches no other key. *)
Theorem pruneVersions_keeps_newest s key w :
  0 < maxVersions s →
  S3.request_fault (s3Client w) key = None →
  NoDup (S3.shown_id <$> S3.versions_of (s3Client w) key) →
  ∃ w',
    pruneVersions s key w = (Returned, w')
    ∧ S3.object_versions (s3Client w') key
      = take (Z.to_nat (maxVersions s))
             (S3.object_versions (s3Client w) key)
    ∧ S3.current (s3Client w') key = S3.current (s3Client w) key
    ∧ ∀ k, k ≠ key →
           S3.versions_of (s3Client w') k = S3.versions_of (s3Client w) k.
Proof.
  intros Hmax Hok Hids.
  destruct (pruneVersions_left s key w Hmax (request_fault_list _ _ Hok)
              (request_fault_delete _ _ Hok))
    as (w' & Hrun & Hleft & _ & _ & Hothers).
  exists w'. split; [exact Hrun|]. split; [|split; [|exact Hothers]].
  - unfold S3.object_versions in *. rewrite Hleft. by apply kept_objects.
  - apply (kept_current (Z.to_nat (maxVersions s))); [lia|exact Hids|].
    exact Hleft.
Qed.

Lemma pruneVersions_keeps_newest_witness :
  let key := contentKey dev "demo" "articles" "hello" "json" StateLive in
  S3.shown_id <$> S3.object_versions (s3Client three_puts) key
  = ["v3"; "v2"; "v1"]
  ∧ ∃ w',
      pruneVersions dev key three_puts = (Returned, w')
      ∧ S3.shown_id <$> S3.object_versions (s3Client w') key = ["v3"; "v2"].
Proof.
  cbv zeta.
  set (key := contentKey dev "demo" "articles" "hello" "json" StateLive).
  assert (Hheld : S3.shown_id <$> S3.object_versions (s3Client three_puts) key
                  = ["v3"; "v2"; "v1"]) by (vm_compute; reflexivity).
  split; [exact Hheld|].
  assert (Hmax : 0 < maxVersions dev) by reflexivity.
  assert (Hok : S3.request_fault (s3Client three_puts) key = None)
    by (vm_compute; reflexivity).
  assert (Hids : NoDup (S3.shown_id
                          <$> S3.versions_of (s3Client three_puts) key)).
  { assert (Hvs : S3.shown_id <$> S3.versions_of (s3Client three_puts) key
                  = ["v3"; "v2"; "v1"]) by (vm_compute; reflexivity).
    rewrite Hvs. apply (bool_decide_unpack _). by vm_compute. }
  destruct (pruneVersions_keeps_newest dev key three_puts Hmax Hok Hids)
    as (w' & Hrun & Hkept & _).
  exists w'. split; [exact Hrun|].
  rewrite Hkept, fmap_take, Hheld. reflexivity.
Defined.

(** ** The history log *)

Lemma list_history_loop_readonly `{HistoryJSON} s contents w :
  (list_history_loop s contents w).2 = w.
Proof.
  revert w. induction contents as [|obj rest IH]; intros w;
    cbn [list_history_loop]; [reflexivity|].
  destruct (S3.obj_Key obj) as [key|]; [|apply IH].
  unfold bind at 1.
  pose proof (getByKey_readonly s key "" w) as Hro.
  destruct (getByKey s key "" w) as [[e|item] w1]; cbn [snd] in Hro;
    subst w1; [apply IH|].
  destruct (history_Unmarshal (ContentItem.Content item)); [apply IH|].
  unfold bind, ret. specialize (IH w).
  by destruct (list_history_loop s rest w) as [rs w2].
Qed.

Lemma ListHistoryRecords_readonly `{HistoryJSON} s tenant contentType id w :
  (ListHistoryRecords s tenant contentType id w).2 = w.
Proof.
  unfold ListHistoryRecords. unfold_M.
  destruct (S3.ListObjectsV2 _ None (s3Client w)) as [e|contents];
    [reflexivity|].
  pose proof (list_history_loop_readonly s contents w) as Hro.
  by destruct (list_history_loop s contents w) as [rs w1].
Qed.

(** The record the loop ends on, started from [cur]: [cur] itself when
    nothing later is strictly newer, else the first record strictly newer
    than everything before it and at least as new as everything after. *)
Lemma latest_record_from cur records :
  ∃ l,
    latest_record (Some cur) records = Some l
    ∧ Forall (λ r, HistoryRecord.Timestamp r ≤ HistoryRecord.Timestamp l)
             records
    ∧ ((l = cur)
       ∨ ∃ before after,
           records = (before ++ l :: after)%list
           ∧ HistoryRecord.Timestamp cur < HistoryRecord.Timestamp l
           ∧ Forall (λ r, HistoryRecord.Timestamp r
                          < HistoryRecord.Timestamp l) before).
Proof.
  revert cur. induction records as [|r rest IH]; intros cur.
  - exists cur. split; [reflexivity|]. split; [by apply Forall_nil|by left].
  - cbn [latest_record].
    destruct (HistoryRecord.Timestamp cur <? HistoryRecord.Timestamp r)
      eqn:Hnewer.
    + apply Z.ltb_lt in Hnewer.
      destruct (IH r) as (l & -> & Hall & Hwhere). exists l.
      split; [reflexivity|].
      destruct Hwhere as [->|(before & after & -> & Hlt & Hbefore)].
      * split; [apply Forall_cons; split; [lia|exact Hall]|].
        right. exists [], rest. split; [reflexivity|].
        split; [exact Hnewer|by apply Forall_nil].
      * split; [apply Forall_cons; split; [lia|exact Hall]|].
        right. exists (r :: before), after. split; [reflexivity|].
        split; [lia|]. apply Forall_cons. split; [exact Hlt|exact Hbefore].
    + apply Z.ltb_ge in Hnewer.
      destruct (IH cur) as (l & -> & Hall & Hwhere). exists l.
      split; [reflexivity|].
      destruct Hwhere as [->|(before & after & -> & Hlt & Hbefore)].
      * split; [apply Forall_cons; split; [lia|exact Hall]|]. by left.
      * split; [apply Forall_cons; split; [lia|exact Hall]|].
        right. exists (r :: before), after. split; [reflexivity|].
        split; [exact Hlt|]. apply Forall_cons. split; [lia|exact Hbefore].
Qed.

(** [GetLatestHistoryVersion] reads only, passes a listing error on as it
    is, answers the empty string for an empty history, and otherwise the
    version of the first record that carries the greatest timestamp: every
    record listed before it is strictly older, none after it is newer. *)
Theorem GetLatestHistoryVersion_first_newest `{HistoryJSON} s tenant
    contentType id w :
  (GetLatestHistoryVersion s tenant contentType id w).2 = w
  ∧ match (ListHistoryRecords s tenant contentType id w).1 with
    | inl err =>
        (GetLatestHistoryVersion s tenant contentType id w).1 = inl err
    | inr [] =>
        (GetLatestHistoryVersion s tenant contentType id w).1 = inr ""
    | inr records =>
        ∃ before l after,
          records = (before ++ l :: after)%list
          ∧ (GetLatestHistoryVersion s tenant contentType id w).1
            = inr (HistoryRecord.Version l)
          ∧ Forall (λ r, HistoryRecord.Timestamp r
                         < HistoryRecord.Timestamp l) before
          ∧ Forall (λ r, HistoryRecord.Timestamp r
                         ≤ HistoryRecord.Timestamp l) after
    end.
Proof.
  unfold GetLatestHistoryVersion, bind.
  pose proof (ListHistoryRecords_readonly s tenant contentType id w) as Hro.
  destruct (ListHistoryRecords s tenant contentType id w)
    as [[err|records] w1]; cbn [fst snd] in *; subst w1; [done|].
  destruct records as [|r rest]; [done|].
  cbn [length Z.of_nat Z.eqb latest_record]. unfold ret. cbn [fst snd].
  split; [reflexivity|].
  destruct (latest_record_from r rest) as (l & -> & Hall & Hwhere).
  destruct Hwhere as [->|(before & after & -> & Hlt & Hbefore)].
  - exists [], r, rest. split; [reflexivity|]. split; [reflexivity|].
    split; [by apply Forall_nil|exact Hall].
  - exists (r :: before), l, after. split; [reflexivity|].
    split; [reflexivity|]. split.
    + apply Forall_cons. split; [exact Hlt|exact Hbefore].
    + apply Forall_app in Hall as [_ Hall].
      by apply Forall_cons in Hall as [_ Hall].
Qed.

(** A history record written with [PutHistoryRecord] is what
    [GetHistoryRecord] returns for its version, when the codec decodes what
    it encoded and the key of the record is healthy. *)
Theorem PutHistoryRecord_GetHistoryRecord `{HistoryJSON} s tenant
    contentType id record data w :
  history_Marshal record = inr data →
  history_Unmarshal data = inr record →
  S3.faults (s3Client w)
    !! historyKey s tenant contentType id (HistoryRecord.Version record)
  = None →
  ∃ w',
    PutHistoryRecord s tenant contentType id record w = (inr (), w')
    ∧ GetHistoryRecord s tenant contentType id
                       (HistoryRecord.Version record) w'
      = (inr record, w').
Proof.
  intros Henc Hdec Hok.
  destruct (put_json_then_getByKey s _ data w Hok)
    as (out & w' & item & Hput & Hget & Hcontent).
  exists w'. unfold PutHistoryRecord, GetHistoryRecord, bind, ret.
  rewrite Henc, Hput, Hget, Hcontent, Hdec. done.
Qed.

Lemma PutHistoryRecord_GetHistoryRecord_witness :
  ∃ w',
    PutHistoryRecord (H := example_history_codec) dev "demo" "articles"
                     "hello" first_revision world_live = (inr (), w')
    ∧ GetHistoryRecord (H := example_history_codec) dev "demo" "articles"
                       "hello" "v1" w' = (inr first_revision, w').
Proof.
  exact (PutHistoryRecord_GetHistoryRecord (H := example_history_codec) dev
           "demo" "articles" "hello" first_revision (bytes "v1") world_live
           eq_refl eq_refl eq_refl).
Defined.

(** ** Single comments *)

(** A comment written with [PutComment] on a state other than live is
    what [GetComment] returns for its id, when the codec decodes what it
    encoded and the key of the comment is healthy. *)
Theorem PutComment_GetComment `{CommentJSON} `{CommentJSONError} s tenant
    contentType contentID state comment data w :
  state ≠ StateLive →
  json_Marshal comment = inr data →
  json_Unmarshal data = Some comment →
  S3.faults (s3Client w)
    !! commentKey s tenant contentType contentID state (Comment.ID comment)
  = None →
  ∃ w',
    PutComment s tenant contentType contentID state comment w = (inr (), w')
    ∧ GetComment s tenant contentType contentID state (Comment.ID comment) w'
      = (inr comment, w').
Proof.
  intros Hstate Henc Hdec Hok.
  destruct (put_json_then_getByKey s _ data w Hok)
    as (out & w' & item & Hput & Hget & Hcontent).
  exists w'. unfold PutComment, GetComment, bind, ret.
  rewrite decide_False by exact Hstate.
  rewrite Henc, Hput, Hget, Hcontent, Hdec. done.
Qed.

Lemma PutComment_GetComment_witness :
  ∃ w',
    PutComment (H := example_codec) dev "demo" "articles" "hello" StateDraft
               fix_it world_draft = (inr (), w')
    ∧ GetComment (H := example_codec) (H0 := example_codec_error) dev "demo"
                 "articles" "hello" StateDraft "c1" w'
      = (inr fix_it, w').
Proof.
  exact (PutComment_GetComment (H := example_codec)
           (H0 := example_codec_error) dev "demo" "articles" "hello"
           StateDraft fix_it (bytes "Uc1") world_draft
           ltac:(discriminate) eq_refl eq_refl eq_refl).
Defined.

(** What a write leaves under its key. *)
Lemma put_json_stored key data w :
  S3.object_fault (s3Client w) key = None →
  ∃ out w' ov older,
    put_json key data w = (inr out, w')
    ∧ S3.faults (s3Client w') = S3.faults (s3Client w)
    ∧ S3.objects (s3Client w') !! key = Some (ov :: older)
    ∧ S3.ov_IsDeleteMarker ov = false
    ∧ S3.ov_Body ov = data.
Proof.
  intros Hok. unfold put_json, s3_PutObject, S3.PutObject.
  cbn [S3.put_Key]. rewrite Hok. cbv zeta.
  eexists _, _, _, (if S3.versioning (s3Client w)
                    then S3.versions_of (s3Client w) key else []).
  split; [reflexivity|]. split; [reflexivity|].
  cbn [s3Client with_bucket]. split.
  - apply versions_of_lookup. rewrite versions_of_set_versions.
    destruct (S3.versioning (s3Client w)); reflexivity.
  - split; reflexivity.
Qed.

(** An unresolved comment posted through [PutComment] blocks the item: for
    plain identifiers, on a bucket without faults and with a codec that
    decodes what it encoded, once the comment is stored every transition
    of the item out of that state fails with the gate error and changes
    nothing. *)
Theorem unresolved_comment_blocks_transition `{CommentJSON} s tenant
    contentType id ext state toState comment data w :
  plain_root s → plain tenant → plain contentType → plain id →
  plain (Comment.ID comment) →
  state = StateDraft ∨ state = StatePending →
  toState ≠ state →
  json_Marshal comment = inr data →
  json_Unmarshal data = Some comment →
  Comment.Resolved comment = false →
  S3.faults (s3Client w) = ∅ →
  ∃ w',
    PutComment s tenant contentType id state comment w = (inr (), w')
    ∧ Transition s tenant contentType id ext state toState w'
      = (inl (Gated state), w').
Proof.
  intros Hroot Ht Hty Hid Hcid Hstate Hne Henc Hdec Hres Hfaults.
  assert (Hnoslash : no_slash state)
    by (by destruct Hstate as [->| ->]).
  assert (Hlive : state ≠ StateLive)
    by (by destruct Hstate as [->| ->]).
  set (key := commentKey s tenant contentType id state (Comment.ID comment)).
  assert (Hok : S3.object_fault (s3Client w) key = None)
    by (apply object_fault_healthy; rewrite Hfaults; apply lookup_empty).
  destruct (put_json_stored key data w Hok)
    as (out & w' & ov & older & Hput & Hf & Hobj & Hdm & Hbody).
  exists w'. split.
  { unfold PutComment, bind, ret. rewrite decide_False by exact Hlive.
    fold key. by rewrite Henc, Hput. }
  destruct (ListComments_lists_stored s tenant contentType id state w')
    as (comments & Hlist & Hstored); [by rewrite Hf|].
  assert (Hblocked : any_unresolved comments = true).
  { apply any_unresolved_spec. exists comment. split; [|exact Hres].
    apply Hstored. exists key, ov, older. split.
    - unfold key. rewrite commentKey_plain by done. apply prefix_append_r.
    - by rewrite Hbody. }
  unfold Transition. rewrite decide_False by congruence.
  rewrite (bool_decide_eq_false_2 _ Hlive). cbn [negb].
  unfold bind, ret. rewrite HasUnresolvedComments_eq, Hlist, Hblocked.
  reflexivity.
Qed.

Lemma unresolved_comment_blocks_transition_witness :
  ∃ w',
    PutComment (H := example_codec) dev "demo" "articles" "hello" StateDraft
               fix_it world_draft = (inr (), w')
    ∧ Transition (H := example_codec) dev "demo" "articles" "hello" "json"
                 StateDraft StateLive w' = (inl (Gated StateDraft), w').
Proof.
  assert (Hroot : plain_root dev)
    by (apply plain_root_single; by apply plain_literal).
  assert (Ht : plain "demo") by (by apply plain_literal).
  assert (Hty : plain "articles") by (by apply plain_literal).
  assert (Hid : plain "hello") by (by apply plain_literal).
  assert (Hcid : plain (Comment.ID fix_it)) by (by apply plain_literal).
  assert (Hfaults : S3.faults (s3Client world_draft) = ∅)
    by (vm_compute; reflexivity).
  exact (unresolved_comment_blocks_transition (H := example_codec) dev
           "demo" "articles" "hello" "json" StateDraft StateLive fix_it
           (bytes "Uc1") world_draft Hroot Ht Hty Hid Hcid
           (or_introl eq_refl) ltac:(discriminate) eq_refl eq_refl eq_refl
           Hfaults).
Defined.

(** ** Copies of an object onto itself *)

Lemma split_first_slash bkt rest :
  no_slash bkt →
  S3.split_first "/"%char (bkt +:+ "/" +:+ rest) = Some (bkt, rest).
Proof.
  induction bkt as [|c bkt IH]; intros Hbkt; [reflexivity|].
  apply no_slash_cons in Hbkt as [Hc Hbkt].
  rewrite append_cons. cbn [S3.split_first]. rewrite Hc.
  by rewrite (IH Hbkt).
Qed.

Lemma split_version_cons c s :
  S3.split_version (String c s)
  = if String.prefix "?versionId=" (String c s)
    then ("", Some (String.substring 11 (String.length (String c s) - 11)
                                     (String c s)))
    else let (key, v) := S3.split_version s in (String c key, v).
Proof. reflexivity. Qed.

Lemma prefix_first_differs (p s : string) c d :
  c ≠ d → String.prefix (String c p) (String d s) = false.
Proof.
  intros Hne.
  change (String.prefix (String c p) (String d s))
    with (match Ascii.ascii_dec c d with
          | left _ => String.prefix p s
          | right _ => false
          end).
  by destruct (Ascii.ascii_dec c d).
Qed.

Lemma no_question_cons c s :
  GoStrings.Contains (String c s) "?" = false →
  c ≠ "?"%char ∧ GoStrings.Contains s "?" = false.
Proof.
  change (GoStrings.Contains (String c s) "?")
    with (String.prefix "?" (String c s) || GoStrings.Contains s "?").
  intros [Hc Hs]%orb_false_elim. split; [|exact Hs].
  intros ->. by destruct s.
Qed.

(** A key without a question mark is read back from a copy source as it
    is, with or without a pinned version. *)
Lemma split_version_current key :
  GoStrings.Contains key "?" = false → S3.split_version key = (key, None).
Proof.
  induction key as [|c key IH]; intros Hkey; [reflexivity|].
  apply no_question_cons in Hkey as [Hc Hkey].
  rewrite split_version_cons, prefix_first_differs by congruence.
  by rewrite (IH Hkey).
Qed.

Lemma split_version_pinned key v :
  GoStrings.Contains key "?" = false →
  S3.split_version (key +:+ "?versionId=" +:+ v) = (key, Some v).
Proof.
  induction key as [|c key IH]; intros Hkey.
  - change ("" +:+ "?versionId=" +:+ v) with ("?versionId=" +:+ v).
    pose proof (substring_suffix "?versionId=" v) as Hsub.
    pose proof (prefix_append_r "?versionId=" v) as Hpre.
    destruct ("?versionId=" +:+ v) as [|c s] eqn:Hs; [discriminate|].
    rewrite split_version_cons, Hpre.
    change (String.length "?versionId=") with 11%nat in Hsub.
    by rewrite Hsub.
  - apply no_question_cons in Hkey as [Hc Hkey].
    rewrite append_cons, split_version_cons, prefix_first_differs
      by congruence.
    by rewrite (IH Hkey).
Qed.

Lemma parse_CopySource_current bkt key :
  no_slash bkt → GoStrings.Contains key "?" = false →
  S3.parse_CopySource (bkt +:+ "/" +:+ key) = Some (bkt, key, None).
Proof.
  intros Hbkt Hkey. unfold S3.parse_CopySource.
  by rewrite split_first_slash, split_version_current.
Qed.

Lemma parse_CopySource_pinned bkt key v :
  no_slash bkt → GoStrings.Contains key "?" = false →
  S3.parse_CopySource (bkt +:+ "/" +:+ key +:+ "?versionId=" +:+ v)
  = Some (bkt, key, Some v).
Proof.
  intros Hbkt Hkey. unfold S3.parse_CopySource.
  by rewrite split_first_slash, split_version_pinned.
Qed.

(** A copy of a version of [key] onto [key]. *)
Lemma CopyObject_onto_itself i b bkt v src :
  S3.object_fault b (S3.copy_Key i) = None →
  S3.parse_CopySource (S3.copy_CopySource i)
  = Some (bkt, S3.copy_Key i, v) →
  S3.select_version (S3.versions_of b (S3.copy_Key i)) v = Some src →
  S3.ov_IsDeleteMarker src = false →
  ∃ out b' ov,
    S3.CopyObject i b = (inr out, b')
    ∧ S3.copy_VersionId out = S3.ov_VersionId ov
    ∧ S3.faults b' = S3.faults b
    ∧ S3.versions_of b' (S3.copy_Key i)
      = ov :: (if S3.versioning b
               then S3.versions_of b (S3.copy_Key i) else [])
    ∧ S3.ov_IsDeleteMarker ov = false
    ∧ S3.ov_Body ov = S3.ov_Body src
    ∧ S3.ov_ContentType ov
      = match S3.copy_MetadataDirective i with
        | S3.COPY => S3.ov_ContentType src
        | S3.REPLACE => None
        end
    ∧ S3.ov_Metadata ov
      = match S3.copy_MetadataDirective i with
        | S3.COPY => S3.ov_Metadata src
        | S3.REPLACE => S3.copy_Metadata i
        end.
Proof.
  intros Hok Hparse Hsel Hdm. unfold S3.CopyObject.
  rewrite Hok, Hparse, Hsel, Hdm. cbv zeta.
  eexists _, _, _. split; [reflexivity|].
  rewrite versions_of_set_versions.
  split; [reflexivity|]. split; [reflexivity|]. split.
  - destruct (S3.versioning b); reflexivity.
  - repeat split; reflexivity.
Qed.

Lemma HeadObject_current key b ov older :
  S3.object_fault b key = None →
  S3.versions_of b key = ov :: older →
  S3.ov_IsDeleteMarker ov = false →
  S3.HeadObject key b = inr (S3.output_of b key ov).
Proof.
  intros Hok Hvs Hdm. unfold S3.HeadObject.
  rewrite Hok, Hvs. cbn [S3.select_version head]. by rewrite Hdm.
Qed.

Lemma HeadObject_ok key b out :
  S3.HeadObject key b = inr out →
  S3.object_fault b key = None
  ∧ ∃ ov older,
      S3.versions_of b key = ov :: older
      ∧ S3.ov_IsDeleteMarker ov = false
      ∧ out = S3.output_of b key ov.
Proof.
  unfold S3.HeadObject.
  destruct (S3.object_fault b key); [discriminate|].
  cbn [S3.select_version].
  destruct (S3.versions_of b key) as [|ov older]; [discriminate|].
  cbn [head]. destruct (S3.ov_IsDeleteMarker ov) eqn:Hdm; [discriminate|].
  intros [= <-]. split; [reflexivity|]. by exists ov, older.
Qed.

Lemma GetObject_current key b ov older :
  S3.object_fault b key = None →
  S3.versions_of b key = ov :: older →
  S3.ov_IsDeleteMarker ov = false →
  S3.GetObject key None b = inr (S3.output_of b key ov).
Proof.
  intros Hok Hvs Hdm. unfold S3.GetObject.
  rewrite Hok, Hvs. cbn [S3.select_version head]. by rewrite Hdm.
Qed.

Lemma GetMetadata_run s tenant contentType id ext state w :
  GetMetadata s tenant contentType id ext state w
  = (match S3.HeadObject
             (contentKey s tenant contentType id ext (default_state state))
             (s3Client w) with
     | inl err => inl (Wrapf "failed to get metadata" (SDK err))
     | inr result => inr (S3.get_Metadata result)
     end, w).
Proof.
  unfold GetMetadata. unfold_M. cbv zeta.
  by destruct (S3.HeadObject _ (s3Client w)).
Qed.

(** What [SetMetadata] does to an item that can be read: a new current
    version with the same bytes and the given metadata. *)
Lemma SetMetadata_run s tenant contentType id ext state metadata w existing :
  no_slash (bucket s) →
  GoStrings.Contains
    (contentKey s tenant contentType id ext (default_state state)) "?"
  = false →
  (GetMetadata s tenant contentType id ext state w).1 = inr existing →
  let key := contentKey s tenant contentType id ext (default_state state) in
  ∃ w' src ov older,
    SetMetadata s tenant contentType id ext state metadata w = (inr (), w')
    ∧ S3.current (s3Client w) key = Some src
    ∧ S3.ov_Metadata src = existing
    ∧ S3.faults (s3Client w') = S3.faults (s3Client w)
    ∧ S3.versions_of (s3Client w') key = ov :: older
    ∧ S3.ov_IsDeleteMarker ov = false
    ∧ S3.ov_Body ov = S3.ov_Body src
    ∧ S3.ov_Metadata ov = metadata.
Proof.
  intros Hbkt Hkey Hget. cbv zeta.
  rewrite GetMetadata_run in Hget. cbn [fst] in Hget.
  set (key := contentKey s tenant contentType id ext (default_state state))
    in *.
  destruct (S3.HeadObject key (s3Client w)) as [e|out] eqn:Hhead;
    [discriminate|].
  injection Hget as <-.
  apply HeadObject_ok in Hhead as (Hok & src & rest & Hvs & Hdm & ->).
  set (input := {| S3.copy_CopySource := bucket s +:+ "/" +:+ key;
                   S3.copy_Key := key;
                   S3.copy_Metadata := metadata;
                   S3.copy_MetadataDirective := S3.REPLACE |}).
  destruct (CopyObject_onto_itself input (s3Client w) (bucket s) None src)
    as (out & b' & ov & Hcopy & _ & Hf & Hvs' & Hdm' & Hbody & _ & Hmd).
  { exact Hok. }
  { by apply parse_CopySource_current. }
  { cbn [S3.copy_Key input]. by rewrite Hvs. }
  { exact Hdm. }
  cbn [S3.copy_Key S3.copy_MetadataDirective S3.copy_Metadata input] in *.
  exists (with_bucket w b'), src, ov,
         (if S3.versioning (s3Client w)
          then S3.versions_of (s3Client w) key else []).
  split.
  { unfold SetMetadata, bind, ret, s3_CopyObject. cbv zeta.
    fold key. fold input. by rewrite Hcopy. }
  split; [unfold S3.current; by rewrite Hvs, Hdm|].
  done.
Qed.

(** ** Metadata *)

Lemma default_state_idem state :
  default_state (default_state state) = default_state state.
Proof. unfold default_state. by repeat case_decide. Qed.

Lemma getByKey_ok_inv s key w item :
  (getByKey s key "" w).1 = inr item →
  S3.object_fault (s3Client w) key = None
  ∧ S3.body_fault (s3Client w) key = None
  ∧ ∃ ov older,
      S3.versions_of (s3Client w) key = ov :: older
      ∧ S3.ov_IsDeleteMarker ov = false
      ∧ item = item_of_output key (S3.ov_Body ov)
                 (S3.output_of (s3Client w) key ov).
Proof.
  unfold getByKey. unfold_M. change (nonempty "") with (@None string).
  unfold S3.GetObject.
  destruct (S3.object_fault (s3Client w) key); [discriminate|].
  cbn [S3.select_version].
  destruct (S3.versions_of (s3Client w) key) as [|ov older];
    [discriminate|]. cbn [head].
  destruct (S3.ov_IsDeleteMarker ov) eqn:Hdm; [discriminate|].
  unfold io_ReadAll. cbn [S3.output_of S3.get_Body S3.rc_err S3.rc_data].
  destruct (S3.body_fault (s3Client w) key) eqn:Hbody; [discriminate|].
  intros [= <-]. split; [reflexivity|]. split; [reflexivity|].
  exists ov, older. unfold S3.output_of. rewrite Hbody. done.
Qed.

Lemma getByKey_current_ok s key w ov older :
  S3.object_fault (s3Client w) key = None →
  S3.body_fault (s3Client w) key = None →
  S3.versions_of (s3Client w) key = ov :: older →
  S3.ov_IsDeleteMarker ov = false →
  getByKey s key "" w
  = (inr (item_of_output key (S3.ov_Body ov)
            (S3.output_of (s3Client w) key ov)), w).
Proof.
  intros Hok Hbody Hvs Hdm. unfold getByKey. unfold_M.
  change (nonempty "") with (@None string).
  rewrite (GetObject_current key _ ov older Hok Hvs Hdm).
  unfold io_ReadAll. cbn [S3.output_of S3.get_Body S3.rc_err S3.rc_data].
  by rewrite Hbody.
Qed.

Lemma body_fault_faults b b' key :
  S3.faults b' = S3.faults b → S3.body_fault b' key = S3.body_fault b key.
Proof. unfold S3.body_fault. by intros ->. Qed.

Lemma SetMetadata_GetMetadata s tenant contentType id ext state metadata w
    existing :
  no_slash (bucket s) →
  GoStrings.Contains
    (contentKey s tenant contentType id ext (default_state state)) "?"
  = false →
  (GetMetadata s tenant contentType id ext state w).1 = inr existing →
  ∃ w',
    SetMetadata s tenant contentType id ext state metadata w = (inr (), w')
    ∧ (GetMetadata s tenant contentType id ext state w').1 = inr metadata.
Proof.
  intros Hbkt Hkey Hget.
  pose proof Hget as Hhead. rewrite GetMetadata_run in Hhead.
  cbn [fst] in Hhead.
  destruct (SetMetadata_run s tenant contentType id ext state metadata w
              existing Hbkt Hkey Hget)
    as (w' & src & ov & older & Hset & Hcur & _ & Hf & Hvs & Hdm & Hbody
        & Hmd).
  set (key := contentKey s tenant contentType id ext (default_state state))
    in *.
  assert (Hok : S3.object_fault (s3Client w) key = None).
  { destruct (S3.HeadObject key (s3Client w)) as [e|out] eqn:Hh;
      [discriminate|]. by apply HeadObject_ok in Hh as [? _]. }
  assert (Hok' : S3.object_fault (s3Client w') key = None)
    by (by rewrite (object_fault_faults _ _ key Hf)).
  exists w'. split; [exact Hset|].
  rewrite GetMetadata_run. cbn [fst]. fold key.
  rewrite (HeadObject_current key _ ov older Hok' Hvs Hdm).
  by rewrite <- Hmd.
Qed.

(** [SetMetadata] replaces the metadata and nothing else a reader sees of
    the bytes: on an item whose metadata can be read, in a bucket whose
    name has no slash and under a key without a question mark, the call
    succeeds, [GetMetadata] then returns the map just set, and [Get]
    returns the same bytes as before. *)
Theorem SetMetadata_then_GetMetadata s tenant contentType id ext state
    metadata w existing :
  no_slash (bucket s) →
  GoStrings.Contains
    (contentKey s tenant contentType id ext (default_state state)) "?"
  = false →
  (GetMetadata s tenant contentType id ext state w).1 = inr existing →
  ∃ w',
    SetMetadata s tenant contentType id ext state metadata w = (inr (), w')
    ∧ (GetMetadata s tenant contentType id ext state w').1 = inr metadata
    ∧ ∀ item,
        (Get s tenant contentType id ext state w).1 = inr item →
        ∃ item',
          (Get s tenant contentType id ext state w').1 = inr item'
          ∧ ContentItem.Content item' = ContentItem.Content item.
Proof.
  intros Hbkt Hkey Hget.
  pose proof Hget as Hhead. rewrite GetMetadata_run in Hhead.
  cbn [fst] in Hhead.
  destruct (SetMetadata_run s tenant contentType id ext state metadata w
              existing Hbkt Hkey Hget)
    as (w' & src & ov & older & Hset & Hcur & _ & Hf & Hvs & Hdm & Hbody
        & Hmd).
  set (key := contentKey s tenant contentType id ext (default_state state))
    in *.
  assert (Hok : S3.object_fault (s3Client w) key = None).
  { destruct (S3.HeadObject key (s3Client w)) as [e|out] eqn:Hh;
      [discriminate|]. by apply HeadObject_ok in Hh as [? _]. }
  assert (Hok' : S3.object_fault (s3Client w') key = None)
    by (by rewrite (object_fault_faults _ _ key Hf)).
  exists w'. split; [exact Hset|]. split.
  - rewrite GetMetadata_run. cbn [fst]. fold key.
    rewrite (HeadObject_current key _ ov older Hok' Hvs Hdm).
    by rewrite <- Hmd.
  - intros item Hitem. unfold Get in *. cbv zeta in *. fold key in Hitem.
    fold key.
    apply getByKey_ok_inv in Hitem
      as (_ & Hnobody & ov0 & rest & Hvs0 & Hdm0 & ->).
    assert (ov0 = src) as ->.
    { unfold S3.current in Hcur. rewrite Hvs0, Hdm0 in Hcur. congruence. }
    rewrite (getByKey_current_ok s key w' ov older Hok'
               ltac:(by rewrite (body_fault_faults _ _ key Hf)) Hvs Hdm).
    eexists. split; [reflexivity|]. exact Hbody.
Qed.

(** [UpdateMetadata] merges: after a successful update of an item whose
    metadata can be read, every key of the updates carries its new value
    and every other key the value it had. *)
Theorem UpdateMetadata_merges s tenant contentType id ext state updates w
    existing :
  no_slash (bucket s) →
  GoStrings.Contains
    (contentKey s tenant contentType id ext (default_state state)) "?"
  = false →
  (GetMetadata s tenant contentType id ext state w).1 = inr existing →
  ∃ w' merged,
    UpdateMetadata s tenant contentType id ext state updates w
    = (inr (), w')
    ∧ (GetMetadata s tenant contentType id ext state w').1
      = inr (Some merged)
    ∧ ∀ k, merged !! k
           = match default ∅ updates !! k with
             | Some v => Some v
             | None => default ∅ existing !! k
             end.
Proof.
  intros Hbkt Hkey Hget.
  assert (Hget' : GetMetadata s tenant contentType id ext
                              (default_state state) w = (inr existing, w)).
  { rewrite GetMetadata_run, default_state_idem.
    rewrite GetMetadata_run in Hget. cbn [fst] in Hget. by rewrite Hget. }
  set (merged := match updates with
                 | Some u => u ∪ default ∅ existing
                 | None => default ∅ existing
                 end).
  destruct (SetMetadata_GetMetadata s tenant contentType id ext
              (default_state state) (Some merged) w existing Hbkt
              ltac:(by rewrite default_state_idem)
              ltac:(by rewrite Hget'))
    as (w' & Hset & Hafter).
  exists w', merged. split; [|split].
  - unfold UpdateMetadata, bind. cbv zeta. rewrite Hget'.
    destruct existing as [m|]; exact Hset.
  - rewrite GetMetadata_run in Hafter. rewrite GetMetadata_run.
    by rewrite default_state_idem in Hafter.
  - intros k. unfold merged. destruct updates as [u|].
    + change (default ∅ (Some u)) with u. rewrite lookup_union.
      by destruct (u !! k), (default ∅ existing !! k).
    + change (default ∅ (@None (gmap string string)))
        with (∅ : gmap string string).
      by rewrite lookup_empty.
Qed.

Lemma lookup_delete_keys (m : gmap string string) keys k :
  foldl (λ m k, delete k m) m keys !! k
  = if decide (k ∈ keys) then None else m !! k.
Proof.
  revert m. induction keys as [|x keys IH]; intros m; [reflexivity|].
  cbn [foldl]. rewrite IH.
  destruct (decide (k ∈ keys)) as [Hin|Hnotin].
  - rewrite decide_True by (by right). reflexivity.
  - destruct (decide (k = x)) as [->|Hne].
    + rewrite decide_True by (by left). apply lookup_delete_eq.
    + rewrite decide_False by (by intros [?|?]%elem_of_cons).
      by apply lookup_delete_ne.
Qed.

(** [DeleteMetadataKeys] removes the named keys and keeps the others:
    after a successful call on an item whose metadata can be read, none of
    the keys is left and every other key carries the value it had. *)
Theorem DeleteMetadataKeys_removes s tenant contentType id ext state keys w
    existing :
  no_slash (bucket s) →
  GoStrings.Contains
    (contentKey s tenant contentType id ext (default_state state)) "?"
  = false →
  (GetMetadata s tenant contentType id ext state w).1 = inr existing →
  ∃ w' left,
    DeleteMetadataKeys s tenant contentType id ext state keys w
    = (inr (), w')
    ∧ (GetMetadata s tenant contentType id ext state w').1 = inr left
    ∧ ∀ k, default ∅ left !! k
           = if decide (k ∈ keys) then None else default ∅ existing !! k.
Proof.
  intros Hbkt Hkey Hget.
  assert (Hget' : GetMetadata s tenant contentType id ext
                              (default_state state) w = (inr existing, w)).
  { rewrite GetMetadata_run, default_state_idem.
    rewrite GetMetadata_run in Hget. cbn [fst] in Hget. by rewrite Hget. }
  set (left := (λ m, foldl (λ m k, delete k m) m keys) <$> existing).
  destruct (SetMetadata_GetMetadata s tenant contentType id ext
              (default_state state) left w existing Hbkt
              ltac:(by rewrite default_state_idem)
              ltac:(by rewrite Hget'))
    as (w' & Hset & Hafter).
  exists w', left. split; [|split].
  - unfold DeleteMetadataKeys, bind. cbv zeta. rewrite Hget'. exact Hset.
  - rewrite GetMetadata_run in Hafter. rewrite GetMetadata_run.
    by rewrite default_state_idem in Hafter.
  - intros k. unfold left. destruct existing as [m|].
    + apply lookup_delete_keys.
    + change (default ∅ (_ <$> @None (gmap string string)))
        with (∅ : gmap string string).
      change (default ∅ (@None (gmap string string)))
        with (∅ : gmap string string).
      rewrite lookup_empty. by case_decide.
Qed.

Lemma SetMetadata_then_GetMetadata_witness :
  (GetMetadata dev "demo" "articles" "hello" "json" StateLive
               world_tagged).1 = inr (Some {["author" := "ann"]})
  ∧ ∃ w',
      SetMetadata dev "demo" "articles" "hello" "json" StateLive
                  (Some {["reviewed" := "yes"]}) world_tagged = (inr (), w')
      ∧ (GetMetadata dev "demo" "articles" "hello" "json" StateLive w').1
        = inr (Some {["reviewed" := "yes"]}).
Proof.
  assert (Hget : (GetMetadata dev "demo" "articles" "hello" "json" StateLive
                              world_tagged).1
                 = inr (Some {["author" := "ann"]}))
    by (vm_compute; reflexivity).
  split; [exact Hget|].
  assert (Hbkt : no_slash (bucket dev)) by reflexivity.
  assert (Hkey : GoStrings.Contains
                   (contentKey dev "demo" "articles" "hello" "json"
                               (default_state StateLive)) "?" = false)
    by (vm_compute; reflexivity).
  destruct (SetMetadata_then_GetMetadata dev "demo" "articles" "hello" "json"
              StateLive (Some {["reviewed" := "yes"]}) world_tagged _
              Hbkt Hkey Hget) as (w' & Hset & Hafter & _).
  exists w'. split; [exact Hset|exact Hafter].
Defined.

Lemma UpdateMetadata_merges_witness :
  ∃ w' merged,
    UpdateMetadata dev "demo" "articles" "hello" "json" StateLive
                   (Some {["reviewed" := "yes"]}) world_tagged = (inr (), w')
    ∧ (GetMetadata dev "demo" "articles" "hello" "json" StateLive w').1
      = inr (Some merged)
    ∧ merged !! "author" = Some "ann"
    ∧ merged !! "reviewed" = Some "yes".
Proof.
  assert (Hget : (GetMetadata dev "demo" "articles" "hello" "json" StateLive
                              world_tagged).1
                 = inr (Some {["author" := "ann"]}))
    by (vm_compute; reflexivity).
  assert (Hbkt : no_slash (bucket dev)) by reflexivity.
  assert (Hkey : GoStrings.Contains
                   (contentKey dev "demo" "articles" "hello" "json"
                               (default_state StateLive)) "?" = false)
    by (vm_compute; reflexivity).
  destruct (UpdateMetadata_merges dev "demo" "articles" "hello" "json"
              StateLive (Some {["reviewed" := "yes"]}) world_tagged _
              Hbkt Hkey Hget) as (w' & merged & Hrun & Hafter & Hkeys).
  exists w', merged. split; [exact Hrun|]. split; [exact Hafter|].
  split; rewrite Hkeys; vm_compute; reflexivity.
Defined.

Lemma DeleteMetadataKeys_removes_witness :
  ∃ w' left,
    DeleteMetadataKeys dev "demo" "articles" "hello" "json" StateLive
                       ["author"] world_tagged = (inr (), w')
    ∧ (GetMetadata dev "demo" "articles" "hello" "json" StateLive w').1
      = inr left
    ∧ default ∅ left !! "author" = None.
Proof.
  assert (Hget : (GetMetadata dev "demo" "articles" "hello" "json" StateLive
                              world_tagged).1
                 = inr (Some {["author" := "ann"]}))
    by (vm_compute; reflexivity).
  assert (Hbkt : no_slash (bucket dev)) by reflexivity.
  assert (Hkey : GoStrings.Contains
                   (contentKey dev "demo" "articles" "hello" "json"
                               (default_state StateLive)) "?" = false)
    by (vm_compute; reflexivity).
  destruct (DeleteMetadataKeys_removes dev "demo" "articles" "hello" "json"
              StateLive ["author"] world_tagged _ Hbkt Hkey Hget)
    as (w' & left & Hrun & Hafter & Hkeys).
  exists w', left. split; [exact Hrun|]. split; [exact Hafter|].
  rewrite Hkeys. vm_compute. reflexivity.
Defined.

(** ** Restoring a version *)

Lemma getByKey_inv s key versionID w item :
  (getByKey s key versionID w).1 = inr item →
  S3.object_fault (s3Client w) key = None
  ∧ S3.body_fault (s3Client w) key = None
  ∧ ∃ ov,
      S3.select_version (S3.versions_of (s3Client w) key)
                        (nonempty versionID) = Some ov
      ∧ S3.ov_IsDeleteMarker ov = false
      ∧ item = item_of_output key (S3.ov_Body ov)
                 (S3.output_of (s3Client w) key ov).
Proof.
  unfold getByKey. unfold_M. unfold S3.GetObject.
  destruct (S3.object_fault (s3Client w) key); [discriminate|].
  destruct (S3.select_version _ _) as [ov|]; [|discriminate].
  destruct (S3.ov_IsDeleteMarker ov) eqn:Hdm; [discriminate|].
  unfold io_ReadAll. cbn [S3.output_of S3.get_Body S3.rc_err S3.rc_data].
  destruct (S3.body_fault (s3Client w) key) eqn:Hbody; [discriminate|].
  intros [= <-]. split; [reflexivity|]. split; [reflexivity|].
  exists ov. unfold S3.output_of. rewrite Hbody. done.
Qed.

(** [RestoreVersion] makes an old version current again: when the pinned
    version can be read, in a bucket whose name has no slash and under a
    key without a question mark, the call succeeds and returns the bytes
    and MIME type of that version, [Get] of the live item then returns
    them too, and on a versioning bucket every earlier version is still
    there behind the new one. *)
Theorem RestoreVersion_makes_current s tenant contentType id ext versionID
    w old :
  no_slash (bucket s) →
  GoStrings.Contains
    (contentKey s tenant contentType id ext StateLive) "?" = false →
  versionID ≠ "" →
  (GetVersion s tenant contentType id ext versionID w).1 = inr old →
  ∃ restored w' cur,
    RestoreVersion s tenant contentType id ext versionID w
    = (inr restored, w')
    ∧ ContentItem.Content restored = ContentItem.Content old
    ∧ ContentItem.ContentType restored = ContentItem.ContentType old
    ∧ (Get s tenant contentType id ext StateLive w').1 = inr cur
    ∧ ContentItem.Content cur = ContentItem.Content old
    ∧ ContentItem.ContentType cur = ContentItem.ContentType old
    ∧ (S3.versioning (s3Client w) = true →
       ∃ ov,
         S3.versions_of (s3Client w')
           (contentKey s tenant contentType id ext StateLive)
         = ov :: S3.versions_of (s3Client w)
                   (contentKey s tenant contentType id ext StateLive)).
Proof.
  intros Hbkt Hkey Hv Hold. unfold GetVersion in Hold. cbv zeta in Hold.
  set (key := contentKey s tenant contentType id ext StateLive) in *.
  pose proof (getByKey_readonly s key versionID w) as Hro.
  pose proof Hold as Hinv.
  apply getByKey_inv in Hinv as (Hok & Hnobody & src & Hsel & Hdm & Hitem).
  assert (Hpin : nonempty versionID = Some versionID)
    by (unfold nonempty; by rewrite decide_False).
  rewrite Hpin in Hsel.
  set (input := {| S3.copy_CopySource :=
                     bucket s +:+ "/" +:+ key +:+ "?versionId="
                       +:+ versionID;
                   S3.copy_Key := key;
                   S3.copy_Metadata := None;
                   S3.copy_MetadataDirective := S3.COPY |}).
  destruct (CopyObject_onto_itself input (s3Client w) (bucket s)
              (Some versionID) src)
    as (out & b' & ov & Hcopy & _ & Hf & Hvs' & Hdm' & Hbody & Hct & _).
  { exact Hok. }
  { by apply parse_CopySource_pinned. }
  { exact Hsel. }
  { exact Hdm. }
  cbn [S3.copy_Key S3.copy_MetadataDirective input] in *.
  eexists _, (with_bucket w b'), _. split.
  { unfold RestoreVersion, bind, ret, s3_CopyObject. cbv zeta. fold key.
    destruct (getByKey s key versionID w) as [r w0]. cbn [fst snd] in *.
    subst r w0. fold input. rewrite Hcopy. reflexivity. }
  cbn [ContentItem.Content ContentItem.ContentType].
  split; [reflexivity|]. split; [reflexivity|].
  assert (Hok' : S3.object_fault (s3Client (with_bucket w b')) key = None)
    by (cbn [s3Client with_bucket];
        by rewrite (object_fault_faults _ _ key Hf)).
  assert (Hnobody' : S3.body_fault (s3Client (with_bucket w b')) key = None)
    by (cbn [s3Client with_bucket];
        by rewrite (body_fault_faults _ _ key Hf)).
  split.
  { unfold Get. cbv zeta. change (default_state StateLive) with StateLive.
    fold key.
    rewrite (getByKey_current_ok s key (with_bucket w b') ov _ Hok' Hnobody'
               Hvs' Hdm').
    reflexivity. }
  rewrite Hitem. unfold item_of_output, S3.output_of.
  cbn [ContentItem.Content ContentItem.ContentType S3.get_ContentType
       s3Client with_bucket].
  split; [exact Hbody|]. split; [by rewrite Hct|].
  intros Hversioning. exists ov. by rewrite Hvs', Hversioning.
Qed.

Lemma RestoreVersion_makes_current_witness :
  content_of (Get dev "demo" "articles" "hello" "json" StateLive
                  three_puts).1 = Some (bytes "c")
  ∧ ∃ restored w' cur,
      RestoreVersion dev "demo" "articles" "hello" "json" "v1" three_puts
      = (inr restored, w')
      ∧ (Get dev "demo" "articles" "hello" "json" StateLive w').1 = inr cur
      ∧ ContentItem.Content cur = bytes "a".
Proof.
  split; [vm_compute; reflexivity|].
  assert (Hold : (GetVersion dev "demo" "articles" "hello" "json" "v1"
                             three_puts).1
                 = inr (ContentItem.Build_t
                          "development/tenants/demo/content/articles/hello.json"
                          (bytes "a") "text/plain" "v1" 1 1 "etag-1" None))
    by (vm_compute; reflexivity).
  assert (Hbkt : no_slash (bucket dev)) by reflexivity.
  assert (Hkey : GoStrings.Contains
                   (contentKey dev "demo" "articles" "hello" "json"
                               StateLive) "?" = false)
    by (vm_compute; reflexivity).
  destruct (RestoreVersion_makes_current dev "demo" "articles" "hello" "json"
              "v1" three_puts _ Hbkt Hkey ltac:(discriminate) Hold)
    as (restored & w' & cur & Hrun & _ & _ & Hget & Hcontent & _).
  exists restored, w', cur. split; [exact Hrun|]. split; [exact Hget|].
  exact Hcontent.
Defined.

(** ** The schema registry *)

Lemma listSchemaNames_readonly s prefix w :
  (listSchemaNames s prefix w).2 = w.
Proof.
  unfold listSchemaNames. unfold_M.
  by destruct (S3.ListObjectsV2 prefix None (s3Client w)).
Qed.

Lemma ListAllSchemas_eq s tenant w :
  ListAllSchemas s tenant w
  = (inr (elements
            (list_to_set
               match (ListGlobalSchemas s w).1 with
               | inr globalSchemas => globalSchemas
               | inl _ => []
               end
             ∪ list_to_set
                 match (ListTenantSchemas s tenant w).1 with
                 | inr tenantSchemas => tenantSchemas
                 | inl _ => []
                 end : gset string)), w).
Proof.
  unfold ListAllSchemas, ListGlobalSchemas, ListTenantSchemas, bind, ret.
  pose proof (listSchemaNames_readonly s (globalSchemasPrefix s) w) as Hg.
  destruct (listSchemaNames s (globalSchemasPrefix s) w) as [rg wg].
  cbn [fst snd] in *. subst wg.
  pose proof (listSchemaNames_readonly s (tenantSchemasPrefix s tenant) w)
    as Ht.
  destruct (listSchemaNames s (tenantSchemasPrefix s tenant) w) as [rt wt].
  cbn [fst snd] in *. subst wt. reflexivity.
Qed.

(** [ListAllSchemas] never fails and never repeats a name: it only reads,
    a listing that fails counts as empty, and the names returned are,
    each once, those of the global listing and those of the tenant
    listing. *)
Theorem ListAllSchemas_merges s tenant w :
  ∃ names,
    ListAllSchemas s tenant w = (inr names, w)
    ∧ NoDup names
    ∧ ∀ name,
        name ∈ names
        ↔ name ∈ match (ListGlobalSchemas s w).1 with
                 | inr globalSchemas => globalSchemas
                 | inl _ => []
                 end
          ∨ name ∈ match (ListTenantSchemas s tenant w).1 with
                   | inr tenantSchemas => tenantSchemas
                   | inl _ => []
                   end.
Proof.
  rewrite ListAllSchemas_eq.
  eexists. split; [reflexivity|]. split; [apply NoDup_elements|].
  intros name.
  by rewrite elem_of_elements, elem_of_union, !elem_of_list_to_set.
Qed.

Lemma DeleteTenantSchema_run s tenant schemaName w :
  DeleteTenantSchema s tenant schemaName w
  = let rb := S3.DeleteObject (tenantSchemaKey s tenant schemaName) None
                              (s3Client w) in
    (match rb.1 with
     | inl err => inl (Wrapf "failed to delete tenant schema" (SDK err))
     | inr _ => inr ()
     end, with_bucket w rb.2).
Proof.
  unfold DeleteTenantSchema, bind, ret, s3_DeleteObject. cbv zeta.
  by destruct (S3.DeleteObject _ None (s3Client w)) as [[e|[]] b'].
Qed.

Lemma getByKey_gone s key w :
  S3.object_fault (s3Client w) key = None →
  S3.current (s3Client w) key = None →
  (getByKey s key "" w).1
  = inl (Wrapf "failed to get object" (SDK S3.NoSuchKey)).
Proof.
  intros Hok Hgone. unfold getByKey. unfold_M.
  change (nonempty "") with (@None string).
  by rewrite (GetObject_gone _ _ Hok Hgone).
Qed.

Lemma getByKey_ext s key versionID w w' :
  S3.versions_of (s3Client w') key = S3.versions_of (s3Client w) key →
  S3.faults (s3Client w') = S3.faults (s3Client w) →
  (getByKey s key versionID w').1 = (getByKey s key versionID w).1.
Proof.
  intros Hv Hf. unfold getByKey. unfold_M.
  rewrite (GetObject_ext key _ _ _ Hv Hf).
  destruct (S3.GetObject key (nonempty versionID) (s3Client w)); [done|].
  by destruct (io_ReadAll _).
Qed.

Lemma globalSchemaKey_plain s schemaName :
  plain_root s → plain schemaName →
  globalSchemasPrefix s = root_dir s +:+ "schemas/"
  ∧ globalSchemaKey s schemaName
    = globalSchemasPrefix s +:+ schemaName +:+ ".json".
Proof.
  intros Hroot Hname.
  assert (Hfile : plain (schemaName +:+ ".json"))
    by (apply (plain_file schemaName "json"); done).
  unfold globalSchemaKey, globalSchemasPrefix. split; key_layout.
Qed.

Lemma tenantSchemaKey_plain s tenant schemaName :
  plain_root s → plain tenant → plain schemaName →
  tenantSchemasPrefix s tenant
  = root_dir s +:+ "tenants/" +:+ tenant +:+ "/schemas/"
  ∧ tenantSchemaKey s tenant schemaName
    = tenantSchemasPrefix s tenant +:+ schemaName +:+ ".json".
Proof.
  intros Hroot Ht Hname.
  assert (Hfile : plain (schemaName +:+ ".json"))
    by (apply (plain_file schemaName "json"); done).
  unfold tenantSchemaKey, tenantSchemasPrefix. split; key_layout.
Qed.

Lemma schema_keys_differ s tenant schemaName :
  plain_root s → plain tenant → plain schemaName →
  tenantSchemaKey s tenant schemaName ≠ globalSchemaKey s schemaName.
Proof.
  intros Hroot Ht Hname.
  destruct (globalSchemaKey_plain s schemaName Hroot Hname) as [Hgp ->].
  destruct (tenantSchemaKey_plain s tenant schemaName Hroot Ht Hname)
    as [Htp ->].
  rewrite Hgp, Htp, !append_assoc. intros Heq.
  apply append_inj_l in Heq. discriminate.
Qed.

(** Deleting the tenant's override brings the global schema back: after a
    [DeleteTenantSchema] that reported success the tenant has no schema of
    that name of its own, and for plain names [GetSchema] answers what
    [GetGlobalSchema] answered before the delete, or the schema-not-found
    error when there was no global schema. *)
Theorem DeleteTenantSchema_falls_back s tenant schemaName w w' :
  plain_root s → plain tenant → plain schemaName →
  DeleteTenantSchema s tenant schemaName w = (inr (), w') →
  (GetTenantSchema s tenant schemaName w').1
  = inl (Errorf ("tenant schema not found: " +:+ schemaName))
  ∧ (GetSchema s tenant schemaName w').1
    = match (GetGlobalSchema s schemaName w).1 with
      | inr schema => inr schema
      | inl _ => inl (SchemaNotFound schemaName)
      end.
Proof.
  intros Hroot Ht Hname. rewrite DeleteTenantSchema_run. cbv zeta.
  set (tenantKey := tenantSchemaKey s tenant schemaName).
  destruct (S3.DeleteObject tenantKey None (s3Client w)) as [[e|[]] b']
    eqn:Hdel; [discriminate|].
  cbn [fst snd]. intros [= <-].
  pose proof (DeleteObject_gone tenantKey _ _ Hdel) as Hgone.
  pose proof (DeleteObject_faults tenantKey None (s3Client w)) as Hf.
  pose proof (DeleteObject_other tenantKey (globalSchemaKey s schemaName)
                None (s3Client w)
                (schema_keys_differ s tenant schemaName Hroot Ht Hname))
    as Hglobal.
  rewrite Hdel in Hf, Hglobal. cbn [snd] in Hf, Hglobal.
  assert (Hok : S3.object_fault b' tenantKey = None).
  { rewrite (object_fault_faults _ _ tenantKey Hf).
    apply delete_fault_object. unfold S3.DeleteObject in Hdel.
    by destruct (S3.delete_fault (s3Client w) tenantKey). }
  pose proof (getByKey_gone s tenantKey (with_bucket w b') Hok Hgone)
    as Htenant.
  pose proof (getByKey_ext s (globalSchemaKey s schemaName) ""
                w (with_bucket w b') Hglobal Hf) as Hsame.
  split.
  - unfold GetTenantSchema, bind, ret. fold tenantKey.
    pose proof (getByKey_readonly s tenantKey "" (with_bucket w b')) as Hro.
    destruct (getByKey s tenantKey "" (with_bucket w b')) as [r w1].
    cbn [fst snd] in *. by subst r.
  - rewrite GetSchema_eq. cbn [fst]. fold tenantKey.
    rewrite Htenant, Hsame.
    unfold GetGlobalSchema, bind, ret.
    pose proof (getByKey_readonly s (globalSchemaKey s schemaName) "" w)
      as Hro.
    destruct (getByKey s (globalSchemaKey s schemaName) "" w) as [[e|item] w1];
      reflexivity.
Qed.

Lemma DeleteTenantSchema_falls_back_witness :
  (GetSchema dev "demo" "article" world_schemas).1
  = inr {| Schema.Name := "article"; Schema.Content := bytes "Y";
           Schema.IsGlobal := false |}
  ∧ ∃ w',
      DeleteTenantSchema dev "demo" "article" world_schemas = (inr (), w')
      ∧ (GetSchema dev "demo" "article" w').1
        = inr {| Schema.Name := "article"; Schema.Content := bytes "X";
                 Schema.IsGlobal := true |}.
Proof.
  split; [vm_compute; reflexivity|].
  assert (Hroot : plain_root dev)
    by (apply plain_root_single; by apply plain_literal).
  assert (Ht : plain "demo") by (by apply plain_literal).
  assert (Hname : plain "article") by (by apply plain_literal).
  destruct (DeleteTenantSchema dev "demo" "article" world_schemas)
    as [r w'] eqn:Hrun.
  assert (Hr : r = inr ()).
  { assert (Heq : r = (DeleteTenantSchema dev "demo" "article"
                                          world_schemas).1)
      by (by rewrite Hrun).
    rewrite Heq. vm_compute. reflexivity. }
  subst r. exists w'. split; [reflexivity|].
  destruct (DeleteTenantSchema_falls_back dev "demo" "article" world_schemas
              w' Hroot Ht Hname Hrun) as [_ ->].
  vm_compute. reflexivity.
Defined.

(** ** What a listing shows *)

Lemma faults_empty_list b prefix :
  S3.faults b = ∅ → S3.list_fault b prefix = None.
Proof.
  intros Hb. apply list_fault_healthy. rewrite Hb. apply lookup_empty.
Qed.

Lemma ListObjectsV2_lists prefix b key ov older :
  S3.list_fault b prefix = None →
  String.prefix prefix key = true →
  S3.objects b !! key = Some (ov :: older) →
  S3.ov_IsDeleteMarker ov = false →
  ∃ contents,
    S3.ListObjectsV2 prefix None b = inr contents
    ∧ S3.object_of (key, ov :: older) ∈ contents.
Proof.
  intros Hok Hpre Hobj Hdm. unfold S3.ListObjectsV2. rewrite Hok.
  eexists. split; [reflexivity|].
  apply list_elem_of_fmap_2, list_elem_of_filter. split.
  - unfold S3.is_current. cbn [snd]. by rewrite Hdm.
  - by apply entries_under_elem.
Qed.

Lemma TrimPrefix_append (p r : string) : GoStrings.TrimPrefix (p +:+ r) p = r.
Proof.
  unfold GoStrings.TrimPrefix, GoStrings.HasPrefix.
  rewrite prefix_append_r. apply substring_suffix.
Qed.

Lemma TrimSuffix_append (a b : string) : GoStrings.TrimSuffix (a +:+ b) b = a.
Proof.
  unfold GoStrings.TrimSuffix, GoStrings.HasSuffix.
  rewrite length_append.
  replace (String.length a + String.length b - String.length b)%nat
    with (String.length a) by lia.
  pose proof (substring_suffix a b) as Hsub.
  rewrite length_append in Hsub.
  replace (String.length a + String.length b - String.length a)%nat
    with (String.length b) in Hsub by lia.
  rewrite Hsub, String.eqb_refl.
  rewrite (proj2 (Nat.leb_le _ _)) by lia. cbn [andb].
  apply substring_prefix.
Qed.

Lemma put_json_listed s prefix schemaName data w :
  schemaName ≠ "" →
  S3.faults (s3Client w) = ∅ →
  ∃ out w' names,
    put_json (prefix +:+ schemaName +:+ ".json") data w = (inr out, w')
    ∧ S3.faults (s3Client w') = ∅
    ∧ (listSchemaNames s prefix w').1 = inr names
    ∧ schemaName ∈ names.
Proof.
  intros Hne Hfaults.
  assert (Hok : ∀ b key, S3.faults b = ∅ → S3.object_fault b key = None).
  { intros b key Hb. apply object_fault_healthy. rewrite Hb.
    apply lookup_empty. }
  destruct (put_json_stored (prefix +:+ schemaName +:+ ".json") data w
              (Hok _ _ Hfaults))
    as (out & w' & ov & older & Hput & Hf & Hobj & Hdm & _).
  rewrite Hfaults in Hf.
  destruct (ListObjectsV2_lists prefix (s3Client w') _ ov older
              (faults_empty_list _ _ Hf) (prefix_append_r prefix _) Hobj
              Hdm)
    as (contents & Hlist & Hin).
  exists out, w'. eexists. split; [exact Hput|]. split; [exact Hf|].
  unfold listSchemaNames. unfold_M. rewrite Hlist. cbn [fst].
  split; [reflexivity|].
  apply list_elem_of_omap. eexists. split; [exact Hin|].
  unfold schema_name_of, S3.object_of. cbn [fst snd S3.obj_Key].
  rewrite TrimPrefix_append, TrimSuffix_append.
  by rewrite decide_False.
Qed.

(** A schema that was put is listed: for plain names on a bucket without
    faults, after [PutGlobalSchema] the name is among the schemas
    [ListAllSchemas] reports for every tenant, and after
    [PutTenantSchema] it is among those reported for that tenant. *)
Theorem put_schema_is_listed s tenant schemaName content w :
  plain_root s → plain tenant → plain schemaName →
  S3.faults (s3Client w) = ∅ →
  (∃ w' names,
      PutGlobalSchema s schemaName content w = (inr (), w')
      ∧ (ListAllSchemas s tenant w').1 = inr names
      ∧ schemaName ∈ names)
  ∧ (∃ w' names,
        PutTenantSchema s tenant schemaName content w = (inr (), w')
        ∧ (ListAllSchemas s tenant w').1 = inr names
        ∧ schemaName ∈ names).
Proof.
  intros Hroot Ht Hname Hfaults.
  pose proof Hname as (Hne & _).
  destruct (globalSchemaKey_plain s schemaName Hroot Hname) as [_ Hgkey].
  destruct (tenantSchemaKey_plain s tenant schemaName Hroot Ht Hname)
    as [_ Htkey].
  split.
  - destruct (put_json_listed s (globalSchemasPrefix s) schemaName content w
                Hne Hfaults) as (out & w' & names & Hput & _ & Hlist & Hin).
    exists w'. eexists. split; [|split].
    + unfold PutGlobalSchema, bind, ret. by rewrite Hgkey, Hput.
    + rewrite ListAllSchemas_eq. reflexivity.
    + rewrite elem_of_elements, elem_of_union, !elem_of_list_to_set.
      left. unfold ListGlobalSchemas. by rewrite Hlist.
  - destruct (put_json_listed s (tenantSchemasPrefix s tenant) schemaName
                content w Hne Hfaults)
      as (out & w' & names & Hput & _ & Hlist & Hin).
    exists w'. eexists. split; [|split].
    + unfold PutTenantSchema, bind, ret. by rewrite Htkey, Hput.
    + rewrite ListAllSchemas_eq. reflexivity.
    + rewrite elem_of_elements, elem_of_union, !elem_of_list_to_set.
      right. unfold ListTenantSchemas. by rewrite Hlist.
Qed.

Lemma put_schema_is_listed_witness :
  ∃ w' names,
    PutTenantSchema dev "demo" "article" (bytes "Y")
                    (new_world (empty_bucket true)) = (inr (), w')
    ∧ (ListAllSchemas dev "demo" w').1 = inr names
    ∧ "article" ∈ names.
Proof.
  assert (Hroot : plain_root dev)
    by (apply plain_root_single; by apply plain_literal).
  assert (Ht : plain "demo") by (by apply plain_literal).
  assert (Hname : plain "article") by (by apply plain_literal).
  exact (proj2 (put_schema_is_listed dev "demo" "article" (bytes "Y")
                  (new_world (empty_bucket true)) Hroot Ht Hname eq_refl)).
Defined.

Lemma PutObject_stored i b :
  S3.object_fault b (S3.put_Key i) = None →
  ∃ out b' ov older,
    S3.PutObject i b = (inr out, b')
    ∧ S3.faults b' = S3.faults b
    ∧ S3.objects b' !! S3.put_Key i = Some (ov :: older)
    ∧ S3.ov_IsDeleteMarker ov = false
    ∧ S3.ov_Body ov = S3.put_Body i.
Proof.
  intros Hok. unfold S3.PutObject. rewrite Hok. cbv zeta.
  eexists _, _, _, (if S3.versioning b
                    then S3.versions_of b (S3.put_Key i) else []).
  split; [reflexivity|]. split; [reflexivity|]. split.
  - apply versions_of_lookup. rewrite versions_of_set_versions.
    destruct (S3.versioning b); reflexivity.
  - split; reflexivity.
Qed.

Lemma faults_empty_request b key :
  S3.faults b = ∅ → S3.object_fault b key = None.
Proof.
  intros Hb. apply object_fault_healthy. rewrite Hb. apply lookup_empty.
Qed.

Lemma List_shows s tenant contentType state w key ov older :
  S3.faults (s3Client w) = ∅ →
  String.prefix (contentPrefix s tenant contentType (default_state state)) key
  = true →
  S3.objects (s3Client w) !! key = Some (ov :: older) →
  S3.ov_IsDeleteMarker ov = false →
  (default_state state = StateLive →
   GoStrings.Contains key "/_draft/" = false
   ∧ GoStrings.Contains key "/_pending/" = false) →
  ∃ items,
    (List s tenant contentType state w).1 = inr items
    ∧ key ∈ ContentItem.Key <$> items.
Proof.
  intros Hfaults Hpre Hobj Hdm Hshown.
  destruct (ListObjectsV2_lists _ (s3Client w) key ov older
              (faults_empty_list _ _ Hfaults) Hpre Hobj Hdm)
    as (contents & Hlist & Hin).
  unfold List. unfold_M. cbv zeta. rewrite Hlist. cbn [fst].
  eexists. split; [reflexivity|].
  apply list_elem_of_fmap.
  assert (Hitem : ∃ item,
             list_item (default_state state)
                       (S3.object_of (key, ov :: older)) = Some item
             ∧ ContentItem.Key item = key).
  { unfold list_item, S3.object_of.
    cbn [fst snd S3.obj_Key default from_option id].
    cbv zeta.
    destruct (bool_decide (default_state state = StateLive)) eqn:Hlive.
    - apply bool_decide_eq_true in Hlive.
      destruct (Hshown Hlive) as [-> ->]. cbn [andb orb].
      eexists. split; reflexivity.
    - cbn [andb]. eexists. split; reflexivity. }
  destruct Hitem as (item & Hitem & Hkey).
  exists item. split; [by rewrite Hkey|].
  apply list_elem_of_omap. eexists. split; [exact Hin|exact Hitem].
Qed.

(** What was put is listed: for plain identifiers on a bucket without
    faults, an item just written with [Put] is among the items [List]
    returns for its state; for the live state this asks that the key
    contains neither [/_draft/] nor [/_pending/], which the live listing
    hides. *)
Theorem Put_then_List s tenant contentType id ext content mimeType state w :
  plain_root s → plain tenant → plain contentType → plain id →
  no_slash ext → no_slash state →
  S3.faults (s3Client w) = ∅ →
  (default_state state = StateLive →
   GoStrings.Contains
     (contentKey s tenant contentType id ext (default_state state))
     "/_draft/" = false
   ∧ GoStrings.Contains
       (contentKey s tenant contentType id ext (default_state state))
       "/_pending/" = false) →
  ∃ item w' items,
    Put s tenant contentType id ext content mimeType state w = (inr item, w')
    ∧ (List s tenant contentType state w').1 = inr items
    ∧ contentKey s tenant contentType id ext (default_state state)
      ∈ ContentItem.Key <$> items.
Proof.
  intros Hroot Ht Hty Hid Hext Hst Hfaults Hshown.
  assert (Hst' : no_slash (default_state state))
    by (unfold default_state; by case_decide).
  set (key := contentKey s tenant contentType id ext (default_state state))
    in *.
  set (input := {| S3.put_Key := key;
                   S3.put_Body := content;
                   S3.put_ContentLength := None;
                   S3.put_ContentType := Some mimeType;
                   S3.put_Metadata := None |}).
  destruct (PutObject_stored input (s3Client w)
              (faults_empty_request _ _ Hfaults))
    as (out & b' & ov & older & Hput & Hf & Hobj & Hdm & _).
  cbn [S3.put_Key input] in Hobj. rewrite Hfaults in Hf.
  destruct (List_shows s tenant contentType state (with_bucket w b') key ov
              older Hf) as (items & Hlist & Hin); try done.
  { unfold key. rewrite contentKey_plain by done. apply prefix_append_r. }
  eexists _, (with_bucket w b'), items. split; [|by split].
  rewrite Put_run. cbv zeta. fold key. fold input. rewrite Hput.
  reflexivity.
Qed.

Lemma Put_then_List_witness :
  ∃ item w' items,
    Put dev "demo" "articles" "next" "json" (bytes "{}") "application/json"
        StateDraft world_live = (inr item, w')
    ∧ (List dev "demo" "articles" StateDraft w').1 = inr items
    ∧ "development/tenants/demo/content/articles/_draft/next.json"
      ∈ ContentItem.Key <$> items.
Proof.
  assert (Hroot : plain_root dev)
    by (apply plain_root_single; by apply plain_literal).
  assert (Ht : plain "demo") by (by apply plain_literal).
  assert (Hty : plain "articles") by (by apply plain_literal).
  assert (Hid : plain "next") by (by apply plain_literal).
  assert (Hfaults : S3.faults (s3Client world_live) = ∅)
    by (vm_compute; reflexivity).
  exact (Put_then_List dev "demo" "articles" "next" "json" (bytes "{}")
           "application/json" StateDraft world_live Hroot Ht Hty Hid
           eq_refl eq_refl Hfaults ltac:(discriminate)).
Defined.

(** The listing of a draft or pending state also returns the comments
    stored under it: for plain identifiers on a bucket without faults,
    after a [PutComment] on an item of that state the key of the comment
    is among the items [List] returns for the state. *)
Theorem List_state_returns_comments `{CommentJSON} s tenant contentType
    contentID state comment data w :
  plain_root s → plain tenant → plain contentType → plain contentID →
  plain (Comment.ID comment) →
  state = StateDraft ∨ state = StatePending →
  json_Marshal comment = inr data →
  S3.faults (s3Client w) = ∅ →
  ∃ w' items,
    PutComment s tenant contentType contentID state comment w = (inr (), w')
    ∧ (List s tenant contentType state w').1 = inr items
    ∧ commentKey s tenant contentType contentID state (Comment.ID comment)
      ∈ ContentItem.Key <$> items.
Proof.
  intros Hroot Ht Hty Hid Hcid Hstate Henc Hfaults.
  assert (Hst : no_slash state) by (by destruct Hstate as [->| ->]).
  assert (Hlive : state ≠ StateLive) by (by destruct Hstate as [->| ->]).
  assert (Hdef : default_state state = state)
    by (by destruct Hstate as [->| ->]).
  set (key := commentKey s tenant contentType contentID state
                         (Comment.ID comment)).
  destruct (put_json_stored key data w (faults_empty_request _ _ Hfaults))
    as (out & w' & ov & older & Hput & Hf & Hobj & Hdm & _).
  rewrite Hfaults in Hf.
  destruct (List_shows s tenant contentType state w' key ov older Hf)
    as (items & Hlist & Hin); try done.
  { rewrite Hdef. unfold key.
    rewrite commentKey_plain, commentPrefix_plain, contentPrefix_plain
      by done.
    rewrite decide_False by (intros [?| ->]; [done|by destruct Hstate]).
    rewrite !append_assoc. rewrite !prefix_append.
    apply prefix_append_r. }
  { by rewrite Hdef. }
  exists w', items. split; [|by split].
  unfold PutComment, bind, ret. rewrite decide_False by exact Hlive.
  fold key. by rewrite Henc, Hput.
Qed.

Lemma List_state_returns_comments_witness :
  ∃ w' items,
    PutComment (H := example_codec) dev "demo" "articles" "hello" StateDraft
               fix_it world_draft = (inr (), w')
    ∧ (List dev "demo" "articles" StateDraft w').1 = inr items
    ∧ "development/tenants/demo/content/articles/_draft/_comments/hello/c1.json"
      ∈ ContentItem.Key <$> items.
Proof.
  assert (Hroot : plain_root dev)
    by (apply plain_root_single; by apply plain_literal).
  assert (Ht : plain "demo") by (by apply plain_literal).
  assert (Hty : plain "articles") by (by apply plain_literal).
  assert (Hid : plain "hello") by (by apply plain_literal).
  assert (Hcid : plain (Comment.ID fix_it)) by (by apply plain_literal).
  assert (Hfaults : S3.faults (s3Client world_draft) = ∅)
    by (vm_compute; reflexivity).
  exact (List_state_returns_comments (H := example_codec) dev "demo"
           "articles" "hello" StateDraft fix_it (bytes "Uc1") world_draft
           Hroot Ht Hty Hid Hcid (or_introl eq_refl) eq_refl Hfaults).
Defined.

(** ** Clearing the comments of an item *)






(** ** The storage handle *)

Lemma TrimLeft_no_prefix s :
  GoStrings.HasPrefix (GoStrings.TrimLeft_byte s "/") "/" = false.
Proof.
  unfold GoStrings.HasPrefix. induction s as [|a s IH]; [reflexivity|].
  cbn [GoStrings.TrimLeft_byte].
  destruct (Ascii.eqb a "/") eqn:Ha; [exact IH|].
  by rewrite prefix_slash.
Qed.

Lemma TrimLeft_clean s :
  GoStrings.HasPrefix s "/" = false → GoStrings.TrimLeft_byte s "/" = s.
Proof.
  unfold GoStrings.HasPrefix. destruct s as [|a s]; [done|].
  rewrite prefix_slash. cbn [GoStrings.TrimLeft_byte]. by intros ->.
Qed.

Lemma HasSuffix_single a :
  GoStrings.HasSuffix (String a "") "/" = Ascii.eqb a "/".
Proof.
  unfold GoStrings.HasSuffix. cbn.
  by destruct (Ascii.eqb a "/").
Qed.

Lemma HasSuffix_cons a s :
  s ≠ "" →
  GoStrings.HasSuffix (String a s) "/" = GoStrings.HasSuffix s "/".
Proof.
  intros Hne. unfold GoStrings.HasSuffix.
  destruct s as [|b s]; [done|].
  cbn [String.length].
  replace (S (S (String.length s)) - 1)%nat with (S (String.length s))
    by lia.
  replace (S (String.length s) - 1)%nat with (String.length s) by lia.
  reflexivity.
Qed.

Lemma HasSuffix_rev_app s acc :
  acc ≠ "" →
  GoStrings.HasSuffix (String.rev_app s acc) "/"
  = GoStrings.HasSuffix acc "/".
Proof.
  revert acc. induction s as [|a s IH]; intros acc Hne; [reflexivity|].
  cbn [String.rev_app]. rewrite IH by done. by apply HasSuffix_cons.
Qed.

(** The last byte of a reversed string is the first byte of the string. *)
Lemma HasSuffix_rev s :
  GoStrings.HasSuffix (String.rev s) "/" = GoStrings.HasPrefix s "/".
Proof.
  unfold String.rev, GoStrings.HasPrefix. destruct s as [|a s]; [reflexivity|].
  cbn [String.rev_app]. rewrite HasSuffix_rev_app by done.
  by rewrite HasSuffix_single, prefix_slash.
Qed.

Lemma rev_involutive_string s : String.rev (String.rev s) = s.
Proof. apply rev_rev_app. Qed.

Lemma HasPrefix_rev s :
  GoStrings.HasPrefix (String.rev s) "/" = GoStrings.HasSuffix s "/".
Proof.
  by rewrite <- HasSuffix_rev, rev_involutive_string.
Qed.

Lemma TrimLeft_keeps_end s :
  GoStrings.HasSuffix s "/" = false →
  GoStrings.HasSuffix (GoStrings.TrimLeft_byte s "/") "/" = false.
Proof.
  induction s as [|a s IH]; intros Hend; [reflexivity|].
  cbn [GoStrings.TrimLeft_byte].
  destruct (Ascii.eqb a "/"); [|exact Hend].
  apply IH. destruct s as [|b s]; [reflexivity|].
  by rewrite HasSuffix_cons in Hend.
Qed.

(** [NewS3Storage] normalises its configuration: the root it holds never
    begins or ends with a slash and is the configured root itself when
    that has neither; the held version cap is never zero, and is the
    configured one unless that is zero; the bucket name is kept. *)
Theorem NewS3Storage_normalises cfg :
  let s := NewS3Storage cfg in
  GoStrings.HasPrefix (root s) "/" = false
  ∧ GoStrings.HasSuffix (root s) "/" = false
  ∧ (GoStrings.HasPrefix (S3Config.Root cfg) "/" = false →
     GoStrings.HasSuffix (S3Config.Root cfg) "/" = false →
     root s = S3Config.Root cfg)
  ∧ maxVersions s ≠ 0
  ∧ (S3Config.MaxVersions cfg ≠ 0 → maxVersions s = S3Config.MaxVersions cfg)
  ∧ bucket s = S3Config.Bucket cfg.
Proof.
  cbv zeta. unfold NewS3Storage. cbn [root maxVersions bucket].
  unfold GoStrings.Trim_byte, GoStrings.TrimRight_byte.
  split; [|split; [|split; [|split; [|split]]]].
  - rewrite HasPrefix_rev. apply TrimLeft_keeps_end.
    rewrite HasSuffix_rev. apply TrimLeft_no_prefix.
  - rewrite HasSuffix_rev. apply TrimLeft_no_prefix.
  - intros Hstart Hend. rewrite (TrimLeft_clean _ Hstart).
    rewrite TrimLeft_clean by (by rewrite HasPrefix_rev).
    apply rev_involutive_string.
  - destruct (S3Config.MaxVersions cfg =? 0) eqn:Hzero; [done|].
    by apply Z.eqb_neq.
  - intros Hne. by rewrite (proj2 (Z.eqb_neq _ _) Hne).
  - reflexivity.
Qed.

Lemma NewS3Storage_normalises_witness :
  root (NewS3Storage (config 0)) = "development"
  ∧ GoStrings.HasPrefix (root (NewS3Storage (config 0))) "/" = false
  ∧ GoStrings.HasSuffix (root (NewS3Storage (config 0))) "/" = false
  ∧ maxVersions (NewS3Storage (config 0)) ≠ 0
  ∧ maxVersions (NewS3Storage (config 3)) = 3.
Proof.
  split; [vm_compute; reflexivity|].
  destruct (NewS3Storage_normalises (config 0)) as (H1 & H2 & _ & H4 & _).
  destruct (NewS3Storage_normalises (config 3)) as (_ & _ & _ & _ & H5 & _).
  split; [exact H1|]. split; [exact H2|]. split; [exact H4|].
  apply H5. discriminate.
Defined.

(** ** The state of a request *)

(** [getState] never hands an invalid state to the storage: a valid state
    name is returned as it is, and everything else, the empty string and
    unknown names alike, means live. *)
Theorem getState_valid stateStr :
  ValidState (getState stateStr) = true
  ∧ getState stateStr
    = if ValidState stateStr then stateStr else StateLive.
Proof.
  unfold getState. destruct (decide (stateStr = "")) as [->|Hne].
  - split; reflexivity.
  - destruct (ValidState stateStr) eqn:Hvalid; by split.
Qed.

(** ** A streamed write and the pruning it starts *)

Lemma PutStream_run s tenant contentType id ext body contentLength mimeType
    metadata w item w1 :
  PutStream s tenant contentType id ext body contentLength mimeType
            StateLive metadata w = (inr item, w1) →
  let key := contentKey s tenant contentType id ext StateLive in
  S3.object_fault (s3Client w1) key = None
  ∧ ∃ ov older,
      S3.versions_of (s3Client w1) key = ov :: older
      ∧ S3.ov_IsDeleteMarker ov = false
      ∧ S3.ov_Body ov = body.
Proof.
  cbv zeta. unfold PutStream, bind, ret, s3_PutObject. cbv zeta.
  change (default_state StateLive) with StateLive.
  set (key := contentKey s tenant contentType id ext StateLive).
  set (input := {| S3.put_Key := key; S3.put_Body := body;
                   S3.put_ContentLength := _; S3.put_ContentType := _;
                   S3.put_Metadata := _ |}).
  destruct (S3.object_fault (s3Client w) key) as [e|] eqn:Hok.
  { unfold S3.PutObject. cbn [S3.put_Key input]. rewrite Hok. discriminate. }
  destruct (PutObject_stored input (s3Client w) Hok)
    as (out & b' & ov & older & Hput & Hf & Hobj & Hdm & Hbody).
  rewrite Hput.
  assert (Hbucket : ∀ g : M unit,
             (g = spawn (go_pruneVersions s key) ∨ g = ret ()) →
             s3Client (g (with_bucket w b')).2 = b').
  { intros g [->| ->]; reflexivity. }
  intros Hrun.
  assert (Hw1 : s3Client w1 = b').
  { destruct (bool_decide (StateLive = StateLive) && (0 <? maxVersions s));
      unfold spawn, ret in Hrun; by injection Hrun as _ <-. }
  rewrite Hw1. split.
  - by rewrite (object_fault_faults _ _ key Hf).
  - exists ov, older. split; [|done]. unfold S3.versions_of.
    cbn [S3.put_Key input] in Hobj. by rewrite Hobj.
Qed.

Lemma quiesce_one s key w :
  goroutines w = [go_pruneVersions s key] →
  quiesce w
  = (pruneVersions s key
       {| s3Client := s3Client w; goroutines := []; logs := logs w |}).2.
Proof. unfold quiesce. by intros ->. Qed.

(** ** Pruning that the service does not serve *)

Lemma prune_delete_refused key toDelete w e :
  S3.delete_fault (s3Client w) key = Some e →
  s3Client (prune_delete key toDelete w).2 = s3Client w.
Proof.
  revert w. induction toDelete as [|v rest IH]; intros w Hdf; [reflexivity|].
  cbn [prune_delete]. unfold bind at 1.
  unfold s3_DeleteObject, S3.DeleteObject. rewrite Hdf. cbn [fst snd].
  unfold bind at 1, log_Error. cbn [fst snd].
  rewrite IH; cbn [s3Client with_bucket]; [reflexivity|exact Hdf].
Qed.

(** A pruning whose listing fails, or whose deletes are refused, returns
    and leaves the bucket as it was. *)
Lemma pruneVersions_not_served s key w :
  0 < maxVersions s →
  S3.list_fault (s3Client w) key ≠ None
  ∨ S3.delete_fault (s3Client w) key ≠ None →
  ∃ w',
    pruneVersions s key w = (Returned, w')
    ∧ s3Client w' = s3Client w
    ∧ goroutines w' = goroutines w.
Proof.
  intros Hmax Hfault. unfold pruneVersions. unfold bind at 1.
  unfold s3_ListObjectVersions, S3.ListObjectVersions.
  destruct (S3.list_fault (s3Client w) key) as [e|] eqn:Hls.
  { eexists. split; [reflexivity|]. by split. }
  destruct Hfault as [|Hdf]; [done|]. cbn [fst snd].
  destruct (S3.delete_fault (s3Client w) key) as [e|] eqn:Hdel; [|done].
  destruct (maxVersions s <? _); [|by eexists].
  destruct (maxVersions s <? 0) eqn:Hneg; [apply Z.ltb_lt in Hneg; lia|].
  cbv zeta. unfold bind, ret.
  match goal with
  | |- context [prune_delete key ?l w] =>
      pose proof (prune_delete_refused key l w e Hdel) as Hb;
      pose proof (prune_delete_goroutines key l w) as Hgo;
      destruct (prune_delete key l w) as [[] w']
  end.
  exists w'. by split.
Qed.

(** A streamed live write followed by the pruning it starts: with a
    positive cap, on an idle world and a key whose version ids are
    distinct after the write, once the queued pruning has run nothing is
    left to run and the current object of the key is the body just
    written.  Pruning is best effort: when the version listing and the
    deletes of the key are served, the key is left with at most
    [maxVersions] versions holding an object, the newest ones; when the
    listing fails or the deletes are refused, the key keeps every
    version. *)
Theorem PutStream_then_prune s tenant contentType id ext body contentLength
    mimeType metadata w item w1 :
  goroutines w = [] →
  0 < maxVersions s →
  PutStream s tenant contentType id ext body contentLength mimeType
            StateLive metadata w = (inr item, w1) →
  NoDup (S3.shown_id
           <$> S3.versions_of (s3Client w1)
                 (contentKey s tenant contentType id ext StateLive)) →
  let key := contentKey s tenant contentType id ext StateLive in
  goroutines (quiesce w1) = []
  ∧ (∃ ov, S3.current (s3Client (quiesce w1)) key = Some ov
           ∧ S3.ov_Body ov = body)
  ∧ match S3.list_fault (s3Client w1) key,
          S3.delete_fault (s3Client w1) key with
    | None, None =>
        S3.object_versions (s3Client (quiesce w1)) key
        = take (Z.to_nat (maxVersions s))
               (S3.object_versions (s3Client w1) key)
        ∧ (length (S3.object_versions (s3Client (quiesce w1)) key)
           ≤ Z.to_nat (maxVersions s))%nat
    | _, _ =>
        S3.versions_of (s3Client (quiesce w1)) key
        = S3.versions_of (s3Client w1) key
    end.
Proof.
  intros Hidle Hmax Hrun Hids. cbv zeta.
  set (key := contentKey s tenant contentType id ext StateLive) in *.
  pose proof (PutStream_live_spawns _ _ _ _ _ _ _ _ _ _ _ _ Hmax Hrun)
    as Hqueued.
  rewrite Hidle in Hqueued. cbn [app] in Hqueued. fold key in Hqueued.
  destruct (PutStream_run _ _ _ _ _ _ _ _ _ _ _ _ Hrun)
    as (_ & ov & older & Hvs & Hdm & Hbody).
  fold key in Hvs.
  rewrite (quiesce_one s key w1 Hqueued).
  set (w2 := {| s3Client := s3Client w1; goroutines := [];
                logs := logs w1 |}).
  assert (Hcur : S3.current (s3Client w1) key = Some ov)
    by (unfold S3.current; by rewrite Hvs, Hdm).
  assert (Hserved :
    S3.list_fault (s3Client w1) key = None →
    S3.delete_fault (s3Client w1) key = None →
    goroutines (pruneVersions s key w2).2 = []
    ∧ S3.current (s3Client (pruneVersions s key w2).2) key = Some ov
    ∧ S3.object_versions (s3Client (pruneVersions s key w2).2) key
      = take (Z.to_nat (maxVersions s))
             (S3.object_versions (s3Client w1) key)).
  { intros Hls Hdf.
    destruct (pruneVersions_left s key w2 Hmax Hls Hdf)
      as (w' & Hpruned & Hleft & _ & Hgo & _).
    rewrite Hpruned. cbn [snd]. cbn [s3Client w2] in Hleft.
    split; [exact Hgo|]. split.
    - by rewrite (kept_current (Z.to_nat (maxVersions s)) (s3Client w1)
                    (s3Client w') key ltac:(lia) Hids Hleft).
    - unfold S3.object_versions in *. rewrite Hleft. by apply kept_objects. }
  assert (Hrefused :
    S3.list_fault (s3Client w1) key ≠ None
    ∨ S3.delete_fault (s3Client w1) key ≠ None →
    goroutines (pruneVersions s key w2).2 = []
    ∧ s3Client (pruneVersions s key w2).2 = s3Client w1).
  { intros Hfault.
    destruct (pruneVersions_not_served s key w2 Hmax Hfault)
      as (w' & Hpruned & Hb & Hgo).
    rewrite Hpruned. by split. }
  destruct (S3.list_fault (s3Client w1) key) as [e|] eqn:Hls.
  { destruct Hrefused as [Hgo ->]; [by left|].
    split; [exact Hgo|]. split; [by exists ov|reflexivity]. }
  destruct (S3.delete_fault (s3Client w1) key) as [e|] eqn:Hdf.
  { destruct Hrefused as [Hgo ->]; [by right|].
    split; [exact Hgo|]. split; [by exists ov|reflexivity]. }
  destruct Hserved as (Hgo & Hov & Hkept); [done..|].
  split; [exact Hgo|]. split; [by exists ov|]. split; [exact Hkept|].
  rewrite Hkept, length_take. lia.
Qed.

Lemma PutStream_then_prune_witness :
  (∃ item w1,
      PutStream dev "demo" "articles" "hello" "json" (bytes "d") 1
                "text/plain" StateLive None (quiesce three_puts)
      = (inr item, w1)
      ∧ S3.shown_id
          <$> S3.object_versions (s3Client w1)
                (contentKey dev "demo" "articles" "hello" "json" StateLive)
        = ["v4"; "v3"; "v2"; "v1"]
      ∧ S3.shown_id
          <$> S3.object_versions (s3Client (quiesce w1))
                (contentKey dev "demo" "articles" "hello" "json" StateLive)
        = ["v4"; "v3"])
  ∧ S3.list_fault (s3Client world_unlistable)
      (contentKey dev "demo" "articles" "hello" "json" StateLive) = None
  ∧ (∃ item w1,
        PutStream dev "demo" "articles" "hello" "json" (bytes "d") 1
                  "text/plain" StateLive None world_unlistable
        = (inr item, w1)
        ∧ S3.list_fault (s3Client w1)
            (contentKey dev "demo" "articles" "hello" "json" StateLive)
          = Some S3.InternalError
        ∧ S3.shown_id
            <$> S3.object_versions (s3Client (quiesce w1))
                  (contentKey dev "demo" "articles" "hello" "json" StateLive)
          = ["v4"; "v3"; "v2"; "v1"]
        ∧ logs (quiesce w1)
          = [LogError "Failed to list versions for pruning"
                      (SDK S3.InternalError)])
  ∧ (∃ item w1,
        PutStream dev "demo" "articles" "hello" "json" (bytes "d") 1
                  "text/plain" StateLive None world_unprunable
        = (inr item, w1)
        ∧ S3.shown_id
            <$> S3.object_versions (s3Client (quiesce w1))
                  (contentKey dev "demo" "articles" "hello" "json" StateLive)
          = ["v4"; "v3"; "v2"; "v1"]
        ∧ logs (quiesce w1)
          = [LogError "Failed to delete old version v2"
                      (SDK S3.AccessDenied);
             LogError "Failed to delete old version v1"
                      (SDK S3.AccessDenied)]).
Proof.
  set (key := contentKey dev "demo" "articles" "hello" "json" StateLive).
  assert (Hrun : ∀ w,
    goroutines w = [] →
    (∃ item,
        (PutStream dev "demo" "articles" "hello" "json" (bytes "d") 1
                   "text/plain" StateLive None w).1 = inr item) →
    S3.shown_id
      <$> S3.versions_of
            (s3Client (PutStream dev "demo" "articles" "hello" "json"
                                 (bytes "d") 1 "text/plain" StateLive None
                                 w).2) key
    = ["v4"; "v3"; "v2"; "v1"] →
    ∃ item w1,
      PutStream dev "demo" "articles" "hello" "json" (bytes "d") 1
                "text/plain" StateLive None w = (inr item, w1)
      ∧ goroutines (quiesce w1) = []
      ∧ match S3.list_fault (s3Client w1) key,
              S3.delete_fault (s3Client w1) key with
        | None, None =>
            S3.object_versions (s3Client (quiesce w1)) key
            = take 2 (S3.object_versions (s3Client w1) key)
        | _, _ =>
            S3.versions_of (s3Client (quiesce w1)) key
            = S3.versions_of (s3Client w1) key
        end).
  { intros w Hidle [item Hres] Hheld.
    destruct (PutStream dev "demo" "articles" "hello" "json" (bytes "d") 1
                "text/plain" StateLive None w) as [r w1] eqn:Hput.
    cbn [fst snd] in Hres, Hheld. subst r.
    assert (Hids : NoDup (S3.shown_id
                            <$> S3.versions_of (s3Client w1) key)).
    { rewrite Hheld. apply (bool_decide_unpack _). by vm_compute. }
    destruct (PutStream_then_prune dev "demo" "articles" "hello" "json"
                (bytes "d") 1 "text/plain" None w _ w1 Hidle eq_refl Hput
                Hids) as (Hgo & _ & Hleft).
    eexists _, w1. split; [reflexivity|]. split; [exact Hgo|].
    fold key in Hleft.
    destruct (S3.list_fault (s3Client w1) key); [exact Hleft|].
    destruct (S3.delete_fault (s3Client w1) key); [exact Hleft|].
    exact (proj1 Hleft). }
  split; [|split; [vm_compute; reflexivity|split]].
  - destruct (Hrun (quiesce three_puts)) as (item & w1 & Hput & _ & Hleft);
      [vm_compute; reflexivity
      |eexists; vm_compute; reflexivity
      |vm_compute; reflexivity|].
    assert (Hw1 : w1 = (PutStream dev "demo" "articles" "hello" "json"
                          (bytes "d") 1 "text/plain" StateLive None
                          (quiesce three_puts)).2) by (by rewrite Hput).
    assert (Hobjs : S3.shown_id <$> S3.object_versions (s3Client w1) key
                    = ["v4"; "v3"; "v2"; "v1"])
      by (rewrite Hw1; vm_compute; reflexivity).
    assert (Hls : S3.list_fault (s3Client w1) key = None)
      by (rewrite Hw1; vm_compute; reflexivity).
    assert (Hdf : S3.delete_fault (s3Client w1) key = None)
      by (rewrite Hw1; vm_compute; reflexivity).
    rewrite Hls, Hdf in Hleft.
    exists item, w1. split; [exact Hput|]. split; [exact Hobjs|].
    rewrite Hleft, fmap_take, Hobjs. reflexivity.
  - destruct (Hrun world_unlistable) as (item & w1 & Hput & _ & Hleft);
      [vm_compute; reflexivity
      |eexists; vm_compute; reflexivity
      |vm_compute; reflexivity|].
    assert (Hw1 : w1 = (PutStream dev "demo" "articles" "hello" "json"
                          (bytes "d") 1 "text/plain" StateLive None
                          world_unlistable).2) by (by rewrite Hput).
    assert (Hobjs : S3.shown_id <$> S3.object_versions (s3Client w1) key
                    = ["v4"; "v3"; "v2"; "v1"])
      by (rewrite Hw1; vm_compute; reflexivity).
    assert (Hls : S3.list_fault (s3Client w1) key = Some S3.InternalError)
      by (rewrite Hw1; vm_compute; reflexivity).
    rewrite Hls in Hleft.
    exists item, w1. split; [exact Hput|]. split; [exact Hls|]. split.
    + unfold S3.object_versions in *. rewrite Hleft. exact Hobjs.
    + rewrite Hw1. vm_compute. reflexivity.
  - destruct (Hrun world_unprunable) as (item & w1 & Hput & _ & Hleft);
      [vm_compute; reflexivity
      |eexists; vm_compute; reflexivity
      |vm_compute; reflexivity|].
    assert (Hw1 : w1 = (PutStream dev "demo" "articles" "hello" "json"
                          (bytes "d") 1 "text/plain" StateLive None
                          world_unprunable).2) by (by rewrite Hput).
    assert (Hobjs : S3.shown_id <$> S3.object_versions (s3Client w1) key
                    = ["v4"; "v3"; "v2"; "v1"])
      by (rewrite Hw1; vm_compute; reflexivity).
    assert (Hls : S3.list_fault (s3Client w1) key = None)
      by (rewrite Hw1; vm_compute; reflexivity).
    assert (Hdf : S3.delete_fault (s3Client w1) key = Some S3.AccessDenied)
      by (rewrite Hw1; vm_compute; reflexivity).
    rewrite Hls, Hdf in Hleft.
    exists item, w1. split; [exact Hput|]. split.
    + unfold S3.object_versions in *. rewrite Hleft. exact Hobjs.
    + rewrite Hw1. vm_compute. reflexivity.
Defined.

(** ** What a move leaves of its source *)

(** A write never takes the current object of a key away. *)
Lemma PutObject_keeps_current i b k ov older :
  S3.versions_of b k = ov :: older →
  S3.ov_IsDeleteMarker ov = false →
  ∃ ov' older',
    S3.versions_of (S3.PutObject i b).2 k = ov' :: older'
    ∧ S3.ov_IsDeleteMarker ov' = false.
Proof.
  intros Hvs Hdm. unfold S3.PutObject.
  destruct (S3.object_fault b (S3.put_Key i)); [by exists ov, older|].
  cbv zeta. cbn [snd].
  destruct (decide (S3.put_Key i = k)) as [<-|Hne].
  - rewrite versions_of_set_versions.
    destruct (S3.versioning b); by eexists _, _.
  - rewrite versions_of_set_versions_ne by done. by exists ov, older.
Qed.

(** A transition that reports success has moved the item out of its
    source state as far as the service let it.  The returned item carries
    the target key and the bytes and MIME type read from the source.  When
    deletes of the source key are served, the source state no longer holds
    the item afterwards, whether or not the clean-up of its comments went
    well.  When they are refused, the transition reports success all the
    same: the failure is logged and the item is still there in its source
    state. *)
Theorem Transition_removes_source `{CommentJSON} s tenant contentType id ext
    fromState toState w item w' :
  Transition s tenant contentType id ext fromState toState w
  = (inr item, w') →
  (∃ sourceItem,
      (Get s tenant contentType id ext fromState w).1 = inr sourceItem
      ∧ ContentItem.Key item
        = contentKey s tenant contentType id ext (default_state toState)
      ∧ ContentItem.Content item = ContentItem.Content sourceItem
      ∧ ContentItem.ContentType item = ContentItem.ContentType sourceItem)
  ∧ match S3.delete_fault (s3Client w)
            (contentKey s tenant contentType id ext
                        (default_state fromState)) with
    | None =>
        (Get s tenant contentType id ext fromState w').1
        = inl (Wrapf "failed to get object" (SDK S3.NoSuchKey))
        ∧ (Exists s tenant contentType id ext fromState w').1 = inr false
    | Some err =>
        (Exists s tenant contentType id ext fromState w').1 = inr true
        ∧ LogError ("Failed to delete content from " +:+ fromState
                      +:+ " state")
                   (Wrapf "failed to delete object" (SDK err)) ∈ logs w'
    end.
Proof.
  intros Hrun. apply Transition_ok_move in Hrun as [_ Hrun].
  apply transition_move_steps in Hrun
    as (src & w1 & w2 & Hget & Hput & Hdel & Hclean & Hlogged).
  pose proof (transition_move_only_deletes _ _ _ _ _ _ _ Hclean)
    as [Hfaults Hgone].
  pose proof Hput as Hwrite. rewrite Put_run in Hwrite. cbv zeta in Hwrite.
  apply Put_ok_item in Hput as (Hkey & Hcontent & Hmime & Hf1).
  assert (Hok : S3.object_fault (s3Client w)
                  (contentKey s tenant contentType id ext
                              (default_state fromState)) = None).
  { apply (getByKey_ok_fault s _ "" w src).
    change ((Get s tenant contentType id ext fromState w).1 = inr src).
    by rewrite Hget. }
  assert (Hsrc : ∃ ov older,
             S3.versions_of (s3Client w)
               (contentKey s tenant contentType id ext
                           (default_state fromState)) = ov :: older
             ∧ S3.ov_IsDeleteMarker ov = false).
  { destruct (getByKey_current s
                (contentKey s tenant contentType id ext
                            (default_state fromState)) w src)
      as (ov & older & Hvs & Hdm & _); [|by exists ov, older].
    change ((Get s tenant contentType id ext fromState w).1 = inr src).
    by rewrite Hget. }
  set (key := contentKey s tenant contentType id ext
                         (default_state fromState)) in *.
  assert (Hf2 : S3.faults (s3Client w2) = S3.faults (s3Client w1))
    by (rewrite Hdel; apply DeleteObject_faults).
  assert (Hok' : S3.object_fault (s3Client w') key = None).
  { by rewrite (object_fault_faults _ _ key Hfaults),
      (object_fault_faults _ _ key Hf2), (object_fault_faults _ _ key Hf1). }
  split.
  { exists src. rewrite Hget. done. }
  destruct (S3.delete_fault (s3Client w) key) as [err|] eqn:Hdf.
  - (* the delete of the source is refused *)
    assert (Hdf1 : S3.delete_fault (s3Client w1) key = Some err)
      by (by rewrite (delete_fault_faults _ _ key Hf1)).
    assert (Hrefused : S3.DeleteObject key None (s3Client w1)
                       = (inl err, s3Client w1))
      by (unfold S3.DeleteObject; by rewrite Hdf1).
    rewrite Hrefused in Hdel, Hlogged. cbn [fst snd] in Hdel, Hlogged.
    split; [|by apply Hlogged].
    assert (Hkept : S3.versions_of (s3Client w') key
                    = S3.versions_of (s3Client w1) key).
    { rewrite Hclean. destruct (negb _); [|by rewrite Hdel].
      rewrite (DeleteAllComments_refused s tenant contentType id fromState
                 key w2 err), Hdel; [reflexivity|].
      by rewrite Hdel. }
    destruct Hsrc as (ov & older & Hvs & Hdm).
    assert (Hthere : ∃ ov' older',
               S3.versions_of (s3Client w1) key = ov' :: older'
               ∧ S3.ov_IsDeleteMarker ov' = false).
    { injection Hwrite as _ <-. cbn [s3Client with_bucket].
      by eapply PutObject_keeps_current. }
    destruct Hthere as (ov' & older' & Hvs' & Hdm').
    unfold Exists. unfold_M. cbv zeta. fold key.
    rewrite <- Hkept in Hvs'.
    by rewrite (HeadObject_current key _ ov' older' Hok' Hvs' Hdm').
  - (* the delete of the source is served *)
    assert (Hgone' : S3.current (s3Client w') key = None).
    { apply Hgone. rewrite Hdel.
      apply (DeleteObject_gone key (s3Client w1)).
      unfold S3.DeleteObject.
      by rewrite (delete_fault_faults _ _ key Hf1), Hdf. }
    split; [by apply Get_gone|].
    unfold Exists. unfold_M. cbv zeta. fold key.
    by rewrite (HeadObject_gone _ _ Hok' Hgone').
Qed.

Lemma Transition_removes_source_witness :
  (∃ item w',
      Transition (H := example_codec) dev "demo" "articles" "hello" "json"
                 StateDraft StateLive world_draft = (inr item, w')
      ∧ (Get dev "demo" "articles" "hello" "json" StateDraft w').1
        = inl (Wrapf "failed to get object" (SDK S3.NoSuchKey)))
  ∧ (∃ item w',
        Transition (H := example_codec) dev "demo" "articles" "hello" "json"
                   StateDraft StateLive world_undeletable = (inr item, w')
        ∧ (Exists dev "demo" "articles" "hello" "json" StateDraft w').1
          = inr true
        ∧ LogError ("Failed to delete content from " +:+ StateDraft
                      +:+ " state")
                   (Wrapf "failed to delete object" (SDK S3.AccessDenied))
          ∈ logs w').
Proof.
  split.
  - destruct (Transition (H := example_codec) dev "demo" "articles" "hello"
                "json" StateDraft StateLive world_draft) as [r w'] eqn:Hrun.
    assert (Hok : ∃ item, r = inr item).
    { assert (Hr : r = (Transition (H := example_codec) dev "demo"
                          "articles" "hello" "json" StateDraft StateLive
                          world_draft).1)
        by (by rewrite Hrun).
      rewrite Hr. eexists. vm_compute. reflexivity. }
    destruct Hok as [item ->]. exists item, w'. split; [reflexivity|].
    assert (Hdf : S3.delete_fault (s3Client world_draft)
                    (contentKey dev "demo" "articles" "hello" "json"
                                (default_state StateDraft)) = None)
      by (vm_compute; reflexivity).
    pose proof (Transition_removes_source (H := example_codec) dev "demo"
                  "articles" "hello" "json" StateDraft StateLive world_draft
                  item w' Hrun) as [_ Hafter].
    rewrite Hdf in Hafter. exact (proj1 Hafter).
  - destruct (Transition (H := example_codec) dev "demo" "articles" "hello"
                "json" StateDraft StateLive world_undeletable)
      as [r w'] eqn:Hrun.
    assert (Hok : ∃ item, r = inr item).
    { assert (Hr : r = (Transition (H := example_codec) dev "demo"
                          "articles" "hello" "json" StateDraft StateLive
                          world_undeletable).1)
        by (by rewrite Hrun).
      rewrite Hr. eexists. vm_compute. reflexivity. }
    destruct Hok as [item ->]. exists item, w'. split; [reflexivity|].
    assert (Hdf : S3.delete_fault (s3Client world_undeletable)
                    (contentKey dev "demo" "articles" "hello" "json"
                                (default_state StateDraft))
                  = Some S3.AccessDenied)
      by (vm_compute; reflexivity).
    pose proof (Transition_removes_source (H := example_codec) dev "demo"
                  "articles" "hello" "json" StateDraft StateLive
                  world_undeletable item w' Hrun) as [_ Hafter].
    rewrite Hdf in Hafter. exact Hafter.
Defined.
